(** * my_vpn: the IP pool, the WireGuard peer file, the alert manager,
      the token manager and the create-client handler, embedded from the Go
      sources and checked against the properties the specification states.

    Conventions of the embedding.
    - Go [int] is 64 bits wide on the supported hosts; the quantities
      handled here (at most 2^32 addresses, map sizes, counters) stay far
      inside that range, so [int] values are modelled as [Z].
    - Go strings are modelled as [string]; a Go [map[string]V] as a
      [gmap string V]; reading a missing key of a [map[string]bool] yields
      [false], which is [lookupB] below.
    - [time.Time] and [time.Duration] are modelled as [Z] (nanoseconds);
      each reading of [time.Now()] is an explicit argument. *)

From Stdlib Require Import ZArith Lia List Ascii String Bool Permutation DecimalString.
From stdpp Require Import base option gmap strings list fin_maps sorting.

Open Scope Z_scope.

(** ** Results of fallible calls *)

Inductive result (E A : Type) : Type :=
| Ok (a : A)
| Err (e : E)
| Diverges.
Arguments Ok {E A} a.
Arguments Err {E A} e.
Arguments Diverges {E A}.

Definition lookupB (m : gmap string bool) (k : string) : bool :=
  default false (m !! k).

(** ** The pieces of Go's [net] package the pool relies on *)

Module GoNet.

(** A [net.IP] is a byte slice. *)
Definition IP := list Z.

Definition is_byte (b : Z) : Prop := 0 <= b < 256.
Definition is_ip4 (ip : IP) : Prop := length ip = 4%nat /\ Forall is_byte ip.

Record IPNet := mkIPNet { net_IP : IP; net_Mask : list Z }.

Definition digit_char (d : Z) : ascii := ascii_of_N (Z.to_N (48 + d)).

(** [ubtoa]: decimal text of one byte, without leading zeros. *)
Definition ubtoa (v : Z) : string :=
  if v <? 10 then String (digit_char v) EmptyString
  else if v <? 100 then
    String (digit_char (v / 10)) (String (digit_char (v mod 10)) EmptyString)
  else
    String (digit_char (v / 100))
      (String (digit_char ((v / 10) mod 10))
         (String (digit_char (v mod 10)) EmptyString)).

Definition isZeros (l : list Z) : bool := forallb (Z.eqb 0) l.

(** [IP.To4]: the 4-byte form of an IPv4 or IPv4-mapped address. *)
Definition To4 (ip : IP) : option IP :=
  if (length ip =? 4)%nat then Some ip
  else if ((length ip =? 16)%nat && isZeros (take 10 ip)
           && bool_decide (ip !! 10%nat = Some 255)
           && bool_decide (ip !! 11%nat = Some 255))%bool
       then Some (drop 12 ip)
       else None.

(** [IP.String] on an address with a 4-byte form is dotted decimal.  The
    IPv6 text form is not needed by the pool and is left as a marker. *)
Definition IP_String (ip : IP) : string :=
  match To4 ip with
  | Some [a; b; c; d] =>
      ubtoa a +:+ "." +:+ ubtoa b +:+ "." +:+ ubtoa c +:+ "." +:+ ubtoa d
  | _ => match ip with [] => "<nil>" | _ => "?" end
  end.

Definition digit_of (c : ascii) : option Z :=
  let n := Z.of_N (N_of_ascii c) in
  if (48 <=? n) && (n <=? 57) then Some (n - 48) else None.

(** [parseIPv4] of net/netip: four decimal fields, no leading zero, each
    at most 255.  [first] says the cursor is at index 0, [prev_dot] that
    the previous byte was a dot. *)
Fixpoint parseIPv4_loop (s : string) (first prev_dot : bool)
    (fields : list Z) (val digLen : Z) : option IP :=
  match s with
  | EmptyString =>
      if (length fields <? 3)%nat then None else Some (fields ++ [val])
  | String c rest =>
      match digit_of c with
      | Some d =>
          if (digLen =? 1) && (val =? 0) then None
          else
            let val' := val * 10 + d in
            if 255 <? val' then None
            else parseIPv4_loop rest false false fields val' (digLen + 1)
      | None =>
          if Ascii.eqb c "." then
            if first || (match rest with EmptyString => true | _ => false end)
               || prev_dot then None
            else if (length fields =? 3)%nat then None
            else parseIPv4_loop rest false true (fields ++ [val]) 0 0
          else None
      end
  end.

Definition parseIPv4 (s : string) : option IP :=
  parseIPv4_loop s true false [] 0 0.

Section Parse.
(** The IPv6 text parser of net/netip is not modelled; its result (the
    16 bytes of the address) is left as an arbitrary function. *)
Variable parseIPv6 : string -> option IP.

(** [netip.ParseAddr]: the first of '.', ':' and '%' picks the parser. *)
Fixpoint ParseAddr_scan (whole s : string) : option IP :=
  match s with
  | EmptyString => None
  | String c rest =>
      if Ascii.eqb c "." then parseIPv4 whole
      else if Ascii.eqb c ":" then parseIPv6 whole
      else if Ascii.eqb c "%" then None
      else ParseAddr_scan whole rest
  end.

(** [net.ParseIP].  Go hands back IPv4 addresses in 16-byte
    IPv4-in-IPv6 form; both users of the result ([Equal], [Contains])
    go through [To4] first, so the 4-byte form is kept here. *)
Definition ParseIP (s : string) : option IP :=
  match ParseAddr_scan s s with
  | Some ip => match To4 ip with Some v4 => Some v4 | None => Some ip end
  | None => None
  end.
End Parse.

(** [IP.Equal] on To4-normalised addresses. *)
Definition IP_Equal (a : IP) (b : option IP) : bool :=
  match b with
  | Some b' => bool_decide (a = b')
  | None => false
  end.

(** [IP.Mask] for an address and a mask of the same length. *)
Definition IP_Mask (ip : IP) (mask : list Z) : IP :=
  zip_with Z.land ip mask.

(** [IPNet.Contains]. *)
Definition Contains (n : IPNet) (ip : IP) : bool :=
  let ip' := match To4 ip with Some x => x | None => ip end in
  if negb (length ip' =? length (net_IP n))%nat then false
  else forallb (fun t => Z.land (fst (fst t)) (snd t) =? Z.land (snd (fst t)) (snd t))
         (zip (zip (net_IP n) ip') (net_Mask n)).

(** [CIDRMask ones bits]: [n] counts the one bits still to be placed. *)
Fixpoint CIDRMask_loop (l : nat) (n : Z) : list Z :=
  match l with
  | O => []
  | S l' =>
      if 8 <=? n then 255 :: CIDRMask_loop l' (n - 8)
      else Z.lxor (Z.shiftr 255 n) 255 :: CIDRMask_loop l' 0
  end.

Definition CIDRMask (ones bits : Z) : option (list Z) :=
  if negb ((bits =? 32) || (bits =? 128)) then None
  else if (ones <? 0) || (bits <? ones) then None
  else Some (CIDRMask_loop (Z.to_nat (bits / 8)) ones).

(** [simpleMaskLength] and [IPMask.Size]. *)
Fixpoint count_ones (k : nat) (v n : Z) : Z * Z :=
  match k with
  | O => (v, n)
  | S k' =>
      if negb (Z.land v 128 =? 0)
      then count_ones k' (Z.land (Z.shiftl v 1) 255) (n + 1)
      else (v, n)
  end.

Fixpoint simpleMaskLength (mask : list Z) (n : Z) : Z :=
  match mask with
  | [] => n
  | v :: rest =>
      if v =? 255 then simpleMaskLength rest (n + 8)
      else
        let '(v', n') := count_ones 8 v n in
        if negb (v' =? 0) then -1
        else if forallb (Z.eqb 0) rest then n' else -1
  end.

Definition Mask_Size (m : list Z) : Z * Z :=
  let ones := simpleMaskLength m 0 in
  if ones =? -1 then (0, 0) else (ones, Z.of_nat (length m) * 8).

(** [dtoi]: decimal prefix of a string; the number, the count of bytes
    consumed, and whether at least one digit was read without overflow. *)
Definition big : Z := 16777215.

Fixpoint dtoi_loop (s : string) (n i : Z) : Z * Z * bool :=
  match s with
  | EmptyString => (n, i, negb (i =? 0))
  | String c rest =>
      match digit_of c with
      | Some d =>
          let n' := n * 10 + d in
          if big <=? n' then (big, i, false)
          else dtoi_loop rest n' (i + 1)
      | None => if i =? 0 then (0, 0, false) else (n, i, true)
      end
  end.

Definition dtoi (s : string) : Z * Z * bool := dtoi_loop s 0 0.

Fixpoint split_slash (s : string) : option (string * string) :=
  match s with
  | EmptyString => None
  | String c rest =>
      if Ascii.eqb c "/" then Some (EmptyString, rest)
      else match split_slash rest with
           | Some (a, m) => Some (String c a, m)
           | None => None
           end
  end.

(** [net.ParseCIDR] for textual IPv4 networks ("a.b.c.d/n").  IPv6 text
    is outside the model: the pool answers it with "IPv6 not supported"
    (or, for IPv4-mapped text, builds a pool over 16-byte addresses), and
    none of the properties below is about such input. *)
Definition ParseCIDR (s : string) : option IPNet :=
  match split_slash s with
  | None => None
  | Some (addr, mask) =>
      match ParseAddr_scan (fun _ => None) addr addr with
      | None => None
      | Some ip =>
          let '(n, i, ok) := dtoi mask in
          if negb ok || negb (i =? Z.of_nat (String.length mask))
             || (n <? 0) || (32 <? n) then None
          else match CIDRMask n 32 with
               | Some m => Some (mkIPNet (IP_Mask ip m) m)
               | None => None
               end
      end
  end.

End GoNet.

(** ** internal/network: the IP pool *)

Module IPPool.
Import GoNet.

Inductive error : Type :=
| ErrInvalidCIDR                      (* "invalid CIDR: ..." *)
| ErrIPv6                             (* "IPv6 not supported" *)
| ErrTooSmall                         (* "network too small, need at least /29" *)
| ErrExhausted                        (* "no available IP addresses in pool" *)
| ErrInvalidIP (ip : string)          (* "invalid IP address: ..." *)
| ErrNotInRange (ip : string)         (* "IP address not in network range: ..." *)
| ErrNetworkAddress (ip : string)     (* "cannot allocate network address: ..." *)
| ErrBroadcastAddress (ip : string)   (* "cannot allocate broadcast address: ..." *)
| ErrServerReserved (ip : string)     (* "IP address reserved for server: ..." *)
| ErrAlreadyAllocated (ip : string)   (* "IP address already allocated: ..." *)
| ErrNotAllocated (ip : string)       (* "IP address not allocated: ..." *)
| ErrReleaseServer (ip : string).     (* "cannot release server IP: ..." *)

Record IPPool : Type := mkPool {
  network : string;
  ipNet : IPNet;
  serverIP : string;
  allocated : gmap string bool;
  networkAddress : string;
  broadcastAddress : string;
  totalHosts : Z
}.

Definition set_allocated (p : IPPool) (m : gmap string bool) : IPPool :=
  mkPool (network p) (ipNet p) (serverIP p) m
         (networkAddress p) (broadcastAddress p) (totalHosts p).

(** Go's [int], 64 bits wide: a sum that leaves its range wraps
    around. *)
Definition wrap_int (x : Z) : Z := (x + 2 ^ 63) mod 2 ^ 64 - 2 ^ 63.

(** [incrementIP]: the bytes are visited from the last one, carrying
    [inc] upwards while it is positive; [val] is an [int]. *)
Fixpoint incrementIP_rev (bytes_rev : list Z) (inc : Z) : list Z :=
  match bytes_rev with
  | [] => []
  | b :: rest =>
      if 0 <? inc then
        let val := wrap_int (b + inc) in
        Z.land val 255 :: incrementIP_rev rest (Z.shiftr val 8)
      else b :: rest
  end.

Definition incrementIP (ip : IP) (inc : Z) : IP :=
  rev (incrementIP_rev (rev ip) inc).

Definition NewIPPool (cidr : string) : result error IPPool :=
  match ParseCIDR cidr with
  | None => Err ErrInvalidCIDR
  | Some ipnet =>
      match To4 (net_IP ipnet) with
      | None => Err ErrIPv6
      | Some _ =>
          let '(ones, bits) := Mask_Size (net_Mask ipnet) in
          if bits - ones <? 3 then Err ErrTooSmall
          else
            let totalHosts := Z.shiftl 1 (bits - ones) - 2 in
            let networkAddr := IP_Mask (net_IP ipnet) (net_Mask ipnet) in
            let broadcastAddr :=
              zip_with (fun b m => Z.lor b (Z.lxor m 255))
                       networkAddr (net_Mask ipnet) in
            let serverIP := incrementIP networkAddr 1 in
            Ok (mkPool cidr ipnet (IP_String serverIP)
                       {[ IP_String serverIP := true ]}
                       (IP_String networkAddr) (IP_String broadcastAddr)
                       totalHosts)
      end
  end.

(** Value of a byte slice read as a big-endian number. *)
Definition toZ (ip : IP) : Z := fold_left (fun acc b => acc * 256 + b) ip 0.

Section Ops.
Variable parseIPv6 : string -> option IP.

(** The loop of [AllocateIP].  Every turn that does not return adds one
    to [currentIP], so the loop meets [broadcastIP] after
    [(broadcastIP - currentIP) mod 2^32] turns when both are 4-byte
    addresses, and otherwise comes back to its starting point after
    2^32 turns; [fuel] counts the turns still allowed. *)
Fixpoint AllocateIP_loop (fuel : nat) (alloc : gmap string bool)
    (currentIP : IP) (broadcastIP : option IP)
    : result error (string * gmap string bool) :=
  match fuel with
  | O => Diverges
  | S fuel' =>
      if IP_Equal currentIP broadcastIP then Err ErrExhausted
      else
        let ipStr := IP_String currentIP in
        if negb (lookupB alloc ipStr)
        then Ok (ipStr, <[ ipStr := true ]> alloc)
        else AllocateIP_loop fuel' alloc (incrementIP currentIP 1) broadcastIP
  end.

Definition loop_bound (currentIP : IP) (broadcastIP : option IP) : nat :=
  match broadcastIP with
  | Some b =>
      if ((length b =? 4) && (length currentIP =? 4))%nat
      then S (Z.to_nat ((toZ b - toZ currentIP) mod 2 ^ 32))
      else Z.to_nat (2 ^ 32)
  | None => Z.to_nat (2 ^ 32)
  end.

Definition AllocateIP (p : IPPool) : result error (string * IPPool) :=
  let currentIP :=
    incrementIP (IP_Mask (net_IP (ipNet p)) (net_Mask (ipNet p))) 2 in
  let broadcastIP := ParseIP parseIPv6 (broadcastAddress p) in
  match AllocateIP_loop (loop_bound currentIP broadcastIP)
                        (allocated p) currentIP broadcastIP with
  | Ok (ipStr, m) => Ok (ipStr, set_allocated p m)
  | Err e => Err e
  | Diverges => Diverges
  end.

Definition AllocateSpecificIP (p : IPPool) (ip : string)
    : result error IPPool :=
  match ParseIP parseIPv6 ip with
  | None => Err (ErrInvalidIP ip)
  | Some parsedIP =>
      if negb (Contains (ipNet p) parsedIP) then Err (ErrNotInRange ip)
      else if String.eqb ip (networkAddress p) then Err (ErrNetworkAddress ip)
      else if String.eqb ip (broadcastAddress p) then Err (ErrBroadcastAddress ip)
      else if String.eqb ip (serverIP p) then Err (ErrServerReserved ip)
      else if lookupB (allocated p) ip then Err (ErrAlreadyAllocated ip)
      else Ok (set_allocated p (<[ ip := true ]> (allocated p)))
  end.

Definition ReleaseIP (p : IPPool) (ip : string) : result error IPPool :=
  match ParseIP parseIPv6 ip with
  | None => Err (ErrInvalidIP ip)
  | Some parsedIP =>
      if negb (Contains (ipNet p) parsedIP) then Err (ErrNotInRange ip)
      else if negb (lookupB (allocated p) ip) then Err (ErrNotAllocated ip)
      else if String.eqb ip (serverIP p) then Err (ErrReleaseServer ip)
      else Ok (set_allocated p (delete ip (allocated p)))
  end.
End Ops.

(** The calls that change a pool, and the pool a call leaves behind: a
    call that returns an error returns before touching the map. *)
Inductive call : Type :=
| CallAllocateIP
| CallAllocateSpecificIP (ip : string)
| CallReleaseIP (ip : string).

Definition after (parseIPv6 : string -> option IP) (p : IPPool) (c : call)
    : IPPool :=
  match c with
  | CallAllocateIP =>
      match AllocateIP parseIPv6 p with Ok (_, p') => p' | _ => p end
  | CallAllocateSpecificIP ip =>
      match AllocateSpecificIP parseIPv6 p ip with Ok p' => p' | _ => p end
  | CallReleaseIP ip =>
      match ReleaseIP parseIPv6 p ip with Ok p' => p' | _ => p end
  end.

(** A pool is reachable when [NewIPPool] built it and some sequence of
    calls brought it to its present state. *)
Definition reachable (parseIPv6 : string -> option IP) (p : IPPool) : Prop :=
  exists cidr p0 calls,
    NewIPPool cidr = Ok p0 /\ p = fold_left (after parseIPv6) calls p0.

(** [n] calls of [AllocateIP] in a row, all successful: the addresses
    handed out, in order, and the pool afterwards. *)
Fixpoint allocate_n (parseIPv6 : string -> option IP) (n : nat) (p : IPPool)
    : option (list string * IPPool) :=
  match n with
  | O => Some ([], p)
  | S n' =>
      match AllocateIP parseIPv6 p with
      | Ok (s, p1) =>
          match allocate_n parseIPv6 n' p1 with
          | Some (l, p2) => Some (s :: l, p2)
          | None => None
          end
      | _ => None
      end
  end.

(** [ReleaseIP] of every address of a list, all successful. *)
Fixpoint release_all (parseIPv6 : string -> option IP) (l : list string)
    (p : IPPool) : option IPPool :=
  match l with
  | [] => Some p
  | s :: l' =>
      match ReleaseIP parseIPv6 p s with
      | Ok p1 => release_all parseIPv6 l' p1
      | _ => None
      end
  end.

Definition IsAllocated (p : IPPool) (ip : string) : bool :=
  lookupB (allocated p) ip.

Definition GetServerIP (p : IPPool) : string := serverIP p.

Definition GetAvailableCount (p : IPPool) : Z :=
  let allocatedCount := Z.of_nat (size (allocated p)) - 1 in
  totalHosts p - 1 - allocatedCount.

Definition GetTotalIPs (p : IPPool) : Z := totalHosts p.

Definition GetAllocatedCount (p : IPPool) : Z := Z.of_nat (size (allocated p)).

End IPPool.

(** ** internal/monitoring: the alert manager *)

Module Monitoring.

(** [float64] values are only compared with [>] and printed with "%.1f"
    by the alert manager, so the type and these operations are left
    abstract; [fmtDuration] is [time.Duration.String]. *)
Class FloatOps : Type := {
  Float : Type;
  fgt : Float -> Float -> bool;
  f90 : Float;
  f95 : Float;
  fmt1 : Float -> string;
  fmtDuration : Z -> string;
  itoa : Z -> string
}.

Inductive AlertType : Type :=
| AlertTypeSystem | AlertTypeNetwork | AlertTypeSecurity
| AlertTypeConnection | AlertTypePerformance | AlertTypeApplication.

Inductive Severity : Type :=
| SeverityLow | SeverityMedium | SeverityHigh | SeverityCritical.

Inductive AlertStatus : Type :=
| AlertStatusActive | AlertStatusResolved | AlertStatusSuppressed.

#[global] Instance AlertStatus_eq_dec : EqDecision AlertStatus.
Proof. solve_decision. Defined.

Definition hour : Z := 3600 * 1000000000.

Section Manager.
Context {FO : FloatOps}.

(** A value stored under a metadata key ([interface{}] in the source). *)
Inductive MetaValue : Type :=
| MFloat (f : Float)
| MInt (n : Z)
| MBool (b : bool)
| MTime (t : Z)
| MDuration (d : Z).

(** A Go map that may be [nil]. *)
Definition metadata : Type := option (gmap string MetaValue).

Record Alert : Type := mkAlert {
  ID : string;
  Type_ : AlertType;
  Severity_ : Severity;
  Title : string;
  Description : string;
  CreatedAt : Z;
  UpdatedAt : Z;
  ResolvedAt : option Z;
  Status : AlertStatus;
  Metadata : metadata;
  Count : Z
}.

Record AlertConfig : Type := mkAlertConfig {
  CPUThreshold : Float;
  MemoryThreshold : Float;
  DiskThreshold : Float;
  ConnectionThreshold : Z;
  ResponseTimeThreshold : Z;
  ErrorRateThreshold : Float;
  EnableAlerts : bool;
  AlertCooldown : Z;
  NotificationChannels : list string
}.

Record AlertManager : Type := mkAlertManager {
  alerts : gmap string Alert;
  config : AlertConfig;
  lastEvalTime : Z
}.

(** The fields of [ServerMetrics] that the alert manager reads. *)
Record SystemStats : Type := mkSystemStats {
  CPUUsage : Float; MemoryUsage : Float; DiskUsage : Float }.
Record NetworkStats : Type := mkNetworkStats { IPPoolUtilization : Float }.
Record SecurityStats : Type := mkSecurityStats {
  FirewallEnabled : bool; FailedLogins : Z }.
Record ConnectionStats : Type := mkConnectionStats { ActiveClients : Z }.
Record PerformanceMetrics : Type := mkPerformanceMetrics {
  ResponseTime : Z; ErrorRate : Float }.
Record ServerMetrics : Type := mkServerMetrics {
  SystemStats_ : SystemStats;
  NetworkStats_ : NetworkStats;
  SecurityStats_ : SecurityStats;
  ConnectionStats_ : ConnectionStats;
  Performance : PerformanceMetrics
}.

Inductive AlertError : Type :=
| ErrAlertNotFound (id : string)
| ErrAlertAlreadyResolved (id : string).

Definition set_alerts (am : AlertManager) (m : gmap string Alert) : AlertManager :=
  mkAlertManager m (config am) (lastEvalTime am).

(** [for k, v := range metadata { alert.Metadata[k] = v }], after a [nil]
    target has been replaced by an empty map. *)
Definition merge_metadata (old new : metadata) : metadata :=
  Some (default ∅ new ∪ default ∅ old).

Definition createOrUpdateAlert (m : gmap string Alert) (id : string)
    (alertType : AlertType) (severity : Severity) (title description : string)
    (now : Z) (md : metadata) : gmap string Alert :=
  match m !! id with
  | Some alert =>
      <[ id := mkAlert (ID alert) (Type_ alert) (Severity_ alert) (Title alert)
                 (Description alert) (CreatedAt alert) now (ResolvedAt alert)
                 (Status alert) (merge_metadata (Metadata alert) md)
                 (Count alert + 1) ]> m
  | None =>
      <[ id := mkAlert id alertType severity title description now now None
                 AlertStatusActive md 1 ]> m
  end.

Definition resolveAlert (m : gmap string Alert) (id : string) (now : Z)
    : gmap string Alert :=
  match m !! id with
  | Some alert =>
      if bool_decide (Status alert = AlertStatusActive)
      then <[ id := mkAlert (ID alert) (Type_ alert) (Severity_ alert)
                      (Title alert) (Description alert) (CreatedAt alert) now
                      (Some now) AlertStatusResolved (Metadata alert)
                      (Count alert) ]> m
      else m
  | None => m
  end.

Definition evaluateSystemAlerts (cfg : AlertConfig) (m : gmap string Alert)
    (stats : SystemStats) (now : Z) : gmap string Alert :=
  let m :=
    if fgt (CPUUsage stats) (CPUThreshold cfg) then
      createOrUpdateAlert m "system_cpu_high" AlertTypeSystem SeverityHigh
        "High CPU Usage"
        ("CPU usage is " +:+ fmt1 (CPUUsage stats)
           +:+ "%, exceeding threshold of " +:+ fmt1 (CPUThreshold cfg) +:+ "%")
        now
        (Some (<[ "cpu_usage" := MFloat (CPUUsage stats) ]>
                 (<[ "threshold" := MFloat (CPUThreshold cfg) ]> ∅)))
    else resolveAlert m "system_cpu_high" now in
  let m :=
    if fgt (MemoryUsage stats) (MemoryThreshold cfg) then
      createOrUpdateAlert m "system_memory_high" AlertTypeSystem SeverityHigh
        "High Memory Usage"
        ("Memory usage is " +:+ fmt1 (MemoryUsage stats)
           +:+ "%, exceeding threshold of " +:+ fmt1 (MemoryThreshold cfg) +:+ "%")
        now
        (Some (<[ "memory_usage" := MFloat (MemoryUsage stats) ]>
                 (<[ "threshold" := MFloat (MemoryThreshold cfg) ]> ∅)))
    else resolveAlert m "system_memory_high" now in
  if fgt (DiskUsage stats) (DiskThreshold cfg) then
    createOrUpdateAlert m "system_disk_high" AlertTypeSystem SeverityCritical
      "High Disk Usage"
      ("Disk usage is " +:+ fmt1 (DiskUsage stats)
         +:+ "%, exceeding threshold of " +:+ fmt1 (DiskThreshold cfg) +:+ "%")
      now
      (Some (<[ "disk_usage" := MFloat (DiskUsage stats) ]>
               (<[ "threshold" := MFloat (DiskThreshold cfg) ]> ∅)))
  else resolveAlert m "system_disk_high" now.

Definition evaluateNetworkAlerts (m : gmap string Alert)
    (stats : NetworkStats) (now : Z) : gmap string Alert :=
  if fgt (IPPoolUtilization stats) f90 then
    let severity :=
      if fgt (IPPoolUtilization stats) f95 then SeverityHigh else SeverityMedium in
    createOrUpdateAlert m "network_ip_pool_high" AlertTypeNetwork severity
      "High IP Pool Utilization"
      ("IP pool utilization is " +:+ fmt1 (IPPoolUtilization stats)
         +:+ "%, nearing capacity")
      now
      (Some (<[ "utilization" := MFloat (IPPoolUtilization stats) ]> ∅))
  else resolveAlert m "network_ip_pool_high" now.

Definition evaluateSecurityAlerts (m : gmap string Alert)
    (stats : SecurityStats) (now : Z) : gmap string Alert :=
  let m :=
    if negb (FirewallEnabled stats) then
      createOrUpdateAlert m "security_firewall_disabled" AlertTypeSecurity
        SeverityCritical "Firewall Disabled"
        "The pfctl firewall is disabled, leaving the server vulnerable"
        now
        (Some (<[ "firewall_enabled" := MBool (FirewallEnabled stats) ]> ∅))
    else resolveAlert m "security_firewall_disabled" now in
  if 10 <? FailedLogins stats then
    createOrUpdateAlert m "security_failed_logins" AlertTypeSecurity
      SeverityMedium "High Failed Login Attempts"
      ("Detected " +:+ itoa (FailedLogins stats) +:+ " failed login attempts")
      now
      (Some (<[ "failed_logins" := MInt (FailedLogins stats) ]> ∅))
  else resolveAlert m "security_failed_logins" now.

Definition evaluateConnectionAlerts (cfg : AlertConfig) (m : gmap string Alert)
    (stats : ConnectionStats) (now : Z) : gmap string Alert :=
  if ConnectionThreshold cfg <? ActiveClients stats then
    createOrUpdateAlert m "connection_high_count" AlertTypeConnection
      SeverityMedium "High Active Connection Count"
      ("Active connections (" +:+ itoa (ActiveClients stats)
         +:+ ") exceed threshold (" +:+ itoa (ConnectionThreshold cfg) +:+ ")")
      now
      (Some (<[ "active_clients" := MInt (ActiveClients stats) ]>
               (<[ "threshold" := MInt (ConnectionThreshold cfg) ]> ∅)))
  else resolveAlert m "connection_high_count" now.

Definition evaluatePerformanceAlerts (cfg : AlertConfig) (m : gmap string Alert)
    (stats : PerformanceMetrics) (now : Z) : gmap string Alert :=
  let m :=
    if ResponseTimeThreshold cfg <? ResponseTime stats then
      createOrUpdateAlert m "performance_response_time" AlertTypePerformance
        SeverityMedium "High Response Time"
        ("Response time (" +:+ fmtDuration (ResponseTime stats)
           +:+ ") exceeds threshold ("
           +:+ fmtDuration (ResponseTimeThreshold cfg) +:+ ")")
        now
        (Some (<[ "response_time" := MDuration (ResponseTime stats) ]>
                 (<[ "threshold" := MDuration (ResponseTimeThreshold cfg) ]> ∅)))
    else resolveAlert m "performance_response_time" now in
  if fgt (ErrorRate stats) (ErrorRateThreshold cfg) then
    createOrUpdateAlert m "performance_error_rate" AlertTypePerformance
      SeverityHigh "High Error Rate"
      ("Error rate (" +:+ fmt1 (ErrorRate stats) +:+ "%) exceeds threshold ("
         +:+ fmt1 (ErrorRateThreshold cfg) +:+ "%)")
      now
      (Some (<[ "error_rate" := MFloat (ErrorRate stats) ]>
               (<[ "threshold" := MFloat (ErrorRateThreshold cfg) ]> ∅)))
  else resolveAlert m "performance_error_rate" now.

(** An alert the cleanup removes: resolved more than 24 hours before
    [now]. *)
Definition stale (now : Z) (alert : Alert) : bool :=
  bool_decide (Status alert = AlertStatusResolved)
  && match ResolvedAt alert with
     | Some r => 24 * hour <? now - r
     | None => false
     end.

Definition cleanupResolvedAlerts (m : gmap string Alert) (now : Z)
    : gmap string Alert :=
  filter (fun kv => stale now (snd kv) = false) m.

Definition EvaluateMetrics (am : AlertManager) (metrics : ServerMetrics)
    (now : Z) : AlertManager :=
  if negb (EnableAlerts (config am)) then am
  else
    let cfg := config am in
    let m := evaluateSystemAlerts cfg (alerts am) (SystemStats_ metrics) now in
    let m := evaluateNetworkAlerts m (NetworkStats_ metrics) now in
    let m := evaluateSecurityAlerts m (SecurityStats_ metrics) now in
    let m := evaluateConnectionAlerts cfg m (ConnectionStats_ metrics) now in
    let m := evaluatePerformanceAlerts cfg m (Performance metrics) now in
    mkAlertManager (cleanupResolvedAlerts m now) cfg now.

(** The maps are walked in no particular order in Go; the lists below
    follow the order of [map_to_list]. *)
Definition GetActiveAlerts (am : AlertManager) : list Alert :=
  filter (fun a => Status a = AlertStatusActive) (snd <$> map_to_list (alerts am)).

Definition GetAllAlerts (am : AlertManager) (since : Z) : list Alert :=
  filter (fun a => since < CreatedAt a) (snd <$> map_to_list (alerts am)).

Definition ResolveAlert (am : AlertManager) (alertID : string) (now : Z)
    : result AlertError AlertManager :=
  match alerts am !! alertID with
  | None => Err (ErrAlertNotFound alertID)
  | Some alert =>
      if bool_decide (Status alert = AlertStatusResolved)
      then Err (ErrAlertAlreadyResolved alertID)
      else Ok (set_alerts am
                 (<[ alertID := mkAlert (ID alert) (Type_ alert) (Severity_ alert)
                        (Title alert) (Description alert) (CreatedAt alert) now
                        (Some now) AlertStatusResolved (Metadata alert)
                        (Count alert) ]> (alerts am)))
  end.

(** [SuppressAlert] reads the clock twice: [now1] goes to [UpdatedAt],
    [now2] is the start of the suppression window. *)
Definition SuppressAlert (am : AlertManager) (alertID : string)
    (duration now1 now2 : Z) : result AlertError AlertManager :=
  match alerts am !! alertID with
  | None => Err (ErrAlertNotFound alertID)
  | Some alert =>
      Ok (set_alerts am
            (<[ alertID := mkAlert (ID alert) (Type_ alert) (Severity_ alert)
                   (Title alert) (Description alert) (CreatedAt alert) now1
                   (ResolvedAt alert) AlertStatusSuppressed
                   (Some (<[ "suppressed_until" := MTime (now2 + duration) ]>
                            (default ∅ (Metadata alert))))
                   (Count alert) ]> (alerts am)))
  end.

(** The nine checks of [EvaluateMetrics] in one table, for stating
    properties of "every rule": the identifier a check works on, whether
    its condition holds for the metrics at hand, and what it hands to
    [createOrUpdateAlert] when it does. *)
Record rule : Type := mkRule {
  r_id : string;
  r_fires : bool;
  r_type : AlertType;
  r_severity : Severity;
  r_title : string;
  r_description : string;
  r_metadata : metadata
}.

Definition apply_rule (now : Z) (m : gmap string Alert) (r : rule)
    : gmap string Alert :=
  if r_fires r
  then createOrUpdateAlert m (r_id r) (r_type r) (r_severity r) (r_title r)
         (r_description r) now (r_metadata r)
  else resolveAlert m (r_id r) now.

Definition builtin_rules (cfg : AlertConfig) (metrics : ServerMetrics)
    : list rule :=
  let sys := SystemStats_ metrics in
  let net := NetworkStats_ metrics in
  let sec := SecurityStats_ metrics in
  let conn := ConnectionStats_ metrics in
  let perf := Performance metrics in
  [ mkRule "system_cpu_high" (fgt (CPUUsage sys) (CPUThreshold cfg))
      AlertTypeSystem SeverityHigh "High CPU Usage"
      ("CPU usage is " +:+ fmt1 (CPUUsage sys)
         +:+ "%, exceeding threshold of " +:+ fmt1 (CPUThreshold cfg) +:+ "%")
      (Some (<[ "cpu_usage" := MFloat (CPUUsage sys) ]>
               (<[ "threshold" := MFloat (CPUThreshold cfg) ]> ∅)));
    mkRule "system_memory_high" (fgt (MemoryUsage sys) (MemoryThreshold cfg))
      AlertTypeSystem SeverityHigh "High Memory Usage"
      ("Memory usage is " +:+ fmt1 (MemoryUsage sys)
         +:+ "%, exceeding threshold of " +:+ fmt1 (MemoryThreshold cfg) +:+ "%")
      (Some (<[ "memory_usage" := MFloat (MemoryUsage sys) ]>
               (<[ "threshold" := MFloat (MemoryThreshold cfg) ]> ∅)));
    mkRule "system_disk_high" (fgt (DiskUsage sys) (DiskThreshold cfg))
      AlertTypeSystem SeverityCritical "High Disk Usage"
      ("Disk usage is " +:+ fmt1 (DiskUsage sys)
         +:+ "%, exceeding threshold of " +:+ fmt1 (DiskThreshold cfg) +:+ "%")
      (Some (<[ "disk_usage" := MFloat (DiskUsage sys) ]>
               (<[ "threshold" := MFloat (DiskThreshold cfg) ]> ∅)));
    mkRule "network_ip_pool_high" (fgt (IPPoolUtilization net) f90)
      AlertTypeNetwork
      (if fgt (IPPoolUtilization net) f95 then SeverityHigh else SeverityMedium)
      "High IP Pool Utilization"
      ("IP pool utilization is " +:+ fmt1 (IPPoolUtilization net)
         +:+ "%, nearing capacity")
      (Some (<[ "utilization" := MFloat (IPPoolUtilization net) ]> ∅));
    mkRule "security_firewall_disabled" (negb (FirewallEnabled sec))
      AlertTypeSecurity SeverityCritical "Firewall Disabled"
      "The pfctl firewall is disabled, leaving the server vulnerable"
      (Some (<[ "firewall_enabled" := MBool (FirewallEnabled sec) ]> ∅));
    mkRule "security_failed_logins" (10 <? FailedLogins sec)
      AlertTypeSecurity SeverityMedium "High Failed Login Attempts"
      ("Detected " +:+ itoa (FailedLogins sec) +:+ " failed login attempts")
      (Some (<[ "failed_logins" := MInt (FailedLogins sec) ]> ∅));
    mkRule "connection_high_count"
      (ConnectionThreshold cfg <? ActiveClients conn)
      AlertTypeConnection SeverityMedium "High Active Connection Count"
      ("Active connections (" +:+ itoa (ActiveClients conn)
         +:+ ") exceed threshold (" +:+ itoa (ConnectionThreshold cfg) +:+ ")")
      (Some (<[ "active_clients" := MInt (ActiveClients conn) ]>
               (<[ "threshold" := MInt (ConnectionThreshold cfg) ]> ∅)));
    mkRule "performance_response_time"
      (ResponseTimeThreshold cfg <? ResponseTime perf)
      AlertTypePerformance SeverityMedium "High Response Time"
      ("Response time (" +:+ fmtDuration (ResponseTime perf)
         +:+ ") exceeds threshold ("
         +:+ fmtDuration (ResponseTimeThreshold cfg) +:+ ")")
      (Some (<[ "response_time" := MDuration (ResponseTime perf) ]>
               (<[ "threshold" := MDuration (ResponseTimeThreshold cfg) ]> ∅)));
    mkRule "performance_error_rate"
      (fgt (ErrorRate perf) (ErrorRateThreshold cfg))
      AlertTypePerformance SeverityHigh "High Error Rate"
      ("Error rate (" +:+ fmt1 (ErrorRate perf) +:+ "%) exceeds threshold ("
         +:+ fmt1 (ErrorRateThreshold cfg) +:+ "%)")
      (Some (<[ "error_rate" := MFloat (ErrorRate perf) ]>
               (<[ "threshold" := MFloat (ErrorRateThreshold cfg) ]> ∅))) ].

(** What a firing rule leaves under its identifier: a fresh alert, or
    the touched-up old one. *)
Definition created (r : rule) (now : Z) : Alert :=
  mkAlert (r_id r) (r_type r) (r_severity r) (r_title r) (r_description r)
          now now None AlertStatusActive (r_metadata r) 1.

Definition updated (r : rule) (now : Z) (a : Alert) : Alert :=
  mkAlert (ID a) (Type_ a) (Severity_ a) (Title a) (Description a)
          (CreatedAt a) now (ResolvedAt a) (Status a)
          (merge_metadata (Metadata a) (r_metadata r)) (Count a + 1).

Definition resolved (now : Z) (a : Alert) : Alert :=
  mkAlert (ID a) (Type_ a) (Severity_ a) (Title a) (Description a)
          (CreatedAt a) now (Some now) AlertStatusResolved (Metadata a)
          (Count a).

(** A run of evaluations, each with its metrics and clock reading. *)
Definition evaluations (am : AlertManager) (evals : list (ServerMetrics * Z))
    : AlertManager :=
  fold_left (fun a e => EvaluateMetrics a (fst e) (snd e)) evals am.

End Manager.

(** Integer-valued metrics, for concrete runs. *)
#[global] Instance ZFloat : FloatOps := {|
  Float := Z;
  fgt := Z.gtb;
  f90 := 90;
  f95 := 95;
  fmt1 := fun _ => "";
  fmtDuration := fun _ => "";
  itoa := fun _ => ""
|}.

Definition demo_config (enabled : bool) : AlertConfig :=
  mkAlertConfig 80 85 90 1000 (5 * 1000000000) 5 enabled (300 * 1000000000) ["log"].

Definition demo_metrics (cpu : Z) : ServerMetrics :=
  mkServerMetrics (mkSystemStats cpu 0 0) (mkNetworkStats 0)
                  (mkSecurityStats true 0) (mkConnectionStats 0)
                  (mkPerformanceMetrics 0 0).

(** The CPU rule as it stands for [demo_config] and a CPU reading of 90. *)
Definition demo_rule : rule :=
  mkRule "system_cpu_high" true AlertTypeSystem SeverityHigh "High CPU Usage"
    "CPU usage is %, exceeding threshold of %"
    (Some (<[ "cpu_usage" := MFloat 90 ]> (<[ "threshold" := MFloat 80 ]> ∅))).

Definition demo_manager (enabled : bool) : AlertManager :=
  mkAlertManager ∅ (demo_config enabled) 0.

(** An enabled manager after one evaluation with the CPU at 90. *)
Definition demo_cpu_alert : AlertManager :=
  EvaluateMetrics (demo_manager true) (demo_metrics 90) 5.

(** ... after suppressing the CPU alert for one hour at time 10. *)
Definition demo_suppressed : AlertManager :=
  match SuppressAlert demo_cpu_alert "system_cpu_high" hour 10 10 with
  | Ok am => am
  | _ => demo_cpu_alert
  end.

End Monitoring.

(** ** internal/auth: signed tokens *)

Module Auth.

Definition second : Z := 1000000000.

(** [jwt.NewNumericDate]: the library keeps whole seconds
    ([TimePrecision] is one second) and [Time.Truncate] rounds down. *)
Definition NewNumericDate (t : Z) : Z := t - t mod second.

(** The registered claims that [GenerateToken] fills in. *)
Record RegisteredClaims : Type := mkRegisteredClaims {
  Issuer : string;
  Subject : string;
  ExpiresAt : option Z;
  NotBefore : option Z;
  IssuedAt : option Z
}.

Record Claims : Type := mkClaims {
  UserID : Z;
  Username : string;
  Registered : RegisteredClaims
}.

Record AuthManager : Type := mkAuthManager {
  jwtSecret : string;
  tokenExpiry : Z
}.

Definition NewAuthManager (secret : string) : AuthManager :=
  mkAuthManager secret (24 * 3600 * second).

Definition NewAuthManagerWithConfig (secret : string) (expiry : Z) : AuthManager :=
  mkAuthManager secret expiry.

Inductive SigningMethod : Type :=
| HS256 | HS384 | HS512      (* the HMAC family *)
| OtherMethod (name : string).

(** *** Strings in the JSON text of a token

    The library writes the claims with [json.Marshal] and reads them
    with [json.Unmarshal].  Both go through a string one UTF-8 encoding
    at a time, by [utf8.DecodeRuneInString]. *)

Definition byte_val (c : ascii) : Z := Z.of_N (N_of_ascii c).

(** The table [first] of unicode/utf8, by the first byte of an encoding:
    240 for an ASCII byte, 241 for a byte that begins no encoding;
    otherwise the low three bits are the width of the encoding and the
    high four bits select the range of its second byte. *)
Definition utf8_first (b : Z) : Z :=
  if b <? 128 then 240             (* 00-7F: as *)
  else if b <? 194 then 241        (* 80-C1: xx *)
  else if b <? 224 then 2          (* C2-DF: s1 *)
  else if b =? 224 then 19         (* E0: s2 *)
  else if b <? 237 then 3          (* E1-EC: s3 *)
  else if b =? 237 then 35         (* ED: s4 *)
  else if b <? 240 then 3          (* EE-EF: s3 *)
  else if b =? 240 then 52         (* F0: s5 *)
  else if b <? 244 then 4          (* F1-F3: s6 *)
  else if b =? 244 then 68         (* F4: s7 *)
  else 241.                        (* F5-FF: xx *)

(** The table [acceptRanges]. *)
Definition utf8_accept (i : Z) : Z * Z :=
  if i =? 1 then (160, 191)
  else if i =? 2 then (128, 159)
  else if i =? 3 then (144, 191)
  else if i =? 4 then (128, 143)
  else (128, 191).

Definition in_range (lo hi : Z) (c : ascii) : bool :=
  (lo <=? byte_val c) && (byte_val c <=? hi).

(** [utf8.DecodeRuneInString], as far as the JSON code looks at its
    result: the width of the encoding at the head of [s], and 0 where the
    function answers the error rune with width 1, that is, where the
    first byte begins no valid encoding (also when the string ends too
    early). *)
Definition rune_width (s : string) : nat :=
  match s with
  | EmptyString => 0
  | String s0 rest =>
      let x := utf8_first (byte_val s0) in
      if 240 <=? x then (if x =? 240 then 1 else 0)
      else
        let sz := Z.land x 7 in
        let '(lo, hi) := utf8_accept (Z.shiftr x 4) in
        match rest with
        | EmptyString => 0
        | String s1 rest1 =>
            if negb (in_range lo hi s1) then 0
            else if sz <=? 2 then 2
            else
              match rest1 with
              | EmptyString => 0
              | String s2 rest2 =>
                  if negb (in_range 128 191 s2) then 0
                  else if sz <=? 3 then 3
                  else
                    match rest2 with
                    | EmptyString => 0
                    | String s3 _ =>
                        if negb (in_range 128 191 s3) then 0 else 4
                    end
              end
        end
  end.

(** A byte of a string in the JSON text: written so that it reads back
    as itself (as it stands or as an escape of its own), or the escape
    "\ufffd" that [json.Marshal] writes for a byte that begins no valid
    encoding. *)
Inductive jbyte : Type :=
| Lit (c : ascii)
| Ufffd.

(** [json.Marshal] of a string; [skip] counts the bytes of the current
    encoding still to be copied. *)
Fixpoint marshal_from (skip : nat) (s : string) : list jbyte :=
  match s with
  | EmptyString => []
  | String c rest =>
      match skip with
      | S k => Lit c :: marshal_from k rest
      | O =>
          match rune_width s with
          | O => Ufffd :: marshal_from 0 rest
          | S k => Lit c :: marshal_from k rest
          end
      end
  end.

Definition marshal_string (s : string) : list jbyte := marshal_from 0 s.

(** U+FFFD in UTF-8. *)
Definition replacement : string :=
  String "239" (String "191" (String "189" EmptyString)).

(** The bytes a JSON string stands for, escapes resolved. *)
Fixpoint text_of (j : list jbyte) : string :=
  match j with
  | [] => EmptyString
  | Lit c :: j' => String c (text_of j')
  | Ufffd :: j' => replacement +:+ text_of j'
  end.

(** [json.Unmarshal] of a string: it too puts U+FFFD for every byte
    that begins no valid encoding. *)
Fixpoint coerce_from (skip : nat) (s : string) : string :=
  match s with
  | EmptyString => EmptyString
  | String c rest =>
      match skip with
      | S k => String c (coerce_from k rest)
      | O =>
          match rune_width s with
          | O => replacement +:+ coerce_from 0 rest
          | S k => String c (coerce_from k rest)
          end
      end
  end.

Definition unmarshal_string (j : list jbyte) : string := coerce_from 0 (text_of j).

(** A string after its way into a token and out again. *)
Definition json_string (s : string) : string :=
  unmarshal_string (marshal_string s).

(** The payload of a token: the JSON object of the claims, by its keys.
    Numbers are written in full; a date is written as its whole
    seconds. *)
Record Payload : Type := mkPayload {
  p_user_id : Z;
  p_username : list jbyte;
  p_iss : list jbyte;
  p_sub : list jbyte;
  p_exp : option Z;
  p_nbf : option Z;
  p_iat : option Z
}.

Definition json_Marshal (c : Claims) : Payload :=
  mkPayload (UserID c) (marshal_string (Username c))
    (marshal_string (Issuer (Registered c)))
    (marshal_string (Subject (Registered c)))
    (ExpiresAt (Registered c)) (NotBefore (Registered c))
    (IssuedAt (Registered c)).

Definition json_Unmarshal (p : Payload) : Claims :=
  mkClaims (p_user_id p) (unmarshal_string (p_username p))
    (mkRegisteredClaims (unmarshal_string (p_iss p)) (unmarshal_string (p_sub p))
       (p_exp p) (p_nbf p) (p_iat p)).

(** A token string, read as the three parts it encodes: the algorithm of
    its header, its payload, and its signature.  Base64 is a one-to-one
    coding and is not modelled. *)
Record Token : Type := mkToken {
  Method : SigningMethod;
  TokenPayload : Payload;
  Signature : string
}.

(** The claims a token carries. *)
Definition TokenClaims (tok : Token) : Claims := json_Unmarshal (TokenPayload tok).

Inductive jwtError : Type :=
| ErrTokenUnverifiable       (* the key function refused the method *)
| ErrTokenSignatureInvalid
| ErrTokenExpired
| ErrTokenNotValidYet.

Inductive error : Type :=
| ErrParseToken (causes : list jwtError)   (* "failed to parse token: ..." *)
| ErrInvalidClaims.                        (* "invalid token claims" *)

Section Tokens.
(** The signature a method computes with a key over the header and the
    payload (HMAC-SHA256 for HS256); left abstract. *)
Variable sign : SigningMethod -> string -> Payload -> string.

Definition itoa (n : Z) : string :=
  DecimalString.NilZero.string_of_int (Z.to_int n).

(** [GenerateToken] reads the clock three times. *)
Definition GenerateToken (am : AuthManager) (userID : Z) (username : string)
    (now1 now2 now3 : Z) : Token :=
  let claims :=
    mkClaims userID username
      (mkRegisteredClaims "vpn-server" ("user-" +:+ itoa userID)
         (Some (NewNumericDate (now1 + tokenExpiry am)))
         (Some (NewNumericDate now3))
         (Some (NewNumericDate now2))) in
  let payload := json_Marshal claims in
  mkToken HS256 payload (sign HS256 (jwtSecret am) payload).

(** The checks of the library's claims validator that apply here:
    expiry and not-before, each only when the claim is present. *)
Definition validate_claims (c : Claims) (now : Z) : list jwtError :=
  (match ExpiresAt (Registered c) with
   | Some exp => if now <? exp then [] else [ErrTokenExpired]
   | None => []
   end)
  ++
  (match NotBefore (Registered c) with
   | Some nbf => if now <? nbf then [ErrTokenNotValidYet] else []
   | None => []
   end).

Definition is_hmac (m : SigningMethod) : bool :=
  match m with HS256 | HS384 | HS512 => true | OtherMethod _ => false end.

(** [ValidateToken]: the key function accepts HMAC methods only, the
    signature is recomputed with the manager's secret over the payload,
    and the claims read from the payload are validated against the clock
    reading [now]. *)
Definition ValidateToken (am : AuthManager) (tok : Token) (now : Z)
    : result error Claims :=
  if negb (is_hmac (Method tok)) then Err (ErrParseToken [ErrTokenUnverifiable])
  else if negb (String.eqb (Signature tok)
                  (sign (Method tok) (jwtSecret am) (TokenPayload tok)))
  then Err (ErrParseToken [ErrTokenSignatureInvalid])
  else match validate_claims (TokenClaims tok) now with
       | [] => Ok (TokenClaims tok)
       | errs => Err (ErrParseToken errs)
       end.

(** [Claims.Valid], the method the source defines on its claims. *)
Definition Claims_Valid (c : Claims) (now : Z) : bool :=
  match ExpiresAt (Registered c) with
  | Some exp => negb (exp <? now)
  | None => true
  end.
End Tokens.

End Auth.

(** ** The pieces of Go's [strings], [strconv] and [bufio] that the
       WireGuard driver relies on *)

Module GoStrings.

Fixpoint HasPrefix (s pre : string) : bool :=
  match pre, s with
  | EmptyString, _ => true
  | String p pre', String c s' => Ascii.eqb c p && HasPrefix s' pre'
  | String _ _, EmptyString => false
  end.

Fixpoint Contains (s sub : string) : bool :=
  HasPrefix s sub
  || match s with
     | EmptyString => false
     | String _ s' => Contains s' sub
     end.

(** [strings.Split s sep] for a one-byte separator: always at least one
    piece. *)
Fixpoint Split (s : string) (sep : ascii) : list string :=
  match s with
  | EmptyString => [EmptyString]
  | String c rest =>
      if Ascii.eqb c sep then EmptyString :: Split rest sep
      else match Split rest sep with
           | piece :: pieces => String c piece :: pieces
           | [] => [String c EmptyString]
           end
  end.

(** [strings.SplitN s sep 2]: cut at the first separator, if any. *)
Fixpoint SplitN2 (s : string) (sep : ascii) : list string :=
  match s with
  | EmptyString => [EmptyString]
  | String c rest =>
      if Ascii.eqb c sep then [EmptyString; rest]
      else match SplitN2 rest sep with
           | [a; b] => [String c a; b]
           | _ => [s]
           end
  end.

Fixpoint Join (l : list string) (sep : string) : string :=
  match l with
  | [] => EmptyString
  | [a] => a
  | a :: rest => a +:+ sep +:+ Join rest sep
  end.

Fixpoint srev_app (s acc : string) : string :=
  match s with
  | EmptyString => acc
  | String c s' => srev_app s' (String c acc)
  end.

Definition srev (s : string) : string := srev_app s EmptyString.

Definition asciiSpace (c : ascii) : bool :=
  let n := N_of_ascii c in
  ((n =? 9) || (n =? 10) || (n =? 11) || (n =? 12) || (n =? 13) || (n =? 32))%N.

Definition is_ascii (c : ascii) : bool := (N_of_ascii c <? 128)%N.

(** The Unicode-aware trimming that [TrimSpace] falls back to when it
    meets a byte outside ASCII; not modelled, left as two functions. *)
Class UnicodeTrim : Type := {
  TrimFunc_IsSpace : string -> string;
  TrimRightFunc_IsSpace : string -> string
}.

Section Trim.
Context {UT : UnicodeTrim}.

(** Left scan of [TrimSpace]: [inl] is the suffix handed to the
    fallback, [inr] the string from its first ASCII non-space byte. *)
Fixpoint trim_left (s : string) : string + string :=
  match s with
  | EmptyString => inr EmptyString
  | String c rest =>
      if negb (is_ascii c) then inl s
      else if asciiSpace c then trim_left rest
      else inr s
  end.

(** Right scan, on the reversed string. *)
Fixpoint trim_right_rev (r : string) : string :=
  match r with
  | EmptyString => EmptyString
  | String c rest =>
      if negb (is_ascii c) then TrimRightFunc_IsSpace (srev r)
      else if asciiSpace c then trim_right_rev rest
      else srev r
  end.

Definition TrimSpace (s : string) : string :=
  match trim_left s with
  | inl suffix => TrimFunc_IsSpace suffix
  | inr t => trim_right_rev (srev t)
  end.
End Trim.

(** [strconv.Itoa] and [strconv.Atoi] for 64-bit [int]. *)
Fixpoint utoa_loop (fuel : nat) (n : Z) (acc : string) : string :=
  match fuel with
  | O => acc
  | S fuel' =>
      let acc' := String (GoNet.digit_char (n mod 10)) acc in
      if n <? 10 then acc' else utoa_loop fuel' (n / 10) acc'
  end.

Definition utoa (n : Z) : string :=
  utoa_loop (S (Z.to_nat (Z.log2 n))) n EmptyString.

Definition Itoa (n : Z) : string :=
  if n <? 0 then String "-" (utoa (- n)) else utoa n.

Fixpoint parse_digits (s : string) (acc : Z) : option Z :=
  match s with
  | EmptyString => Some acc
  | String c rest =>
      match GoNet.digit_of c with
      | Some d => parse_digits rest (acc * 10 + d)
      | None => None
      end
  end.

Definition Atoi (s : string) : option Z :=
  let '(neg, digits) :=
    match s with
    | String c rest =>
        if Ascii.eqb c "-" then (true, rest)
        else if Ascii.eqb c "+" then (false, rest)
        else (false, s)
    | EmptyString => (false, s)
    end in
  match digits with
  | EmptyString => None
  | _ =>
      match parse_digits digits 0 with
      | Some n =>
          let v := if neg then - n else n in
          if (- 2 ^ 63 <=? v) && (v <? 2 ^ 63) then Some v else None
      | None => None
      end
  end.

(** [bufio.Scanner] with [ScanLines] over a whole text: the lines it
    delivers and whether it stops with an error (a line of 65536 bytes or
    more does not fit its buffer) instead of the end of the text. *)
Definition dropCR (s : string) : string :=
  match srev s with
  | String c r => if Ascii.eqb c "013" then srev r else s
  | EmptyString => s
  end.

Definition too_long (s : string) : bool :=
  65536 <=? Z.of_nat (String.length s).

Fixpoint scan_pieces (pieces : list string) : list string * bool :=
  match pieces with
  | [] => ([], false)
  | [last] =>
      if too_long last then ([], true)
      else match last with
           | EmptyString => ([], false)
           | _ => ([dropCR last], false)
           end
  | p :: rest =>
      if too_long p then ([], true)
      else let '(ls, e) := scan_pieces rest in (dropCR p :: ls, e)
  end.

Definition scan_lines (s : string) : list string * bool :=
  scan_pieces (Split s "010").

End GoStrings.

(** ** internal/wireguard: the peer sections of the configuration file *)

Module WireGuard.
Import GoStrings.

Record Peer : Type := mkPeer {
  PublicKey : string;
  AllowedIPs : list string;
  Endpoint : string;
  PersistentKA : Z
}.

#[global] Instance Peer_eq_dec : EqDecision Peer.
Proof. solve_decision. Defined.

(** The configuration file as the driver finds it. *)
Inductive file : Type :=
| Missing
| Unreadable
| File (content : string).

Inductive error : Type :=
| ErrReadConfig      (* "failed to read config file: ..." *)
| ErrScanConfig      (* "error reading config file: ..." *)
| ErrWriteConfig     (* "failed to write updated config: ..." *)
| ErrReadConfiguration.  (* "failed to read configuration file: ..." *)

Definition nl : string := String "010" EmptyString.

(** The text [AddPeer] appends for a peer. *)
Definition peerConfig (peer : Peer) : string :=
  (nl +:+ "[Peer]" +:+ nl
     +:+ "PublicKey = " +:+ PublicKey peer +:+ nl
     +:+ "AllowedIPs = " +:+ Join (AllowedIPs peer) ", " +:+ nl)
  +:+ (if String.eqb (Endpoint peer) "" then ""
       else "Endpoint = " +:+ Endpoint peer +:+ nl)
  +:+ (if 0 <? PersistentKA peer
       then "PersistentKeepalive = " +:+ Itoa (PersistentKA peer) +:+ nl
       else "").

(** [AddPeer]; [write_ok] says whether the final [os.WriteFile]
    succeeds.  A call that fails leaves the file as it was. *)
Definition AddPeer (f : file) (peer : Peer) (write_ok : bool)
    : result error file :=
  match f with
  | File content =>
      let newContent := content +:+ peerConfig peer in
      if write_ok then Ok (File newContent) else Err ErrWriteConfig
  | _ => Err ErrReadConfig
  end.

Section Parsing.
Context {UT : UnicodeTrim}.

(** The inner loop of [RemovePeer], entered after a "[Peer]" line: it
    reads on until the line with the wanted key, or until a line that
    starts a section or is blank; in that case the scanner is replaced
    by a fresh one over that line alone.  Returns the lines read, the
    skip flag, and the lines and error state of the scanner in use
    afterwards. *)
Fixpoint read_section (publicKey : string) (rem : list string) (err : bool)
    (tempLines : list string) : list string * bool * list string * bool :=
  match rem with
  | [] => (tempLines, false, [], err)
  | nextLine :: rem' =>
      let tempLines' := tempLines ++ [nextLine] in
      if HasPrefix (TrimSpace nextLine) "PublicKey = "
         && Contains nextLine publicKey
      then (tempLines', true, rem', err)
      else if HasPrefix (TrimSpace nextLine) "["
              || String.eqb (TrimSpace nextLine) ""
      then let '(ls, e) := scan_lines (nextLine +:+ nl) in
           (tempLines', false, ls, e)
      else read_section publicKey rem' err tempLines'
  end.

(** The outer loop of [RemovePeer] over the lines the scanner still has
    to deliver; [None] when [fuel] runs out. *)
Fixpoint remove_loop (fuel : nat) (publicKey : string) (rem : list string)
    (err skipPeerSection : bool) (newLines : list string)
    : option (list string * bool) :=
  match fuel with
  | O => None
  | S fuel' =>
      match rem with
      | [] => Some (newLines, err)
      | line :: rem' =>
          if String.eqb (TrimSpace line) "[Peer]" then
            let '(tempLines, skip, rem'', err') :=
              read_section publicKey rem' err [line] in
            remove_loop fuel' publicKey rem'' err' skip
              (if skip then newLines else newLines ++ tempLines)
          else
            let newLines' :=
              if skipPeerSection then newLines else newLines ++ [line] in
            let skip' :=
              if skipPeerSection
                 && (HasPrefix (TrimSpace line) "["
                     || String.eqb (TrimSpace line) "")
              then false else skipPeerSection in
            remove_loop fuel' publicKey rem' err skip' newLines'
      end
  end.

(** [RemovePeer].  Every turn of the outer loop leaves the scanner with
    fewer lines than it had, so one turn per line and one more are
    enough. *)
Definition RemovePeer (f : file) (publicKey : string) (write_ok : bool)
    : result error file :=
  match f with
  | File content =>
      let '(lines, err) := scan_lines content in
      match remove_loop (S (length lines)) publicKey lines err false [] with
      | None => Diverges
      | Some (newLines, true) => Err ErrScanConfig
      | Some (newLines, false) =>
          if write_ok then Ok (File (Join newLines nl))
          else Err ErrWriteConfig
      end
  | _ => Err ErrReadConfig
  end.

(** The loop of [GetPeers] over the lines of the file; [cur] is
    [currentPeer]. *)
Definition emptyPeer : Peer := mkPeer "" [] "" 0.

Definition flush (peers : list Peer) (cur : option Peer) : list Peer :=
  match cur with
  | Some p => if String.eqb (PublicKey p) "" then peers else peers ++ [p]
  | None => peers
  end.

Definition set_property (p : Peer) (key value : string) : Peer :=
  if String.eqb key "PublicKey"
  then mkPeer value (AllowedIPs p) (Endpoint p) (PersistentKA p)
  else if String.eqb key "AllowedIPs"
  then mkPeer (PublicKey p) (map TrimSpace (Split value ","))
              (Endpoint p) (PersistentKA p)
  else if String.eqb key "Endpoint"
  then mkPeer (PublicKey p) (AllowedIPs p) value (PersistentKA p)
  else if String.eqb key "PersistentKeepalive"
  then match Atoi value with
       | Some keepalive =>
           mkPeer (PublicKey p) (AllowedIPs p) (Endpoint p) keepalive
       | None => p
       end
  else p.

Definition peers_step (st : list Peer * option Peer) (rawLine : string)
    : list Peer * option Peer :=
  let '(peers, cur) := st in
  let line := TrimSpace rawLine in
  if String.eqb line "" || HasPrefix line "#" then st
  else if String.eqb line "[Peer]" then (flush peers cur, Some emptyPeer)
  else
    match cur with
    | Some p =>
        if Contains line "=" then
          match SplitN2 line "=" with
          | [k; v] => (peers, Some (set_property p (TrimSpace k) (TrimSpace v)))
          | _ => st
          end
        else st
    | None => st
    end.

Definition parsePeers (content : string) : list Peer :=
  let '(peers, cur) :=
    fold_left peers_step (Split content "010") ([], None) in
  flush peers cur.

Definition GetPeers (f : file) : result error (list Peer) :=
  match f with
  | Missing => Ok []
  | Unreadable => Err ErrReadConfiguration
  | File content => Ok (parsePeers content)
  end.
End Parsing.

End WireGuard.

(** ** internal/api: the create-client handler *)

Module API.

Record KeyPair : Type := mkKeyPair {
  kp_PrivateKey : string;
  kp_PublicKey : string
}.

(** [database.Client], as far as the handler fills or reads it. *)
Record Client : Type := mkClient {
  ID : Z;
  Name : string;
  PublicKey : string;
  PrivateKey : string;
  IPAddress : string;
  Enabled : bool;
  CreatedAt : Z
}.

Record CreateClientResponse : Type := mkCreateClientResponse {
  resp_ID : Z;
  resp_Name : string;
  resp_PublicKey : string;
  resp_IPAddress : string;
  resp_Enabled : bool;
  resp_CreatedAt : Z
}.

Inductive body : Type :=
| ErrorResponse (message : string)
| Created (r : CreateClientResponse).

(** [c.JSON(status, body)]. *)
Record response : Type := JSON { status : Z; payload : body }.

Definition StatusCreated : Z := 201.
Definition StatusBadRequest : Z := 400.
Definition StatusInternalServerError : Z := 500.

(** The persistence layer is outside the handler: [db_CreateClient]
    either fails, leaving the store as it was, or stores the row and
    hands it back with the fields the store fills in. *)
Class Persistence : Type := {
  DB : Type;
  db_CreateClient : DB -> Client -> option (DB * Client)
}.

Section Handler.
Context {PS : Persistence}.
Variable parseIPv6 : string -> option GoNet.IP.

(** What the handler works on: the pool, the store, the WireGuard
    configuration file. *)
Record world : Type := mkWorld {
  w_pool : IPPool.IPPool;
  w_db : DB;
  w_file : WireGuard.file
}.

(** [CreateClient].  [bind] is the outcome of [ShouldBindJSON] (the
    error text or the name of the request), [keys] the outcome of
    [GenerateKeyPair], [write_ok] whether [AddPeer] manages to write the
    file.  [None] stands for a call that does not return. *)
Definition CreateClient (bind : string + string) (keys : option KeyPair)
    (write_ok : bool) (w : world) : option (response * world) :=
  match bind with
  | inl err => Some (JSON StatusBadRequest (ErrorResponse err), w)
  | inr name =>
      match keys with
      | None =>
          Some (JSON StatusInternalServerError
                  (ErrorResponse "Failed to generate client keys"), w)
      | Some keyPair =>
          match IPPool.AllocateIP parseIPv6 (w_pool w) with
          | Diverges => None
          | Err _ =>
              Some (JSON StatusInternalServerError
                      (ErrorResponse "Failed to allocate IP address"), w)
          | Ok (clientIP, pool1) =>
              let client :=
                mkClient 0 name (kp_PublicKey keyPair) (kp_PrivateKey keyPair)
                         clientIP true 0 in
              match db_CreateClient (w_db w) client with
              | None =>
                  let pool2 :=
                    IPPool.after parseIPv6 pool1 (IPPool.CallReleaseIP clientIP) in
                  Some (JSON StatusInternalServerError
                          (ErrorResponse "Failed to create client"),
                        mkWorld pool2 (w_db w) (w_file w))
              | Some (db1, row) =>
                  let peer :=
                    WireGuard.mkPeer (kp_PublicKey keyPair)
                      [clientIP +:+ "/32"] "" 0 in
                  let file1 :=
                    match WireGuard.AddPeer (w_file w) peer write_ok with
                    | Ok f => f
                    | _ => w_file w
                    end in
                  Some (JSON StatusCreated
                          (Created
                             (mkCreateClientResponse (ID row) (Name row)
                                (PublicKey row) (IPAddress row) (Enabled row)
                                (CreatedAt row))),
                        mkWorld pool1 db1 file1)
              end
          end
      end
  end.
End Handler.

End API.

(** * Vocabulary of the proofs

    Measures, invariants and sample values that the statements below are
    written with. *)

Section NetVocabulary.
Import GoNet.

(** Number of decimal digits [ubtoa] prints for a byte. *)
Definition ndigits (v : Z) : Z :=
  if v <? 10 then 1 else if v <? 100 then 2 else 3.

(** Little-endian value, the order in which [incrementIP] walks. *)
Definition leZ (l : list Z) : Z := fold_right (fun b acc => b + 256 * acc) 0 l.

(** The bytes a network mask is made of, and what masking a byte [y]
    with one of them ([mb]) does: it clears, and its complement sets, the
    low bits of [y]. *)
Definition mask_bytes : list Z := [0; 128; 192; 224; 240; 248; 252; 254; 255].

Definition byte_mask_check (y mb : Z) : bool :=
  (Z.land y mb =? y - y mod (256 - mb))
  && (Z.lor (Z.land y mb) (Z.lxor mb 255) =? y - y mod (256 - mb) + (255 - mb)).

(** What the pool needs of a prefix length [n]: for every 4-byte
    address, the masked address and the broadcast address computed from it
    are 4-byte addresses 2^(32-n) - 1 apart, the mask has [n] ones, and
    the network contains every address between the two. *)
Definition cidr_ok (n : Z) : Prop :=
  forall ip, is_ip4 ip ->
    let m := CIDRMask_loop 4 n in
    let net := IP_Mask ip m in
    let bc := zip_with (fun b m => Z.lor b (Z.lxor m 255)) net m in
    is_ip4 net /\ IP_Mask net m = net /\ is_ip4 bc
    /\ IPPool.toZ bc = IPPool.toZ net + 2 ^ (32 - n) - 1
    /\ Mask_Size m = (n, 32)
    /\ (forall x, is_ip4 x -> IPPool.toZ net <= IPPool.toZ x <= IPPool.toZ bc ->
                  Contains (mkIPNet net m) x = true).
End NetVocabulary.

Section PoolVocabulary.
Import GoNet IPPool.

(** The fields fixed at construction: [net] and [bc] are the network and
    broadcast addresses, [k] the number of host bits. *)
Definition pool_geom (p : IPPool) (net bc : IP) (k : Z) : Prop :=
  is_ip4 net /\ is_ip4 bc /\ 3 <= k <= 32
  /\ toZ bc = toZ net + 2 ^ k - 1
  /\ IP_Mask (net_IP (ipNet p)) (net_Mask (ipNet p)) = net
  /\ (forall x, is_ip4 x -> toZ net <= toZ x <= toZ bc ->
                Contains (ipNet p) x = true)
  /\ networkAddress p = IP_String net
  /\ broadcastAddress p = IP_String bc
  /\ serverIP p = IP_String (incrementIP net 1)
  /\ totalHosts p = 2 ^ k - 2.

(** The allocation map: only [true] is ever stored, the server's entry
    is there, the network and broadcast addresses have none. *)
Definition alloc_ok (p : IPPool) : Prop :=
  (forall s b, allocated p !! s = Some b -> b = true)
  /\ allocated p !! serverIP p = Some true
  /\ allocated p !! networkAddress p = None
  /\ allocated p !! broadcastAddress p = None.

(** The invariant of reachable pools. *)
Definition pool_inv (p : IPPool) : Prop :=
  (exists net bc k, pool_geom p net bc k) /\ alloc_ok p.

(** Sample values: no IPv6 text is ever parsed, and a pool of
    "10.0.0.0/29" before and after a few calls. *)
Definition no_ipv6 : string -> option IP := fun _ => None.

Definition pool29 : IPPool :=
  match NewIPPool "10.0.0.0/29" with
  | Ok p => p
  | _ => mkPool "" (mkIPNet [] []) "" ∅ "" "" 0
  end.

Definition pool29_used : IPPool :=
  fold_left (after no_ipv6)
    [CallAllocateIP; CallAllocateSpecificIP "10.0.0.4"; CallReleaseIP "10.0.0.2";
     CallAllocateIP] pool29.

Definition pool29_next : IPPool := after no_ipv6 pool29_used CallAllocateIP.

Definition pool29_after2 : IPPool :=
  fold_left (after no_ipv6) [CallAllocateIP; CallAllocateIP] pool29_used.

Definition pool29_back : IPPool :=
  fold_left (after no_ipv6) [CallReleaseIP "10.0.0.5"; CallReleaseIP "10.0.0.3"]
            pool29_after2.
End PoolVocabulary.

Section AlertVocabulary.
Import Monitoring.
Context {FO : FloatOps}.

(** What a rule does to the entry under its own identifier. *)
Definition rule_step (now : Z) (r : rule) (o : option Alert) : option Alert :=
  match o with
  | Some a =>
      if r_fires r then Some (updated r now a)
      else if bool_decide (Status a = AlertStatusActive)
           then Some (resolved now a) else Some a
  | None => if r_fires r then Some (created r now) else None
  end.
End AlertVocabulary.

Section TokenVocabulary.
Import Auth.

(** [utf8.ValidString]: every byte of [s] belongs to a valid
    encoding. *)
Fixpoint valid_from (skip : nat) (s : string) : bool :=
  match s with
  | EmptyString => true
  | String c rest =>
      match skip with
      | S k => valid_from k rest
      | O =>
          match rune_width s with
          | O => false
          | S k => valid_from k rest
          end
      end
  end.

Definition ValidString (s : string) : bool := valid_from 0 s.

(** A stand-in for the HMAC signature, and a token made with it. *)
Definition demo_sign : SigningMethod -> string -> Payload -> string := fun _ k _ => k.

Definition demo_token : Token :=
  GenerateToken demo_sign (NewAuthManager "test-secret") 123 "testuser"
    10500000000 10500000001 10500000002.
End TokenVocabulary.

Section TextVocabulary.
Import GoStrings WireGuard.

(** [t] occurs in [s]. *)
Definition occurs_in (t s : string) : Prop := exists a b, s = a +:+ t +:+ b.

(** A byte [TrimSpace] stops at: ASCII and not white space. *)
Definition keeps (c : ascii) : bool := is_ascii c && negb (asciiSpace c).

(** [s] has no byte [c]. *)
Fixpoint lacks (c : ascii) (s : string) : bool :=
  match s with
  | "" => true
  | String x s' => negb (Ascii.eqb x c) && lacks c s'
  end.

(** Every byte of [s] is ASCII and not white space. *)
Fixpoint clean (s : string) : bool :=
  match s with
  | "" => true
  | String x s' => keeps x && clean s'
  end.

(** A string that begins and ends with bytes [TrimSpace] keeps. *)
Definition ends_kept (s : string) : Prop :=
  exists c0 s' c1 r,
    s = String c0 s' /\ keeps c0 = true /\ srev s = String c1 r /\ keeps c1 = true.

(** A non-empty string of such bytes. *)
Definition plain (s : string) : Prop := clean s = true /\ s <> "".

(** A peer whose text survives the round trip through the file: a plain
    public key, at least one allowed IP, each plain and without a comma,
    an endpoint without spaces, a keep-alive that fits a 64-bit [int]. *)
Definition wf_peer (p : Peer) : Prop :=
  plain (PublicKey p)
  /\ AllowedIPs p <> []
  /\ Forall (fun a => plain a /\ lacks "," a = true) (AllowedIPs p)
  /\ clean (Endpoint p) = true
  /\ 0 <= PersistentKA p < 2 ^ 63.

(** The lines of the section [peerConfig] writes for a peer. *)
Definition pk_line (p : Peer) : string := "PublicKey = " +:+ PublicKey p.

Definition ip_line (p : Peer) : string :=
  "AllowedIPs = " +:+ Join (AllowedIPs p) ", ".

Definition ep_line (p : Peer) : string := "Endpoint = " +:+ Endpoint p.

Definition ka_line (p : Peer) : string :=
  "PersistentKeepalive = " +:+ Itoa (PersistentKA p).

(** The lines [peerConfig] adds after the "[Peer]" header and the key. *)
Definition tail_lines (p : Peer) : list string :=
  [ip_line p]
  ++ (if String.eqb (Endpoint p) "" then [] else [ep_line p])
  ++ (if 0 <? PersistentKA p then [ka_line p] else []).

Definition peer_lines (p : Peer) : list string :=
  "[Peer]" :: pk_line p :: tail_lines p.

(** The text of a list of lines, each followed by a newline. *)
Fixpoint unlines (l : list string) : string :=
  match l with
  | [] => ""
  | a :: l' => a +:+ nl +:+ unlines l'
  end.

(** The non-last pieces of a text, as the scanner delivers them. *)
Fixpoint scan_body (pieces : list string) : list string * bool :=
  match pieces with
  | [] => ([], false)
  | p :: rest =>
      if too_long p then ([], true)
      else let '(ls, e) := scan_body rest in (dropCR p :: ls, e)
  end.

(** A line that comes from the old text of the file, or is a bare
    section header. *)
Definition good (content l : string) : Prop :=
  (occurs_in l content \/ l = "[Peer]") /\ lacks "010" l = true.

(** A line that neither opens nor closes a section for [RemovePeer]. *)
Definition inert `{UnicodeTrim} (l : string) : Prop :=
  String.eqb (TrimSpace l) "[Peer]" = false
  /\ HasPrefix (TrimSpace l) "[" || String.eqb (TrimSpace l) "" = false.

(** No peer read so far, finished or under construction, has the key
    [K]. *)
Definition key_free (K : string) (st : list Peer * option Peer) : Prop :=
  Forall (fun q => PublicKey q <> K) (fst st)
  /\ forall q, snd st = Some q -> PublicKey q <> K.
End TextVocabulary.

(** ASCII files only: the Unicode fallbacks are never reached, and are
    taken to return their argument. *)
#[global] Instance AsciiTrim : GoStrings.UnicodeTrim := {|
  GoStrings.TrimFunc_IsSpace := fun s => s;
  GoStrings.TrimRightFunc_IsSpace := fun s => s
|}.

Section PeerSamples.
Import GoStrings WireGuard.

(** Sample files: an interface section, and the files [AddPeer] makes
    of it for a few peers. *)
Definition demo_base : string :=
  "[Interface]" +:+ nl +:+ "PrivateKey = test-private-key" +:+ nl
  +:+ "Address = 10.0.0.1/24" +:+ nl +:+ "ListenPort = 51820" +:+ nl.

Definition peer_a : Peer := mkPeer "peer-to-remove" ["10.0.0.2/32"] "" 0.

Definition peer_b : Peer := mkPeer "peer-to-keep" ["10.0.0.3/32"] "" 0.

Definition peer_c : Peer :=
  mkPeer "peer-c" ["10.0.0.4/32"; "10.0.1.0/24"] "1.2.3.4:51820" 25.

Definition file_of (r : result error file) : file :=
  match r with Ok f => f | _ => Missing end.

Definition file_a : file := file_of (AddPeer (File demo_base) peer_a true).

Definition file_aa : file := file_of (AddPeer file_a peer_a true).

Definition file_ab : file := file_of (AddPeer file_a peer_b true).

Definition file_abc : file := file_of (AddPeer file_ab peer_c true).

Definition file_c : file := file_of (AddPeer (File demo_base) peer_c true).
End PeerSamples.

(** A store for the examples: a list of rows, names unique, ids counted
    from 1. *)
#[global] Instance ListStore : API.Persistence := {|
  API.DB := list API.Client;
  API.db_CreateClient := fun db c =>
    if existsb (fun r => String.eqb (API.Name r) (API.Name c)) db then None
    else
      let row :=
        API.mkClient (Z.of_nat (length db) + 1) (API.Name c) (API.PublicKey c)
                     (API.PrivateKey c) (API.IPAddress c) (API.Enabled c) 1700000000 in
      Some (db ++ [row], row)
|}.

Section HandlerSamples.
Import GoNet IPPool.

(** A handler state whose store already has a client named "laptop",
    and the state after creating a client named "phone". *)
Definition demo_keys : API.KeyPair := API.mkKeyPair "client-private-key" "client-public-key".

Definition demo_row : API.Client :=
  API.mkClient 1 "laptop" "laptop-public-key" "laptop-private-key" "10.0.0.2" true 1600000000.

Definition demo_file : WireGuard.file :=
  WireGuard.File ("[Interface]" +:+ WireGuard.nl +:+ "ListenPort = 51820" +:+ WireGuard.nl).

Definition demo_world : API.world := API.mkWorld pool29_used [demo_row] demo_file.

Definition demo_phone : API.Client :=
  API.mkClient 2 "phone" "client-public-key" "client-private-key" "10.0.0.3" true 1700000000.

Definition demo_world_created : API.world :=
  API.mkWorld pool29_next [demo_row; demo_phone] demo_file.
End HandlerSamples.

(** ** internal/network: the accessors of the pool that no allocation
       goes through *)

Module PoolQueries.
Import GoNet IPPool.

(** [sort.Strings]: ascending order of the byte strings. *)
Definition sort_Strings (l : list string) : list string :=
  merge_sort String.le l.

(** [GetAllocatedIPs]: the keys of the allocation map other than the
    server address, sorted.  Go walks the map in no particular order; the
    sort makes the result independent of it. *)
Definition GetAllocatedIPs (p : IPPool) : list string :=
  sort_Strings
    (filter (fun ip => ip <> serverIP p) (fst <$> map_to_list (allocated p))).

Record NetworkInfo : Type := mkNetworkInfo {
  Network : string;
  ServerIP : string;
  NetworkAddress : string;
  BroadcastAddress : string;
  TotalHosts : Z
}.

Definition GetNetworkInfo (p : IPPool) : NetworkInfo :=
  mkNetworkInfo (network p) (serverIP p) (networkAddress p)
                (broadcastAddress p) (totalHosts p).

End PoolQueries.

Section PoolVocabulary2.
Import GoNet IPPool.

(** The text of the [i]-th address of the pool's network, counted from
    the network address: 0 is the network address itself, 1 the server,
    2 the first address a client can get. *)
Definition host (p : IPPool) (i : Z) : string :=
  IP_String (incrementIP (IP_Mask (net_IP (ipNet p)) (net_Mask (ipNet p))) i).

(** A pool of "10.0.0.0/24" with 10.0.0.2 to 10.0.0.11 handed out. *)
Definition pool24 : IPPool :=
  match NewIPPool "10.0.0.0/24" with
  | Ok p => p
  | _ => mkPool "" (mkIPNet [] []) "" ∅ "" "" 0
  end.

Definition pool24_used : IPPool :=
  fold_left (after no_ipv6) (repeat CallAllocateIP 10) pool24.
End PoolVocabulary2.

(** ** internal/wireguard: the server and client configuration texts,
       and reading the server's settings back from the file *)

Module WGConfig.
Import GoStrings.

Record ServerConfig : Type := mkServerConfig {
  PrivateKey : string;
  PublicKey : string;
  Address : string;
  ListenPort : Z;
  DNS : list string;
  PostUp : list string;
  PostDown : list string;
  Interface : string
}.

Record ClientConfig : Type := mkClientConfig {
  cc_PrivateKey : string;
  cc_PublicKey : string;
  cc_Address : string;
  cc_DNS : list string;
  cc_ServerPublicKey : string;
  cc_ServerEndpoint : string;
  cc_AllowedIPs : list string
}.

Inductive error : Type :=
| ErrGenerateServerKeys   (* "failed to generate server keys: ..." *)
| ErrInvalidNetworkCIDR   (* "invalid network CIDR: ..." *)
| ErrGenerateClientKeys   (* "failed to generate client keys: ..." *)
| ErrCreateConfigDir      (* "failed to create config directory: ..." *)
| ErrWriteConfigFile      (* "failed to write config file: ..." *)
| ErrConfigMissing        (* "configuration file does not exist: ..." *)
| ErrReadConfiguration.   (* "failed to read configuration file: ..." *)

Definition getCIDRBits (ipNet : GoNet.IPNet) : Z :=
  fst (GoNet.Mask_Size (GoNet.net_Mask ipNet)).

(** [NewServerConfig]; [keys] is the outcome of [GenerateKeyPair].  The
    network text goes through [ParseCIDR], modelled for IPv4 text; the
    package's own [incrementIP] is the same function as the pool's. *)
Definition NewServerConfig (keys : option API.KeyPair) (listenPort : Z)
    (networkCIDR : string) : result error ServerConfig :=
  match keys with
  | None => Err ErrGenerateServerKeys
  | Some keyPair =>
      match GoNet.ParseCIDR networkCIDR with
      | None => Err ErrInvalidNetworkCIDR
      | Some ipNet =>
          let serverIP := IPPool.incrementIP (GoNet.net_IP ipNet) 1 in
          Ok (mkServerConfig
                (API.kp_PrivateKey keyPair) (API.kp_PublicKey keyPair)
                (GoNet.IP_String serverIP +:+ "/" +:+ Itoa (getCIDRBits ipNet))
                listenPort
                ["8.8.8.8"; "8.8.4.4"]
                ["iptables -A FORWARD -i wg0 -j ACCEPT";
                 "iptables -t nat -A POSTROUTING -o en0 -j MASQUERADE"]
                ["iptables -D FORWARD -i wg0 -j ACCEPT";
                 "iptables -t nat -D POSTROUTING -o en0 -j MASQUERADE"]
                "wg0")
      end
  end.

(** One [config.WriteString] per command of a list. *)
Definition write_commands (key : string) (cmds : list string) (config : string)
    : string :=
  fold_left (fun acc cmd => acc +:+ key +:+ " = " +:+ cmd +:+ WireGuard.nl)
            cmds config.

(** [ServerConfig.GenerateConfigFile]. *)
Definition GenerateConfigFile (sc : ServerConfig) : string :=
  let config := "[Interface]" +:+ WireGuard.nl in
  let config := config +:+ "PrivateKey = " +:+ PrivateKey sc +:+ WireGuard.nl in
  let config := config +:+ "Address = " +:+ Address sc +:+ WireGuard.nl in
  let config :=
    config +:+ "ListenPort = " +:+ Itoa (ListenPort sc) +:+ WireGuard.nl in
  let config := write_commands "PostUp" (PostUp sc) config in
  write_commands "PostDown" (PostDown sc) config.

(** [ServerConfig.AddPeer]: the text of a peer section. *)
Definition ServerConfig_AddPeer (sc : ServerConfig)
    (clientPublicKey clientIP : string) : string :=
  WireGuard.nl +:+ "[Peer]" +:+ WireGuard.nl
  +:+ "PublicKey = " +:+ clientPublicKey +:+ WireGuard.nl
  +:+ "AllowedIPs = " +:+ clientIP +:+ "/32" +:+ WireGuard.nl.

(** [NewClientConfig]; [keys] is the outcome of [GenerateKeyPair]. *)
Definition NewClientConfig (keys : option API.KeyPair)
    (serverConfig : ServerConfig) (clientIP serverEndpoint : string)
    : result error ClientConfig :=
  match keys with
  | None => Err ErrGenerateClientKeys
  | Some keyPair =>
      Ok (mkClientConfig
            (API.kp_PrivateKey keyPair) (API.kp_PublicKey keyPair)
            (clientIP +:+ "/32") (DNS serverConfig) (PublicKey serverConfig)
            serverEndpoint ["0.0.0.0/0"])
  end.

(** [ClientConfig.GenerateConfigFile]. *)
Definition ClientConfig_GenerateConfigFile (cc : ClientConfig) : string :=
  "[Interface]" +:+ WireGuard.nl
  +:+ "PrivateKey = " +:+ cc_PrivateKey cc +:+ WireGuard.nl
  +:+ "Address = " +:+ cc_Address cc +:+ WireGuard.nl
  +:+ "DNS = " +:+ Join (cc_DNS cc) ", " +:+ WireGuard.nl
  +:+ WireGuard.nl +:+ "[Peer]" +:+ WireGuard.nl
  +:+ "PublicKey = " +:+ cc_ServerPublicKey cc +:+ WireGuard.nl
  +:+ "Endpoint = " +:+ cc_ServerEndpoint cc +:+ WireGuard.nl
  +:+ "AllowedIPs = " +:+ Join (cc_AllowedIPs cc) ", " +:+ WireGuard.nl
  +:+ "PersistentKeepalive = 25" +:+ WireGuard.nl.

(** [WriteConfig]: [mkdir_ok] and [write_ok] say whether [os.MkdirAll]
    and [os.WriteFile] succeed; a failed call leaves the file as it
    was. *)
Definition WriteConfig (mkdir_ok write_ok : bool) (config : ServerConfig)
    : result error WireGuard.file :=
  if negb mkdir_ok then Err ErrCreateConfigDir
  else if negb write_ok then Err ErrWriteConfigFile
  else Ok (WireGuard.File (GenerateConfigFile config)).

Section Reading.
Context {UT : UnicodeTrim}.
(** [generatePublicKey] runs "wg pubkey"; its answer is left as a
    function of the private key, [None] when the command fails. *)
Variable generatePublicKey : string -> option string.

Definition emptyConfig : ServerConfig := mkServerConfig "" "" "" 0 [] [] [] "".

(** The [switch] of [GetConfig] on one key. *)
Definition set_setting (config : ServerConfig) (key value : string)
    : ServerConfig :=
  if String.eqb key "PrivateKey"
  then mkServerConfig value (PublicKey config) (Address config)
         (ListenPort config) (DNS config) (PostUp config) (PostDown config)
         (Interface config)
  else if String.eqb key "ListenPort"
  then match Atoi value with
       | Some port =>
           mkServerConfig (PrivateKey config) (PublicKey config)
             (Address config) port (DNS config) (PostUp config)
             (PostDown config) (Interface config)
       | None => config
       end
  else if String.eqb key "Address"
  then mkServerConfig (PrivateKey config) (PublicKey config) value
         (ListenPort config) (DNS config) (PostUp config) (PostDown config)
         (Interface config)
  else config.

(** One turn of the loop of [GetConfig]. *)
Definition config_step (config : ServerConfig) (rawLine : string)
    : ServerConfig :=
  let line := TrimSpace rawLine in
  if String.eqb line "" || HasPrefix line "#" then config
  else if Contains line "=" then
    match SplitN2 line "=" with
    | [k; v] => set_setting config (TrimSpace k) (TrimSpace v)
    | _ => config
    end
  else config.

Definition GetConfig (f : WireGuard.file) : result error ServerConfig :=
  match f with
  | WireGuard.Missing => Err ErrConfigMissing
  | WireGuard.Unreadable => Err ErrReadConfiguration
  | WireGuard.File content =>
      let config := fold_left config_step (Split content "010") emptyConfig in
      Ok (if negb (String.eqb (PrivateKey config) "")
          then match generatePublicKey (PrivateKey config) with
               | Some pubKey =>
                   mkServerConfig (PrivateKey config) pubKey (Address config)
                     (ListenPort config) (DNS config) (PostUp config)
                     (PostDown config) (Interface config)
               | None => config
               end
          else config)
  end.
End Reading.

End WGConfig.

Section ConfigVocabulary.
Import GoStrings WGConfig.

(** A value that fits on one line of the file and that [TrimSpace]
    leaves alone. *)
Definition one_line (s : string) : Prop := ends_kept s /\ lacks "010" s = true.

(** A server configuration that can be written and read back. *)
Definition wf_server (sc : ServerConfig) : Prop :=
  one_line (PrivateKey sc) /\ one_line (Address sc)
  /\ 0 <= ListenPort sc < 2 ^ 63
  /\ Forall one_line (PostUp sc) /\ Forall one_line (PostDown sc).

(** The lines of [GenerateConfigFile]. *)
Definition server_lines (sc : ServerConfig) : list string :=
  ["[Interface]";
   "PrivateKey = " +:+ PrivateKey sc;
   "Address = " +:+ Address sc;
   "ListenPort = " +:+ Itoa (ListenPort sc)]
  ++ map (fun cmd => "PostUp = " +:+ cmd) (PostUp sc)
  ++ map (fun cmd => "PostDown = " +:+ cmd) (PostDown sc).

(** What [GetConfig] keeps of a configuration: the private key, the
    address and the port; the public key is asked of "wg pubkey". *)
Definition read_back (generatePublicKey : string -> option string)
    (sc : ServerConfig) : ServerConfig :=
  mkServerConfig (PrivateKey sc)
    (match generatePublicKey (PrivateKey sc) with Some k => k | None => "" end)
    (Address sc) (ListenPort sc) [] [] [] "".

(** A client configuration whose text can be read back. *)
Definition wf_client (cc : ClientConfig) : Prop :=
  one_line (cc_PrivateKey cc) /\ one_line (cc_Address cc)
  /\ cc_DNS cc <> []
  /\ Forall (fun a => plain a /\ lacks "," a = true) (cc_DNS cc)
  /\ plain (cc_ServerPublicKey cc) /\ plain (cc_ServerEndpoint cc)
  /\ cc_AllowedIPs cc <> []
  /\ Forall (fun a => plain a /\ lacks "," a = true) (cc_AllowedIPs cc).

(** The lines of [ClientConfig.GenerateConfigFile]. *)
Definition client_lines (cc : ClientConfig) : list string :=
  ["[Interface]";
   "PrivateKey = " +:+ cc_PrivateKey cc;
   "Address = " +:+ cc_Address cc;
   "DNS = " +:+ Join (cc_DNS cc) ", ";
   "";
   "[Peer]";
   "PublicKey = " +:+ cc_ServerPublicKey cc;
   "Endpoint = " +:+ cc_ServerEndpoint cc;
   "AllowedIPs = " +:+ Join (cc_AllowedIPs cc) ", ";
   "PersistentKeepalive = 25"].

Definition demo_keys_server : API.KeyPair :=
  API.mkKeyPair "c2VydmVyLXByaXZhdGUta2V5" "c2VydmVyLXB1YmxpYy1rZXk=".

Definition demo_pubkey : string -> option string :=
  fun _ => Some "c2VydmVyLXB1YmxpYy1rZXk=".

Definition demo_server : ServerConfig :=
  match NewServerConfig (Some demo_keys_server) 51820 "10.0.0.0/24" with
  | Ok sc => sc
  | _ => emptyConfig
  end.

Definition demo_client : ClientConfig :=
  match NewClientConfig (Some (API.mkKeyPair "Y2xpZW50LXByaXZhdGU=" "Y2xpZW50LXB1YmxpYw=="))
          demo_server "10.0.0.2" "vpn.example.org:51820" with
  | Ok cc => cc
  | _ => mkClientConfig "" "" "" [] "" "" []
  end.
End ConfigVocabulary.

Section AlertVocabulary2.
Import Monitoring.
Context {FO : FloatOps}.

(** What one evaluation at time [now] may do to a stored alert [a] that
    it keeps: the identity, the texts and the creation time stay, the
    count grows by at most one, and the status stays unless an active
    alert is resolved at [now]. *)
Definition keeps_course (now : Z) (a a' : Alert) : Prop :=
  ID a' = ID a /\ Type_ a' = Type_ a /\ Severity_ a' = Severity_ a
  /\ Title a' = Title a /\ Description a' = Description a
  /\ CreatedAt a' = CreatedAt a
  /\ Count a <= Count a' <= Count a + 1
  /\ (Status a' = Status a /\ ResolvedAt a' = ResolvedAt a
      \/ Status a = AlertStatusActive /\ Status a' = AlertStatusResolved
         /\ ResolvedAt a' = Some now).

(** The [j]-th of the nine checks, for given thresholds and metrics. *)
Definition rule_at (cfg : AlertConfig) (metrics : ServerMetrics) (j : nat)
    : rule :=
  nth j (builtin_rules cfg metrics)
      (mkRule "" false AlertTypeSystem SeverityLow "" "" None).

(** The identifiers the nine checks work on, in the order of the
    checks. *)
Definition rule_ids : list string :=
  ["system_cpu_high"; "system_memory_high"; "system_disk_high";
   "network_ip_pool_high"; "security_firewall_disabled";
   "security_failed_logins"; "connection_high_count";
   "performance_response_time"; "performance_error_rate"].
End AlertVocabulary2.

(** ** internal/auth: refreshing a token *)

Module AuthRefresh.
Import Auth.

Inductive refresh_error : Type :=
| ErrCannotRefresh (cause : Auth.error).  (* "cannot refresh invalid token: ..." *)

Section Refresh.
Variable sign : SigningMethod -> string -> Payload -> string.

(** [RefreshToken]: [now] is the clock reading of the validation, the
    other three are those of [GenerateToken]. *)
Definition RefreshToken (am : AuthManager) (tok : Token)
    (now now1 now2 now3 : Z) : result refresh_error Token :=
  match ValidateToken sign am tok now with
  | Ok claims =>
      Ok (GenerateToken sign am (UserID claims) (Username claims) now1 now2 now3)
  | Err e => Err (ErrCannotRefresh e)
  | Diverges => Diverges
  end.
End Refresh.

End AuthRefresh.

(** ** internal/api: the delete-client handler *)

Module ClientAPI.
Import API.

(** [strconv.ParseUint(s, 10, 32)]: decimal digits only, no sign, at
    most 2^32 - 1. *)
Definition ParseUint32 (s : string) : option Z :=
  match s with
  | EmptyString => None
  | _ =>
      match GoStrings.parse_digits s 0 with
      | Some n => if n <? 2 ^ 32 then Some n else None
      | None => None
      end
  end.

(** The outcomes of [db.GetClient] that the handlers tell apart. *)
Inductive lookup : Type :=
| Found (client : Client)
| RecordNotFound      (* [gorm.ErrRecordNotFound] *)
| QueryFailed.

(** The rest of the persistence layer, as far as [DeleteClient] uses
    it; [db_DeleteClient] fails with [None]. *)
Class ClientStore (PS : Persistence) : Type := {
  db_GetClient : DB -> Z -> lookup;
  db_DeleteClient : DB -> Z -> option DB
}.

(** A status and, for [c.JSON] with an [ErrorResponse], its message;
    [c.Status] sends no body. *)
Record reply : Type := Reply { reply_status : Z; reply_error : option string }.

Definition StatusNoContent : Z := 204.
Definition StatusNotFound : Z := 404.

Section Handlers.
Context {PS : Persistence} {CS : ClientStore PS} {UT : GoStrings.UnicodeTrim}.
Variable parseIPv6 : string -> option GoNet.IP.

(** [DeleteClient]; [idStr] is the "id" parameter of the route,
    [write_ok] whether [RemovePeer] manages to write the file.  The
    errors of [RemovePeer] and [ReleaseIP] are dropped by the handler.
    [None] stands for a call that does not return. *)
Definition DeleteClient (idStr : string) (write_ok : bool) (w : world)
    : option (reply * world) :=
  match ParseUint32 idStr with
  | None => Some (Reply StatusBadRequest (Some "Invalid client ID"), w)
  | Some id =>
      match db_GetClient (w_db w) id with
      | RecordNotFound => Some (Reply StatusNotFound (Some "Client not found"), w)
      | QueryFailed =>
          Some (Reply StatusInternalServerError (Some "Failed to get client"), w)
      | Found client =>
          match WireGuard.RemovePeer (w_file w) (PublicKey client) write_ok with
          | Diverges => None
          | removed =>
              let file1 := match removed with Ok f => f | _ => w_file w end in
              let pool1 :=
                IPPool.after parseIPv6 (w_pool w)
                  (IPPool.CallReleaseIP (IPAddress client)) in
              match db_DeleteClient (w_db w) id with
              | None =>
                  Some (Reply StatusInternalServerError
                          (Some "Failed to delete client"),
                        mkWorld pool1 (w_db w) file1)
              | Some db1 => Some (Reply StatusNoContent None, mkWorld pool1 db1 file1)
              end
          end
      end
  end.
End Handlers.

End ClientAPI.

(** The list store of the examples, with lookup and deletion by id. *)
#[global] Instance ListQueries : ClientAPI.ClientStore ListStore := {|
  ClientAPI.db_GetClient := fun db id =>
    match filter (fun r => API.ID r = id) (db : list API.Client) with
    | r :: _ => ClientAPI.Found r
    | [] => ClientAPI.RecordNotFound
    end;
  ClientAPI.db_DeleteClient := fun db id =>
    Some (filter (fun r => API.ID r <> id) (db : list API.Client) : API.DB)
|}.

Section MoreSamples.
Import GoNet IPPool.

(** The sample pool with 10.0.0.5 taken as well, and with 10.0.0.4
    given back. *)
Definition pool29_with5 : IPPool :=
  after no_ipv6 pool29_used (CallAllocateSpecificIP "10.0.0.5").

Definition pool29_without4 : IPPool :=
  after no_ipv6 pool29_used (CallReleaseIP "10.0.0.4").

(** The sample handler state after [CreateClient] for "phone", the file
    written this time. *)
Definition demo_world_phone : API.world :=
  match API.CreateClient no_ipv6 (inr "phone") (Some demo_keys) true demo_world with
  | Some (_, w1) => w1
  | None => demo_world
  end.

(** A stand-in for the IPv6 parser that knows one text: the
    IPv4-mapped spelling of 10.0.0.1, with the 16 bytes Go gives it. *)
Definition mapped_parse : string -> option IP :=
  fun s =>
    if String.eqb s "::ffff:10.0.0.1"
    then Some [0; 0; 0; 0; 0; 0; 0; 0; 0; 0; 255; 255; 10; 0; 0; 1]
    else None.
End MoreSamples.

(** Vocabulary for the files [RemovePeer] gives back *)

Section FileVocabulary.
Import GoStrings WireGuard.
Context {UT : UnicodeTrim}.

(** A line that fits the scanner's buffer, that the scanner delivers as
    it stands (no carriage return at its end), and that does not open a
    peer section. *)
Definition plain_line (l : string) : Prop :=
  too_long l = false /\ dropCR l = l
  /\ String.eqb (TrimSpace l) "[Peer]" = false.

(** A text without peer sections, all of whose lines are such. *)
Definition peerless (content : string) : Prop :=
  Forall plain_line (Split content "010").

(** A peer whose lines fit the scanner's buffer. *)
Definition short_peer (p : Peer) : Prop :=
  Forall (fun l => too_long l = false) (peer_lines p).
End FileVocabulary.

(** * Proofs *)

(** ** String concatenation *)

Section StringAppend.

Lemma sapp_cons c s t : String c s +:+ t = String c (s +:+ t).
Proof. reflexivity. Qed.

Lemma sapp_nil_l t : "" +:+ t = t.
Proof. reflexivity. Qed.

Lemma sapp_nil_r s : s +:+ "" = s.
Proof. induction s as [|c s IH]; [reflexivity|]. rewrite sapp_cons, IH. reflexivity. Qed.

Lemma sapp_assoc s t u : (s +:+ t) +:+ u = s +:+ t +:+ u.
Proof.
  induction s as [|c s IH]; [reflexivity|].
  rewrite !sapp_cons, IH. reflexivity.
Qed.
End StringAppend.

(** ** Dotted-decimal text: printing and parsing are inverse *)

Section NetFacts.
Import GoNet.

Lemma byte_cases (P : Z -> Prop) :
  (forall n : nat, (n < 256)%nat -> P (Z.of_nat n)) ->
  forall v, is_byte v -> P v.
Proof.
  intros H v [Hl Hu]. rewrite <- (Z2Nat.id v) by lia. apply H. lia.
Qed.

Ltac each_byte n :=
  do 256 (destruct n as [|n]; [reflexivity|]); lia.

Lemma parse_field v rest first pd fields :
  is_byte v ->
  parseIPv4_loop (ubtoa v +:+ rest) first pd fields 0 0
  = parseIPv4_loop rest false false fields v (ndigits v).
Proof.
  intros Hv. revert v Hv rest first pd fields.
  apply (byte_cases (fun v => forall rest first pd fields, _ = _)).
  intros n Hn rest first pd fields. each_byte n.
Qed.

Lemma scan_field pv6 whole v rest :
  is_byte v ->
  ParseAddr_scan pv6 whole (ubtoa v +:+ "." +:+ rest) = parseIPv4 whole.
Proof.
  intros Hv. revert v Hv rest.
  apply (byte_cases (fun v => forall rest, _ = _)).
  intros n Hn rest. each_byte n.
Qed.

Lemma ubtoa_cons v : is_byte v -> exists c s, ubtoa v = String c s.
Proof.
  intros _. unfold ubtoa.
  destruct (v <? 10); [|destruct (v <? 100)]; eauto.
Qed.

Lemma is_ip4_inv ip :
  is_ip4 ip ->
  exists a b c d, ip = [a; b; c; d] /\ is_byte a /\ is_byte b /\ is_byte c /\ is_byte d.
Proof.
  intros [Hl Hf].
  destruct ip as [|a [|b [|c [|d [|? ?]]]]]; try discriminate.
  exists a, b, c, d.
  repeat match goal with H : Forall _ (_ :: _) |- _ => inversion H; clear H; subst end.
  auto.
Qed.

Lemma is_ip4_intro a b c d :
  is_byte a -> is_byte b -> is_byte c -> is_byte d -> is_ip4 [a; b; c; d].
Proof. intros. split; [reflexivity | repeat (apply Forall_cons_2; [assumption|]); apply Forall_nil_2]. Qed.

Lemma IP_String_ip4 a b c d :
  IP_String [a; b; c; d]
  = ubtoa a +:+ "." +:+ ubtoa b +:+ "." +:+ ubtoa c +:+ "." +:+ ubtoa d.
Proof. reflexivity. Qed.

Lemma parse_dot c s fields val dl :
  parseIPv4_loop (String "." (String c s)) false false fields val dl
  = if (length fields =? 3)%nat then None
    else parseIPv4_loop (String c s) false true (fields ++ [val]) 0 0.
Proof. reflexivity. Qed.

Lemma parse_dot_field v rest fields val dl :
  is_byte v ->
  parseIPv4_loop ("." +:+ ubtoa v +:+ rest) false false fields val dl
  = if (length fields =? 3)%nat then None
    else parseIPv4_loop rest false false (fields ++ [val]) v (ndigits v).
Proof.
  intros Hv. destruct (ubtoa_cons v Hv) as (c & s & E).
  rewrite E at 1. rewrite !sapp_cons, sapp_nil_l.
  rewrite parse_dot. destruct (length fields =? 3)%nat; [reflexivity|].
  rewrite <- sapp_cons, <- E. apply parse_field. assumption.
Qed.

Lemma parseIPv4_String ip : is_ip4 ip -> parseIPv4 (IP_String ip) = Some ip.
Proof.
  intros H. destruct (is_ip4_inv ip H) as (a & b & c & d & -> & Ha & Hb & Hc & Hd).
  rewrite IP_String_ip4. unfold parseIPv4.
  rewrite parse_field by assumption.
  rewrite parse_dot_field by assumption. cbn [length Nat.eqb app].
  rewrite parse_dot_field by assumption. cbn [length Nat.eqb app].
  rewrite <- (sapp_nil_r (ubtoa d)).
  rewrite parse_dot_field by assumption. reflexivity.
Qed.

Lemma ParseIP_String pv6 ip : is_ip4 ip -> ParseIP pv6 (IP_String ip) = Some ip.
Proof.
  intros H. unfold ParseIP.
  destruct (is_ip4_inv ip H) as (a & b & c & d & E & Ha & Hb & Hc & Hd).
  assert (Hs : ParseAddr_scan pv6 (IP_String ip) (IP_String ip) = Some ip).
  { rewrite E at 2. rewrite IP_String_ip4. rewrite scan_field by assumption.
    apply parseIPv4_String, H. }
  rewrite Hs. subst ip. reflexivity.
Qed.

Lemma IP_String_inj ip1 ip2 :
  is_ip4 ip1 -> is_ip4 ip2 -> IP_String ip1 = IP_String ip2 -> ip1 = ip2.
Proof.
  intros H1 H2 E. apply parseIPv4_String in H1, H2.
  rewrite E in H1. congruence.
Qed.

Lemma digit_of_range c d : digit_of c = Some d -> 0 <= d <= 9.
Proof.
  unfold digit_of. intros H.
  destruct (48 <=? Z.of_N (N_of_ascii c)) eqn:E1; [|discriminate].
  destruct (Z.of_N (N_of_ascii c) <=? 57) eqn:E2; [|discriminate].
  injection H as <-. lia.
Qed.

Lemma parseIPv4_loop_valid s : forall first pd fields val dl ip,
  (length fields <= 3)%nat -> Forall is_byte fields -> is_byte val ->
  parseIPv4_loop s first pd fields val dl = Some ip -> is_ip4 ip.
Proof.
  induction s as [|c s IH]; intros first pd fields val dl ip Hl Hf Hv; cbn [parseIPv4_loop].
  - destruct (length fields <? 3)%nat eqn:E; [discriminate|].
    apply Nat.ltb_ge in E. intros [= <-]. split.
    + rewrite length_app. cbn. lia.
    + apply Forall_app. split; [assumption|]. apply Forall_cons_2; [assumption|apply Forall_nil_2].
  - destruct (digit_of c) as [d|] eqn:Ed.
    + apply digit_of_range in Ed.
      destruct ((dl =? 1) && (val =? 0)); [discriminate|].
      destruct (255 <? val * 10 + d) eqn:E; [discriminate|].
      apply Z.ltb_ge in E. apply IH; try assumption.
      unfold is_byte in *. lia.
    + destruct (Ascii.eqb c "."); [|discriminate].
      destruct (first || match s with "" => true | _ => false end || pd); [discriminate|].
      destruct (length fields =? 3)%nat eqn:E; [discriminate|].
      apply Nat.eqb_neq in E. apply IH.
      * rewrite length_app. cbn. lia.
      * apply Forall_app. split; [assumption|]. apply Forall_cons_2; [assumption|apply Forall_nil_2].
      * unfold is_byte. lia.
Qed.

Lemma parseIPv4_valid s ip : parseIPv4 s = Some ip -> is_ip4 ip.
Proof.
  apply parseIPv4_loop_valid; [cbn; lia | apply Forall_nil_2 | unfold is_byte; lia].
Qed.

Lemma ParseAddr_scan_v4only whole s ip :
  ParseAddr_scan (fun _ => None) whole s = Some ip -> parseIPv4 whole = Some ip.
Proof.
  induction s as [|c s IH]; cbn [ParseAddr_scan]; [discriminate|].
  destruct (Ascii.eqb c "."); [auto|].
  destruct (Ascii.eqb c ":"); [discriminate|].
  destruct (Ascii.eqb c "%"); [discriminate|]. assumption.
Qed.

(** ** Bytes as numbers *)

Lemma leZ_bound l : Forall is_byte l -> 0 <= leZ l < 256 ^ Z.of_nat (length l).
Proof.
  induction 1 as [|b l Hb Hl IH]; cbn [leZ fold_right length].
  - cbn. lia.
  - fold (leZ l). rewrite Nat2Z.inj_succ, Z.pow_succ_r by lia.
    unfold is_byte in Hb. lia.
Qed.

Lemma toZ_leZ ip : IPPool.toZ ip = leZ (rev ip).
Proof.
  induction ip as [|b l IH] using rev_ind; [reflexivity|].
  unfold IPPool.toZ in *. rewrite fold_left_app, rev_app_distr. cbn.
  rewrite IH. unfold leZ. lia.
Qed.

Lemma wrap_int_small x : - 2 ^ 63 <= x < 2 ^ 63 -> IPPool.wrap_int x = x.
Proof. intros H. unfold IPPool.wrap_int. rewrite Z.mod_small by lia. lia. Qed.

Lemma incrementIP_rev_spec l : forall inc,
  Forall is_byte l -> 0 <= inc <= 2 ^ 63 - 256 ->
  Forall is_byte (IPPool.incrementIP_rev l inc)
  /\ length (IPPool.incrementIP_rev l inc) = length l
  /\ leZ (IPPool.incrementIP_rev l inc) = (leZ l + inc) mod 256 ^ Z.of_nat (length l).
Proof.
  induction l as [|b l IH]; intros inc Hf Hinc; cbn [IPPool.incrementIP_rev].
  - repeat split; [apply Forall_nil_2|]. cbn. rewrite Z.mod_1_r. reflexivity.
  - apply Forall_cons in Hf as [Hb Hl].
    destruct (0 <? inc) eqn:E.
    + apply Z.ltb_lt in E.
      rewrite wrap_int_small by (unfold is_byte in Hb; lia).
      assert (Hland : Z.land (b + inc) 255 = (b + inc) mod 256).
      { change 255 with (Z.ones 8). rewrite Z.land_ones by lia. reflexivity. }
      assert (Hshr : Z.shiftr (b + inc) 8 = (b + inc) / 256).
      { rewrite Z.shiftr_div_pow2 by lia. reflexivity. }
      rewrite Hland, Hshr.
      assert (H0 : 0 <= (b + inc) / 256 <= 2 ^ 63 - 256).
      { unfold is_byte in Hb. split; [apply Z.div_pos; lia|].
        apply Z.lt_succ_r, Z.div_lt_upper_bound; lia. }
      destruct (IH _ Hl H0) as (IH1 & IH2 & IH3).
      repeat split.
      * apply Forall_cons_2; [|assumption].
        unfold is_byte. apply Z.mod_pos_bound. lia.
      * cbn [length]. rewrite IH2. reflexivity.
      * cbn [leZ fold_right length]. fold (leZ l).
        fold (leZ (IPPool.incrementIP_rev l ((b + inc) / 256))).
        rewrite IH3, Nat2Z.inj_succ, Z.pow_succ_r by lia.
        pose proof (Z.pow_pos_nonneg 256 (Z.of_nat (length l)) ltac:(lia) ltac:(lia)).
        rewrite (Z.rem_mul_r (b + 256 * leZ l + inc) 256 (256 ^ Z.of_nat (length l))) by lia.
        replace (b + 256 * leZ l + inc) with ((b + inc) + leZ l * 256) by lia.
        rewrite Z.mod_add, Z.div_add by lia.
        replace (leZ l + (b + inc) / 256) with ((b + inc) / 256 + leZ l) by lia.
        reflexivity.
    + apply Z.ltb_ge in E. assert (inc = 0) by lia. subst inc.
      repeat split; [apply Forall_cons_2; assumption|].
      rewrite Z.add_0_r. symmetry. apply Z.mod_small.
      apply (leZ_bound (b :: l)). apply Forall_cons_2; assumption.
Qed.

Lemma incrementIP_spec ip inc :
  is_ip4 ip -> 0 <= inc <= 2 ^ 63 - 256 ->
  is_ip4 (IPPool.incrementIP ip inc)
  /\ IPPool.toZ (IPPool.incrementIP ip inc) = (IPPool.toZ ip + inc) mod 2 ^ 32.
Proof.
  intros [Hl Hf] Hinc. unfold IPPool.incrementIP.
  assert (Hr : Forall is_byte (rev ip)) by (apply Forall_rev; assumption).
  destruct (incrementIP_rev_spec (rev ip) inc Hr Hinc) as (H1 & H2 & H3).
  rewrite length_rev, Hl in H2, H3.
  split; [split|].
  - rewrite length_rev. assumption.
  - apply Forall_rev. assumption.
  - rewrite !toZ_leZ, rev_involutive, H3. reflexivity.
Qed.

Lemma toZ_bound ip : is_ip4 ip -> 0 <= IPPool.toZ ip < 2 ^ 32.
Proof.
  intros [Hl Hf]. rewrite toZ_leZ.
  pose proof (leZ_bound (rev ip) (Forall_rev Hf)) as H.
  rewrite length_rev, Hl in H. exact H.
Qed.

Lemma toZ_inj ip1 ip2 :
  is_ip4 ip1 -> is_ip4 ip2 -> IPPool.toZ ip1 = IPPool.toZ ip2 -> ip1 = ip2.
Proof.
  intros H1 H2.
  destruct (is_ip4_inv _ H1) as (a & b & c & d & -> & Ha & Hb & Hc & Hd).
  destruct (is_ip4_inv _ H2) as (a' & b' & c' & d' & -> & Ha' & Hb' & Hc' & Hd').
  unfold IPPool.toZ. cbn [fold_left]. unfold is_byte in *. intros E.
  assert (d = d') by lia. assert (c = c') by lia.
  assert (b = b') by lia. assert (a = a') by lia. congruence.
Qed.

(** ** Network masks *)

Lemma byte_mask_table :
  forallb (fun y => forallb (byte_mask_check y) mask_bytes)
          (map Z.of_nat (seq 0 256)) = true.
Proof. vm_compute. reflexivity. Qed.

Lemma byte_mask_facts y mb :
  is_byte y -> In mb mask_bytes ->
  Z.land y mb = y - y mod (256 - mb)
  /\ Z.lor (Z.land y mb) (Z.lxor mb 255) = y - y mod (256 - mb) + (255 - mb).
Proof.
  intros Hy Hm. pose proof byte_mask_table as T.
  rewrite forallb_forall in T.
  assert (Hin : In y (map Z.of_nat (seq 0 256))).
  { rewrite <- (Z2Nat.id y) by (unfold is_byte in Hy; lia).
    apply in_map, in_seq. unfold is_byte in Hy. lia. }
  specialize (T y Hin). rewrite forallb_forall in T. specialize (T mb Hm).
  unfold byte_mask_check in T. apply andb_true_iff in T as [T1 T2].
  apply Z.eqb_eq in T1, T2. auto.
Qed.

Ltac in_mask_bytes := unfold mask_bytes; repeat (first [left; reflexivity | right]).

Ltac byte_side := unfold is_byte in *; Z.div_mod_to_equations; lia.

Ltac mask_rw :=
  repeat match goal with
  | |- context [Z.lor (Z.land ?y ?mb) (Z.lxor ?mb 255)] =>
      rewrite (proj2 (byte_mask_facts y mb ltac:(assumption) ltac:(in_mask_bytes)))
  end;
  repeat match goal with
  | |- context [Z.land ?y ?mb] =>
      lazymatch y with
      | context [Z.land] => fail
      | _ => rewrite (proj1 (byte_mask_facts y mb ltac:(byte_side) ltac:(in_mask_bytes)))
      end
  end.

Ltac cidr_case n :=
  let m := eval vm_compute in (CIDRMask_loop 4 n) in
  let pw := eval vm_compute in (2 ^ (32 - n)) in
  intros ip Hip;
  destruct (is_ip4_inv ip Hip) as (a & b & c & d & -> & Ha & Hb & Hc & Hd);
  change (CIDRMask_loop 4 n) with m; change (2 ^ (32 - n)) with pw;
  cbv zeta; cbn [IP_Mask zip_with];
  split; [|split; [|split; [|split; [|split]]]];
  [ apply is_ip4_intro; mask_rw; byte_side
  | mask_rw; repeat (apply (f_equal2 cons); [byte_side|]); reflexivity
  | apply is_ip4_intro; mask_rw; byte_side
  | unfold IPPool.toZ; cbn [fold_left]; mask_rw; byte_side
  | vm_compute; reflexivity
  | let x := fresh "x" in let Hx := fresh "Hx" in
    intros x Hx;
    destruct (is_ip4_inv x Hx) as (x1 & x2 & x3 & x4 & -> & Hx1 & Hx2 & Hx3 & Hx4);
    unfold IPPool.toZ, Contains; cbn [fold_left To4 length Nat.eqb negb net_IP net_Mask zip zip_with forallb fst snd];
    rewrite !andb_true_iff, !Z.eqb_eq; mask_rw; intros Hr; byte_side ].

Lemma cidr_ok_all n : 0 <= n <= 32 -> cidr_ok n.
Proof.
  intros H. rewrite <- (Z2Nat.id n) by lia.
  assert (Hk : (Z.to_nat n <= 32)%nat) by lia.
  generalize dependent (Z.to_nat n). clear. intros k Hk.
  do 33 (destruct k as [|k];
         [ match goal with
           | |- cidr_ok ?n => let n' := eval vm_compute in n in
                              change (cidr_ok n'); cidr_case n'
           end | ]).
  lia.
Qed.

End NetFacts.

(** ** The shape of a pool *)

Section PoolFacts.
Import GoNet IPPool.
Variable parseIPv6 : string -> option IP.

Lemma pool_geom_set p m net bc k :
  pool_geom p net bc k -> pool_geom (set_allocated p m) net bc k.
Proof. exact (fun H => H). Qed.

Lemma ParseCIDR_inv s ipnet :
  ParseCIDR s = Some ipnet ->
  exists ip n, is_ip4 ip /\ 0 <= n <= 32
    /\ ipnet = mkIPNet (IP_Mask ip (CIDRMask_loop 4 n)) (CIDRMask_loop 4 n).
Proof.
  unfold ParseCIDR. destruct (split_slash s) as [[addr mask]|]; [|discriminate].
  destruct (ParseAddr_scan _ addr addr) as [ip|] eqn:Ea; [|discriminate].
  apply ParseAddr_scan_v4only, parseIPv4_valid in Ea.
  destruct (dtoi mask) as [[n i] ok].
  destruct (negb ok || negb (i =? Z.of_nat (String.length mask)) || (n <? 0) || (32 <? n)) eqn:E;
    [discriminate|].
  apply orb_false_iff in E as [E E4]. apply orb_false_iff in E as [E E3].
  apply Z.ltb_ge in E3, E4.
  unfold CIDRMask. cbn [Z.eqb orb negb].
  replace ((n <? 0) || (32 <? n)) with false
    by (symmetry; apply orb_false_iff; split; apply Z.ltb_ge; lia).
  intros [= <-]. exists ip, n. split; [assumption|]. split; [lia|reflexivity].
Qed.

Lemma lookupB_None (m : gmap string bool) s :
  (forall s b, m !! s = Some b -> b = true) -> lookupB m s = false -> m !! s = None.
Proof.
  unfold lookupB. intros Hall H. destruct (m !! s) as [b|] eqn:E; [|reflexivity].
  apply Hall in E. subst b. discriminate.
Qed.

Lemma lookupB_true (m : gmap string bool) s :
  lookupB m s = true -> m !! s = Some true.
Proof.
  unfold lookupB. destruct (m !! s) as [[|]|]; cbn; congruence.
Qed.

Lemma geom_server p net bc k :
  pool_geom p net bc k ->
  is_ip4 (incrementIP net 1) /\ toZ (incrementIP net 1) = toZ net + 1.
Proof.
  intros (Hn & Hb & Hk & Hbc & _).
  destruct (incrementIP_spec net 1 Hn ltac:(lia)) as [H1 H2].
  split; [assumption|]. rewrite H2.
  pose proof (toZ_bound _ Hn). pose proof (toZ_bound _ Hb).
  assert (8 <= 2 ^ k) by (change 8 with (2 ^ 3); apply Z.pow_le_mono_r; lia).
  apply Z.mod_small. lia.
Qed.

Lemma pow2_ge8 k : 3 <= k -> 8 <= 2 ^ k.
Proof. intros. change 8 with (2 ^ 3). apply Z.pow_le_mono_r; lia. Qed.

Lemma geom_strings p net bc k :
  pool_geom p net bc k ->
  networkAddress p <> serverIP p /\ broadcastAddress p <> serverIP p
  /\ networkAddress p <> broadcastAddress p.
Proof.
  intros G. pose proof (geom_server _ _ _ _ G) as [Hs1 Hs2].
  destruct G as (Hn & Hb & Hk & Hbc & _ & _ & -> & -> & -> & _).
  pose proof (pow2_ge8 k ltac:(lia)).
  repeat split; intros E; apply IP_String_inj in E; try assumption;
    apply (f_equal toZ) in E; lia.
Qed.

Lemma NewIPPool_inv cidr p : NewIPPool cidr = Ok p -> pool_inv p.
Proof.
  unfold NewIPPool. destruct (ParseCIDR cidr) as [ipnet|] eqn:Ec; [|discriminate].
  destruct (ParseCIDR_inv _ _ Ec) as (ip & n & Hip & Hn & ->).
  destruct (cidr_ok_all n Hn ip Hip) as (Hnet & Hidem & Hbc & Hval & Hsz & Hcont).
  cbn [net_IP net_Mask].
  destruct (To4 _); [|discriminate].
  rewrite Hsz, !Hidem. destruct (32 - n <? 3) eqn:E3; [discriminate|]. apply Z.ltb_ge in E3.
  set (m := CIDRMask_loop 4 n) in *. set (net := IP_Mask ip m) in *.
  set (bc := zip_with (fun b m => Z.lor b (Z.lxor m 255)) net m) in *.
  intros [= <-].
  match goal with |- pool_inv ?q => assert (G : pool_geom q net bc (32 - n)) end.
  { unfold pool_geom.
    cbn [ipNet net_IP net_Mask networkAddress broadcastAddress serverIP totalHosts].
    fold net.
    refine (conj Hnet (conj Hbc (conj _ (conj Hval (conj Hidem (conj Hcont
              (conj eq_refl (conj eq_refl (conj eq_refl _))))))))); [lia|].
    rewrite Z.shiftl_1_l. reflexivity. }
  split; [eauto|].
  pose proof (geom_strings _ _ _ _ G) as (E1 & E2 & _).
  unfold alloc_ok. cbn [allocated networkAddress broadcastAddress serverIP] in *.
  split; [|split; [|split]].
  - intros s b H. apply lookup_singleton_Some in H as [_ <-]. reflexivity.
  - apply lookup_singleton_eq.
  - apply lookup_singleton_ne. intros E. apply E1. symmetry. exact E.
  - apply lookup_singleton_ne. intros E. apply E2. symmetry. exact E.
Qed.

(** ** The scan of [AllocateIP] *)

Lemma AllocateIP_loop_spec alloc bc : is_ip4 bc ->
  forall fuel cur, is_ip4 cur -> toZ cur <= toZ bc ->
  toZ bc - toZ cur < Z.of_nat fuel ->
  match AllocateIP_loop fuel alloc cur (Some bc) with
  | Ok (s, m) =>
      exists x, is_ip4 x /\ toZ cur <= toZ x < toZ bc /\ s = IP_String x
                /\ lookupB alloc s = false /\ m = <[ s := true ]> alloc
  | Err e =>
      e = ErrExhausted
      /\ forall x, is_ip4 x -> toZ cur <= toZ x < toZ bc ->
                   lookupB alloc (IP_String x) = true
  | Diverges => False
  end.
Proof.
  intros Hbc. induction fuel as [|fuel IH]; intros cur Hcur Hle Hfuel; [lia|].
  cbn [AllocateIP_loop IP_Equal].
  destruct (bool_decide (cur = bc)) eqn:Eq.
  - apply bool_decide_eq_true in Eq. subst cur. split; [reflexivity|]. intros; lia.
  - apply bool_decide_eq_false in Eq.
    assert (Hlt : toZ cur < toZ bc).
    { destruct (Z.eq_dec (toZ cur) (toZ bc)) as [E|]; [|lia].
      apply toZ_inj in E; try assumption. contradiction. }
    destruct (lookupB alloc (IP_String cur)) eqn:El; cbn [negb].
    + destruct (incrementIP_spec cur 1 Hcur ltac:(lia)) as [Hn1 Hn2].
      pose proof (toZ_bound _ Hbc). pose proof (toZ_bound _ Hcur).
      rewrite Z.mod_small in Hn2 by lia.
      specialize (IH (incrementIP cur 1) Hn1 ltac:(lia) ltac:(lia)).
      destruct (AllocateIP_loop fuel alloc (incrementIP cur 1) (Some bc)) as [[s m]|e|].
      * destruct IH as (x & Hx & Hr & Hs); exists x.
        split; [assumption|]. split; [lia|assumption].
      * destruct IH as [-> IH]. split; [reflexivity|]. intros x Hx Hr.
        destruct (Z.eq_dec (toZ x) (toZ cur)) as [E|].
        -- apply toZ_inj in E; try assumption. subst x. assumption.
        -- apply IH; [assumption|lia].
      * assumption.
    + exists cur. split; [assumption|]. split; [lia|]. auto.
Qed.

Lemma AllocateIP_spec p net bc k :
  pool_geom p net bc k ->
  match AllocateIP parseIPv6 p with
  | Ok (s, p') =>
      exists x, is_ip4 x /\ toZ net + 2 <= toZ x < toZ bc /\ s = IP_String x
                /\ lookupB (allocated p) s = false
                /\ p' = set_allocated p (<[ s := true ]> (allocated p))
  | Err e =>
      e = ErrExhausted
      /\ forall x, is_ip4 x -> toZ net + 2 <= toZ x < toZ bc ->
                   lookupB (allocated p) (IP_String x) = true
  | Diverges => False
  end.
Proof.
  intros G. destruct G as (Hn & Hb & Hk & Hbc & Hmask & _ & _ & Hbs & _).
  unfold AllocateIP. rewrite Hmask, Hbs, ParseIP_String by assumption.
  destruct (incrementIP_spec net 2 Hn ltac:(lia)) as [Hc1 Hc2].
  pose proof (toZ_bound _ Hn). pose proof (toZ_bound _ Hb).
  pose proof (pow2_ge8 k ltac:(lia)).
  rewrite Z.mod_small in Hc2 by lia.
  assert (Hfuel : loop_bound (incrementIP net 2) (Some bc)
                  = S (Z.to_nat (toZ bc - toZ (incrementIP net 2)))).
  { unfold loop_bound. destruct Hb as [-> _]. destruct Hc1 as [-> _].
    cbn [Nat.eqb andb]. rewrite Z.mod_small by lia. reflexivity. }
  rewrite Hfuel.
  pose proof (AllocateIP_loop_spec (allocated p) bc Hb
                (S (Z.to_nat (toZ bc - toZ (incrementIP net 2))))
                (incrementIP net 2) Hc1 ltac:(lia) ltac:(lia)) as L.
  destruct (AllocateIP_loop _ _ _ _) as [[s m]|e|].
  - destruct L as (x & Hx & Hr & Hs & Hl & ->). exists x.
    split; [assumption|]. split; [lia|]. auto.
  - destruct L as [-> L]. split; [reflexivity|]. intros x Hx Hr. apply L; [assumption|lia].
  - assumption.
Qed.
End PoolFacts.

(** ** Every call keeps the shape of the pool *)

Section PoolCalls.
Import GoNet IPPool.
Variable parseIPv6 : string -> option IP.

Lemma String_eqb_false (a b : string) : String.eqb a b = false -> a <> b.
Proof. apply String.eqb_neq. Qed.

Lemma AllocateIP_Ok p s p' :
  pool_inv p -> AllocateIP parseIPv6 p = Ok (s, p') ->
  pool_inv p'
  /\ (s <> networkAddress p /\ s <> broadcastAddress p /\ s <> serverIP p)
  /\ allocated p !! s = None
  /\ p' = set_allocated p (<[ s := true ]> (allocated p)).
Proof.
  intros [(net & bc & k & G) A] E.
  pose proof (AllocateIP_spec parseIPv6 p net bc k G) as S. rewrite E in S.
  destruct S as (x & Hx & Hr & -> & Hl & ->).
  pose proof (geom_server _ _ _ _ G) as [Hs1 Hs2].
  assert (Hne : IP_String x <> networkAddress p /\ IP_String x <> broadcastAddress p
                /\ IP_String x <> serverIP p).
  { destruct G as (Hn & Hb & Hk & Hbc & _ & _ & -> & -> & -> & _).
    split; [|split]; intros Eq; apply IP_String_inj in Eq; try assumption;
      apply (f_equal toZ) in Eq; lia. }
  destruct A as (A1 & A2 & A3 & A4).
  assert (Hnone : allocated p !! IP_String x = None) by (apply lookupB_None; assumption).
  split; [|split; [assumption|split; [assumption|reflexivity]]].
  split; [exists net, bc, k; exact G|].
  destruct Hne as (N1 & N2 & N3).
  unfold alloc_ok. cbn [set_allocated allocated serverIP networkAddress broadcastAddress].
  split; [|split; [|split]].
  - intros s b H. apply lookup_insert_Some in H as [[_ <-]|[_ H]]; [reflexivity|eauto].
  - rewrite lookup_insert_ne by assumption. assumption.
  - rewrite lookup_insert_ne by assumption. assumption.
  - rewrite lookup_insert_ne by assumption. assumption.
Qed.

Lemma AllocateIP_returns p : pool_inv p -> AllocateIP parseIPv6 p <> Diverges.
Proof.
  intros [(net & bc & k & G) _] E.
  pose proof (AllocateIP_spec parseIPv6 p net bc k G) as S. rewrite E in S. exact S.
Qed.

Lemma AllocateSpecificIP_Ok p ip p' :
  pool_inv p -> AllocateSpecificIP parseIPv6 p ip = Ok p' ->
  pool_inv p' /\ allocated p !! ip = None
  /\ p' = set_allocated p (<[ ip := true ]> (allocated p)).
Proof.
  intros [G (A1 & A2 & A3 & A4)]. unfold AllocateSpecificIP.
  destruct (ParseIP parseIPv6 ip) as [parsed|]; [|discriminate].
  destruct (negb (Contains (ipNet p) parsed)); [discriminate|].
  destruct (String.eqb ip (networkAddress p)) eqn:E1; [discriminate|].
  destruct (String.eqb ip (broadcastAddress p)) eqn:E2; [discriminate|].
  destruct (String.eqb ip (serverIP p)) eqn:E3; [discriminate|].
  destruct (lookupB (allocated p) ip) eqn:E4; [discriminate|].
  apply String_eqb_false in E1, E2, E3. apply lookupB_None in E4; [|assumption].
  intros [= <-]. split; [|split; [assumption|reflexivity]].
  split; [exact G|].
  unfold alloc_ok. cbn [set_allocated allocated serverIP networkAddress broadcastAddress].
  split; [|split; [|split]].
  - intros s b H. apply lookup_insert_Some in H as [[_ <-]|[_ H]]; [reflexivity|eauto].
  - rewrite lookup_insert_ne by assumption. assumption.
  - rewrite lookup_insert_ne by assumption. assumption.
  - rewrite lookup_insert_ne by assumption. assumption.
Qed.

Lemma ReleaseIP_Ok p ip p' :
  pool_inv p -> ReleaseIP parseIPv6 p ip = Ok p' ->
  pool_inv p' /\ allocated p !! ip = Some true /\ ip <> serverIP p
  /\ p' = set_allocated p (delete ip (allocated p)).
Proof.
  intros [G (A1 & A2 & A3 & A4)]. unfold ReleaseIP.
  destruct (ParseIP parseIPv6 ip) as [parsed|]; [|discriminate].
  destruct (negb (Contains (ipNet p) parsed)); [discriminate|].
  destruct (lookupB (allocated p) ip) eqn:E4; [|discriminate]. cbn [negb].
  destruct (String.eqb ip (serverIP p)) eqn:E3; [discriminate|].
  apply String_eqb_false in E3. apply lookupB_true in E4.
  intros [= <-]. split; [|split; [assumption|split; [assumption|reflexivity]]].
  split; [exact G|].
  unfold alloc_ok. cbn [set_allocated allocated serverIP networkAddress broadcastAddress].
  split; [|split; [|split]].
  - intros s b H. apply lookup_delete_Some in H as [_ H]. eauto.
  - rewrite lookup_delete_ne by assumption. assumption.
  - apply lookup_delete_None. auto.
  - apply lookup_delete_None. auto.
Qed.

Lemma after_inv p c : pool_inv p -> pool_inv (after parseIPv6 p c).
Proof.
  intros I. destruct c as [|ip|ip]; cbn [after].
  - destruct (AllocateIP parseIPv6 p) as [[s p']|e|] eqn:E; try assumption.
    apply (AllocateIP_Ok _ _ _ I E).
  - destruct (AllocateSpecificIP parseIPv6 p ip) as [p'|e|] eqn:E; try assumption.
    apply (AllocateSpecificIP_Ok _ _ _ I E).
  - destruct (ReleaseIP parseIPv6 p ip) as [p'|e|] eqn:E; try assumption.
    apply (ReleaseIP_Ok _ _ _ I E).
Qed.

Lemma reachable_inv p : reachable parseIPv6 p -> pool_inv p.
Proof.
  intros (cidr & p0 & calls & H0 & ->). apply NewIPPool_inv in H0.
  revert p0 H0. induction calls as [|c calls IH]; intros p0 H0; [exact H0|].
  cbn [fold_left]. apply IH, after_inv, H0.
Qed.

Lemma reachable_after p c :
  reachable parseIPv6 p -> reachable parseIPv6 (after parseIPv6 p c).
Proof.
  intros (cidr & p0 & calls & H0 & ->).
  exists cidr, p0, (calls ++ [c]). split; [assumption|].
  rewrite fold_left_app. reflexivity.
Qed.

(** ** The errors of [ReleaseIP] on the three structural addresses *)

Lemma ReleaseIP_structural p :
  pool_inv p ->
  ReleaseIP parseIPv6 p (serverIP p) = Err (ErrReleaseServer (serverIP p))
  /\ ReleaseIP parseIPv6 p (networkAddress p) = Err (ErrNotAllocated (networkAddress p))
  /\ ReleaseIP parseIPv6 p (broadcastAddress p) = Err (ErrNotAllocated (broadcastAddress p)).
Proof.
  intros [(net & bc & k & G) (A1 & A2 & A3 & A4)].
  pose proof (geom_server _ _ _ _ G) as [Hs1 Hs2].
  destruct G as (Hn & Hb & Hk & Hbc & Hm & Hc & En & Eb & Es & Et).
  pose proof (pow2_ge8 k ltac:(lia)).
  unfold ReleaseIP.
  rewrite Es, En, Eb in *.
  rewrite !ParseIP_String by assumption.
  rewrite !Hc by (assumption || lia). cbn [negb].
  unfold lookupB. rewrite A2, A3, A4. cbn [default negb].
  rewrite String.eqb_refl. auto.
Qed.
End PoolCalls.

(** ** The claims about the IP pool *)

Section PoolClaims.
Import GoNet IPPool.
Variable parseIPv6 : string -> option IP.

(** C2.  In a pool built by [NewIPPool] from an IPv4 network (which
    [NewIPPool] accepts only with prefix /29 or wider) and brought to any
    state by any sequence of calls, [AllocateIP] returns, and an address
    returned by a successful [AllocateIP] is not the network address, not
    the broadcast address and not the server address. *)
Theorem C2_allocate_avoids_reserved p :
  reachable parseIPv6 p ->
  AllocateIP parseIPv6 p <> Diverges
  /\ forall s p',
       AllocateIP parseIPv6 p = Ok (s, p') ->
       s <> networkAddress p /\ s <> broadcastAddress p /\ s <> serverIP p.
Proof.
  intros R. apply reachable_inv in R. split.
  - apply AllocateIP_returns, R.
  - intros s p' E. apply (AllocateIP_Ok parseIPv6 p s p' R E).
Qed.

(** C3, as amended.  In every reachable pool the server address is marked
    allocated while the network and broadcast addresses are not; and
    [ReleaseIP] fails on each of the three, so the pool stays as it is. *)
Theorem C3_structural_addresses p :
  reachable parseIPv6 p ->
  IsAllocated p (serverIP p) = true
  /\ IsAllocated p (networkAddress p) = false
  /\ IsAllocated p (broadcastAddress p) = false
  /\ ReleaseIP parseIPv6 p (serverIP p) = Err (ErrReleaseServer (serverIP p))
  /\ ReleaseIP parseIPv6 p (networkAddress p)
     = Err (ErrNotAllocated (networkAddress p))
  /\ ReleaseIP parseIPv6 p (broadcastAddress p)
     = Err (ErrNotAllocated (broadcastAddress p))
  /\ after parseIPv6 p (CallReleaseIP (serverIP p)) = p
  /\ after parseIPv6 p (CallReleaseIP (networkAddress p)) = p
  /\ after parseIPv6 p (CallReleaseIP (broadcastAddress p)) = p.
Proof.
  intros R. apply reachable_inv in R.
  destruct (ReleaseIP_structural parseIPv6 p R) as (R1 & R2 & R3).
  destruct R as [_ (A1 & A2 & A3 & A4)].
  unfold IsAllocated, lookupB. rewrite A2, A3, A4. cbn [default after].
  rewrite R1, R2, R3. repeat (split; [reflexivity|]). reflexivity.
Qed.

(** C4.  The pool of "10.0.0.0/29" has 6 usable addresses, 5 of them
    available after construction; five calls of [AllocateIP] succeed with
    five different addresses and the sixth reports exhaustion. *)
Theorem C4_pool_slash29 :
  exists p0 p5,
    NewIPPool "10.0.0.0/29" = Ok p0
    /\ GetTotalIPs p0 = 6
    /\ GetAvailableCount p0 = 5
    /\ allocate_n parseIPv6 5 p0
       = Some (["10.0.0.2"; "10.0.0.3"; "10.0.0.4"; "10.0.0.5"; "10.0.0.6"], p5)
    /\ NoDup ["10.0.0.2"; "10.0.0.3"; "10.0.0.4"; "10.0.0.5"; "10.0.0.6"]
    /\ AllocateIP parseIPv6 p5 = Err ErrExhausted.
Proof.
  match eval vm_compute in (NewIPPool "10.0.0.0/29") with
  | Ok ?p => exists p;
      match eval vm_compute in (allocate_n parseIPv6 5 p) with
      | Some (_, ?q) => exists q
      end
  end.
  split; [vm_compute; reflexivity|].
  split; [vm_compute; reflexivity|].
  split; [vm_compute; reflexivity|].
  split; [vm_compute; reflexivity|].
  split; [|vm_compute; reflexivity].
  apply (bool_decide_unpack _). vm_compute. exact I.
Qed.

Lemma allocate_n_size n : forall p ips p1,
  pool_inv p -> allocate_n parseIPv6 n p = Some (ips, p1) ->
  pool_inv p1
  /\ size (allocated p1) = (size (allocated p) + n)%nat
  /\ length ips = n /\ totalHosts p1 = totalHosts p.
Proof.
  induction n as [|n IH]; intros p ips p1 I; cbn [allocate_n].
  - intros [= <- <-]. repeat split; [apply I..|lia].
  - destruct (AllocateIP parseIPv6 p) as [[s q]|e|] eqn:E; try discriminate.
    destruct (AllocateIP_Ok parseIPv6 _ _ _ I E) as (Iq & _ & Hnone & Hq).
    destruct (allocate_n parseIPv6 n q) as [[l p2]|] eqn:En; [|discriminate].
    intros [= <- <-]. destruct (IH _ _ _ Iq En) as (I2 & Hs & Hl & Ht).
    split; [assumption|]. rewrite Hs, Ht, Hq.
    cbn [set_allocated allocated totalHosts length].
    rewrite map_size_insert_None by assumption. repeat split; lia.
Qed.

Lemma release_all_size l : forall p p2,
  pool_inv p -> release_all parseIPv6 l p = Some p2 ->
  size (allocated p) = (size (allocated p2) + length l)%nat
  /\ totalHosts p2 = totalHosts p.
Proof.
  induction l as [|s l IH]; intros p p2 I; cbn [release_all].
  - intros [= <-]. cbn. split; [lia|reflexivity].
  - destruct (ReleaseIP parseIPv6 p s) as [q|e|] eqn:E; try discriminate.
    destruct (ReleaseIP_Ok parseIPv6 _ _ _ I E) as (Iq & Hsome & _ & Hq).
    intros H2. destruct (IH _ _ Iq H2) as (Hs & Ht).
    rewrite Ht, Hq. rewrite Hq in Hs.
    cbn [set_allocated allocated totalHosts length] in *.
    rewrite map_size_delete_Some in Hs by eauto.
    assert (size (allocated p) <> 0%nat).
    { intros Z0. apply map_size_empty_inv in Z0. rewrite Z0 in Hsome.
      rewrite lookup_empty in Hsome. discriminate. }
    split; [lia|reflexivity].
Qed.

(** C5.  From any reachable pool, [n] successful calls of [AllocateIP]
    followed by a successful [ReleaseIP] of each of the [n] addresses they
    returned (in any order) leave [GetAvailableCount] at the value it had
    before the allocations. *)
Theorem C5_allocate_release_count p n ips p1 released p2 :
  reachable parseIPv6 p ->
  allocate_n parseIPv6 n p = Some (ips, p1) ->
  Permutation ips released ->
  release_all parseIPv6 released p1 = Some p2 ->
  GetAvailableCount p2 = GetAvailableCount p.
Proof.
  intros R Ha Hp Hr. apply reachable_inv in R.
  destruct (allocate_n_size _ _ _ _ R Ha) as (I1 & Hs1 & Hl & Ht1).
  destruct (release_all_size _ _ _ I1 Hr) as (Hs2 & Ht2).
  apply Permutation_length in Hp.
  unfold GetAvailableCount. rewrite Ht2, Ht1. lia.
Qed.

Lemma after_totalHosts p c :
  pool_inv p -> totalHosts (after parseIPv6 p c) = totalHosts p.
Proof.
  intros I. destruct c as [|ip|ip]; cbn [after].
  - destruct (AllocateIP parseIPv6 p) as [[s p']|e|] eqn:E; try reflexivity.
    destruct (AllocateIP_Ok parseIPv6 _ _ _ I E) as (_ & _ & _ & ->). reflexivity.
  - destruct (AllocateSpecificIP parseIPv6 p ip) as [p'|e|] eqn:E; try reflexivity.
    destruct (AllocateSpecificIP_Ok parseIPv6 _ _ _ I E) as (_ & _ & ->). reflexivity.
  - destruct (ReleaseIP parseIPv6 p ip) as [p'|e|] eqn:E; try reflexivity.
    destruct (ReleaseIP_Ok parseIPv6 _ _ _ I E) as (_ & _ & _ & ->). reflexivity.
Qed.

(** C10.  In every reachable pool the available and allocated counts add
    up to the total; this still holds after any further call, whether it
    succeeds or fails, and the total does not move.  The server address
    always holds one entry of the allocation map; the network and
    broadcast addresses never have an entry, and the total, 2^k - 2 for k
    host bits, leaves them out as well. *)
Theorem C10_counts_add_up p :
  reachable parseIPv6 p ->
  GetAvailableCount p + GetAllocatedCount p = GetTotalIPs p
  /\ (forall c,
        GetAvailableCount (after parseIPv6 p c)
        + GetAllocatedCount (after parseIPv6 p c)
        = GetTotalIPs (after parseIPv6 p c)
        /\ GetTotalIPs (after parseIPv6 p c) = GetTotalIPs p)
  /\ allocated p !! serverIP p = Some true
  /\ allocated p !! networkAddress p = None
  /\ allocated p !! broadcastAddress p = None
  /\ exists k, 3 <= k <= 32 /\ GetTotalIPs p = 2 ^ k - 2.
Proof.
  intros R. apply reachable_inv in R.
  split; [unfold GetAvailableCount, GetAllocatedCount, GetTotalIPs; lia|].
  split.
  - intros c. split; [unfold GetAvailableCount, GetAllocatedCount, GetTotalIPs; lia|].
    apply after_totalHosts, R.
  - destruct R as [(net & bc & k & G) (A1 & A2 & A3 & A4)].
    repeat (split; [assumption|]). exists k.
    destruct G as (_ & _ & Hk & _ & _ & _ & _ & _ & _ & Ht). auto.
Qed.
End PoolClaims.

Section PoolExamples.
Import GoNet IPPool.

(** A pool of "10.0.0.0/29" after a few calls, used to instantiate the
    theorems above. *)
Lemma pool29_used_reachable : IPPool.reachable no_ipv6 pool29_used.
Proof.
  exists "10.0.0.0/29", pool29,
    [CallAllocateIP; CallAllocateSpecificIP "10.0.0.4"; CallReleaseIP "10.0.0.2";
     CallAllocateIP].
  split; vm_compute; reflexivity.
Defined.

Lemma C2_witness :
  AllocateIP no_ipv6 pool29_used = Ok ("10.0.0.3", pool29_next)
  /\ "10.0.0.3" <> networkAddress pool29_used
  /\ "10.0.0.3" <> broadcastAddress pool29_used
  /\ "10.0.0.3" <> serverIP pool29_used.
Proof.
  assert (E : AllocateIP no_ipv6 pool29_used = Ok ("10.0.0.3", pool29_next)).
  { vm_compute. reflexivity. }
  split; [exact E|].
  exact (proj2 (C2_allocate_avoids_reserved no_ipv6 pool29_used pool29_used_reachable)
               "10.0.0.3" pool29_next E).
Defined.

(** C3 as the specification words it fails on the freshly built pool of
    "10.0.0.0/29": neither the network nor the broadcast address is
    marked allocated. *)
Lemma C3_counterexample :
  NewIPPool "10.0.0.0/29" = Ok pool29
  /\ networkAddress pool29 = "10.0.0.0"
  /\ broadcastAddress pool29 = "10.0.0.7"
  /\ IsAllocated pool29 "10.0.0.0" = false
  /\ IsAllocated pool29 "10.0.0.7" = false.
Proof. repeat split; vm_compute; reflexivity. Qed.

Lemma C3_witness :
  IsAllocated pool29_used (serverIP pool29_used) = true
  /\ IsAllocated pool29_used (networkAddress pool29_used) = false
  /\ IsAllocated pool29_used (broadcastAddress pool29_used) = false.
Proof.
  pose proof (C3_structural_addresses no_ipv6 pool29_used pool29_used_reachable) as H.
  tauto.
Defined.

Lemma C5_witness : GetAvailableCount pool29_back = GetAvailableCount pool29_used.
Proof.
  apply (C5_allocate_release_count no_ipv6 pool29_used 2
           ["10.0.0.3"; "10.0.0.5"] pool29_after2 ["10.0.0.5"; "10.0.0.3"]).
  - exact pool29_used_reachable.
  - vm_compute. reflexivity.
  - apply perm_swap.
  - vm_compute. reflexivity.
Defined.

Lemma C10_witness :
  GetAvailableCount pool29_used + GetAllocatedCount pool29_used
  = GetTotalIPs pool29_used.
Proof.
  exact (proj1 (C10_counts_add_up no_ipv6 pool29_used pool29_used_reachable)).
Defined.
End PoolExamples.

(** ** The create-client handler *)

Section HandlerClaims.
Import GoNet IPPool.
Context {PS : API.Persistence}.
Variable parseIPv6 : string -> option IP.

(** Releasing the address that [AllocateIP] has just handed out succeeds
    and gives back the pool as it was before the allocation. *)
Lemma AllocateIP_ReleaseIP p s p1 :
  pool_inv p -> AllocateIP parseIPv6 p = Ok (s, p1) ->
  ReleaseIP parseIPv6 p1 s = Ok p.
Proof.
  intros I E. pose proof I as [(net & bc & k & G) A].
  pose proof (AllocateIP_spec parseIPv6 p net bc k G) as S. rewrite E in S.
  destruct S as (x & Hx & Hr & -> & Hl & ->).
  destruct (AllocateIP_Ok parseIPv6 p _ _ I E) as (_ & (_ & _ & Hns) & Hnone & _).
  destruct G as (Hn & Hb & Hk & Hbc & Hm & Hc & En & Eb & Es & Et).
  unfold ReleaseIP. rewrite ParseIP_String by assumption.
  cbn [set_allocated ipNet allocated serverIP].
  rewrite Hc by (assumption || lia). cbn [negb].
  unfold lookupB. rewrite lookup_insert_eq. cbn [default negb].
  rewrite (proj2 (String.eqb_neq _ _) Hns).
  rewrite delete_insert_eq, delete_id by assumption.
  destruct p. reflexivity.
Qed.

(** C8.  When the pool has handed out [clientIP] and the store then
    refuses the row, the handler answers 500 "Failed to create client"
    and leaves the pool exactly as it was before the allocation, so
    [clientIP] is free again.  When the store accepts the row and
    [AddPeer] then fails, the handler still answers 201 with the stored
    row, and keeps both the row and the allocation. *)
Theorem C8_create_client_rollback name keys write_ok w clientIP pool1 :
  reachable parseIPv6 (API.w_pool w) ->
  AllocateIP parseIPv6 (API.w_pool w) = Ok (clientIP, pool1) ->
  let client :=
    API.mkClient 0 name (API.kp_PublicKey keys) (API.kp_PrivateKey keys)
                 clientIP true 0 in
  (API.db_CreateClient (API.w_db w) client = None ->
     API.CreateClient parseIPv6 (inr name) (Some keys) write_ok w
     = Some (API.JSON API.StatusInternalServerError
               (API.ErrorResponse "Failed to create client"), w)
     /\ ReleaseIP parseIPv6 pool1 clientIP = Ok (API.w_pool w)
     /\ IsAllocated pool1 clientIP = true
     /\ IsAllocated (API.w_pool w) clientIP = false)
  /\ (forall db1 row e,
        API.db_CreateClient (API.w_db w) client = Some (db1, row) ->
        WireGuard.AddPeer (API.w_file w)
          (WireGuard.mkPeer (API.kp_PublicKey keys) [clientIP +:+ "/32"] "" 0)
          write_ok = Err e ->
        API.CreateClient parseIPv6 (inr name) (Some keys) write_ok w
        = Some (API.JSON API.StatusCreated
                  (API.Created
                     (API.mkCreateClientResponse (API.ID row) (API.Name row)
                        (API.PublicKey row) (API.IPAddress row)
                        (API.Enabled row) (API.CreatedAt row))),
                API.mkWorld pool1 db1 (API.w_file w))
        /\ IsAllocated pool1 clientIP = true).
Proof.
  intros R E client. apply reachable_inv in R.
  pose proof (AllocateIP_ReleaseIP _ _ _ R E) as Hrel.
  destruct (AllocateIP_Ok parseIPv6 _ _ _ R E) as (_ & _ & Hnone & Hp1).
  assert (Hin : IsAllocated pool1 clientIP = true).
  { rewrite Hp1. unfold IsAllocated, lookupB. cbn [set_allocated allocated].
    rewrite lookup_insert_eq. reflexivity. }
  assert (Hout : IsAllocated (API.w_pool w) clientIP = false).
  { unfold IsAllocated, lookupB. rewrite Hnone. reflexivity. }
  split.
  - intros Hdb. split; [|auto].
    unfold API.CreateClient. rewrite E. fold client. rewrite Hdb.
    cbn [after]. rewrite Hrel. destruct w. reflexivity.
  - intros db1 row e Hdb Hadd. split; [|assumption].
    unfold API.CreateClient. rewrite E. fold client. rewrite Hdb, Hadd. reflexivity.
Qed.
End HandlerClaims.

Section HandlerExamples.
Import GoNet IPPool.

Lemma C8_witness :
  API.CreateClient no_ipv6 (inr "laptop") (Some demo_keys) true demo_world
  = Some (API.JSON API.StatusInternalServerError
            (API.ErrorResponse "Failed to create client"), demo_world)
  /\ API.CreateClient no_ipv6 (inr "phone") (Some demo_keys) false demo_world
     = Some (API.JSON API.StatusCreated
               (API.Created
                  (API.mkCreateClientResponse 2 "phone" "client-public-key"
                     "10.0.0.3" true 1700000000)),
             demo_world_created).
Proof.
  split.
  - refine (proj1 (proj1 (C8_create_client_rollback no_ipv6 "laptop" demo_keys true
                      demo_world "10.0.0.3" pool29_next pool29_used_reachable _) _)).
    + vm_compute. reflexivity.
    + vm_compute. reflexivity.
  - refine (proj1 (proj2 (C8_create_client_rollback no_ipv6 "phone" demo_keys false
                      demo_world "10.0.0.3" pool29_next pool29_used_reachable _)
                    [demo_row; demo_phone] demo_phone WireGuard.ErrWriteConfig _ _)).
    + vm_compute. reflexivity.
    + vm_compute. reflexivity.
    + vm_compute. reflexivity.
Defined.
End HandlerExamples.

(** ** The alert manager *)

Section AlertFacts.
Import Monitoring.
Context {FO : FloatOps}.

Lemma apply_rule_same now m r :
  apply_rule now m r !! r_id r = rule_step now r (m !! r_id r).
Proof.
  unfold apply_rule, rule_step, createOrUpdateAlert, resolveAlert.
  destruct (r_fires r); destruct (m !! r_id r) as [a|] eqn:E.
  - rewrite lookup_insert_eq. reflexivity.
  - rewrite lookup_insert_eq. reflexivity.
  - destruct (bool_decide (Status a = AlertStatusActive)).
    + rewrite lookup_insert_eq. reflexivity.
    + assumption.
  - assumption.
Qed.

Lemma apply_rule_other now m r id :
  r_id r <> id -> apply_rule now m r !! id = m !! id.
Proof.
  intros Hne. unfold apply_rule, createOrUpdateAlert, resolveAlert.
  destruct (r_fires r); destruct (m !! r_id r) as [a|];
    try destruct (bool_decide (Status a = AlertStatusActive));
    rewrite ?lookup_insert_ne by assumption; reflexivity.
Qed.

Lemma fold_rules_other now rules : forall m id,
  id ∉ map r_id rules ->
  fold_left (apply_rule now) rules m !! id = m !! id.
Proof.
  induction rules as [|r rules IH]; intros m id Hid; [reflexivity|].
  cbn [fold_left]. cbn [map] in Hid. apply not_elem_of_cons in Hid as [H1 H2].
  rewrite IH by assumption. apply apply_rule_other. congruence.
Qed.

Lemma fold_rules_same now rules : forall m r,
  NoDup (map r_id rules) -> r ∈ rules ->
  fold_left (apply_rule now) rules m !! r_id r = rule_step now r (m !! r_id r).
Proof.
  induction rules as [|r0 rules IH]; intros m r Hnd Hin; [inversion Hin|].
  cbn [fold_left]. cbn [map] in Hnd. apply NoDup_cons in Hnd as [Hn0 Hnd].
  apply elem_of_cons in Hin as [->|Hin].
  - rewrite fold_rules_other by assumption. apply apply_rule_same.
  - rewrite IH by assumption. f_equal. apply apply_rule_other.
    intros E. apply Hn0. rewrite E. apply list_elem_of_fmap_2. assumption.
Qed.

Lemma builtin_rules_NoDup cfg metrics : NoDup (map r_id (builtin_rules cfg metrics)).
Proof. cbn [map builtin_rules r_id]. apply (bool_decide_unpack _). vm_compute. exact I. Qed.

Lemma EvaluateMetrics_rules am metrics now :
  EnableAlerts (config am) = true ->
  EvaluateMetrics am metrics now
  = mkAlertManager
      (cleanupResolvedAlerts
         (fold_left (apply_rule now) (builtin_rules (config am) metrics) (alerts am))
         now)
      (config am) now.
Proof.
  intros En. unfold EvaluateMetrics. rewrite En. reflexivity.
Qed.

Lemma EvaluateMetrics_disabled am metrics now :
  EnableAlerts (config am) = false -> EvaluateMetrics am metrics now = am.
Proof. intros En. unfold EvaluateMetrics. rewrite En. reflexivity. Qed.

Lemma cleanup_lookup m now id :
  cleanupResolvedAlerts m now !! id
  = match m !! id with
    | Some a => if stale now a then None else Some a
    | None => None
    end.
Proof.
  unfold cleanupResolvedAlerts.
  destruct (m !! id) as [a|] eqn:E; [destruct (stale now a) eqn:S|].
  - apply map_lookup_filter_None_2. right. intros x Hx. cbn.
    assert (x = a) by congruence. subst x. congruence.
  - apply map_lookup_filter_Some_2; assumption.
  - apply map_lookup_filter_None_2. left. assumption.
Qed.

Lemma EvaluateMetrics_lookup am metrics now r :
  EnableAlerts (config am) = true ->
  r ∈ builtin_rules (config am) metrics ->
  alerts (EvaluateMetrics am metrics now) !! r_id r
  = match rule_step now r (alerts am !! r_id r) with
    | Some a => if stale now a then None else Some a
    | None => None
    end.
Proof.
  intros En Hin. rewrite EvaluateMetrics_rules by assumption. cbn [alerts].
  rewrite cleanup_lookup, fold_rules_same by (apply builtin_rules_NoDup || assumption).
  reflexivity.
Qed.
End AlertFacts.

Section AlertClaims.
Import Monitoring.
Context {FO : FloatOps}.

Lemma stale_updated now r a : stale now (updated r now a) = stale now a.
Proof. reflexivity. Qed.

Lemma stale_resolved now a : stale now (resolved now a) = false.
Proof.
  unfold stale, resolved. cbn [Status ResolvedAt].
  rewrite Z.sub_diag. apply andb_false_r.
Qed.

(** C6, as amended.  When alerts are enabled, one call of
    [EvaluateMetrics] at time [now] treats every rule as follows.  If the
    rule's condition holds and no alert has its identifier, a new alert is
    stored: active, count 1, created and updated at [now].  If the
    condition holds and an alert [a] has the identifier, [a] is stored with
    its count raised by one, [updated_at] set to [now] and the rule's
    metadata merged over its own, unless [a] was resolved more than 24
    hours before [now], in which case the cleanup at the end of the call
    removes it.  If the condition does not hold and the alert with the
    identifier is active, it is stored resolved, with [resolved_at] and
    [updated_at] set to [now].  When alerts are disabled the call changes
    nothing. *)
Theorem C6_evaluate_metrics_rules am metrics now r :
  r ∈ builtin_rules (config am) metrics ->
  (EnableAlerts (config am) = false -> EvaluateMetrics am metrics now = am)
  /\ (EnableAlerts (config am) = true ->
      let stored := alerts (EvaluateMetrics am metrics now) !! r_id r in
      (r_fires r = true -> alerts am !! r_id r = None ->
         stored = Some (created r now))
      /\ (r_fires r = true -> forall a, alerts am !! r_id r = Some a ->
            stored = if stale now a then None else Some (updated r now a))
      /\ (r_fires r = false -> forall a, alerts am !! r_id r = Some a ->
            Status a = AlertStatusActive ->
            stored = Some (resolved now a))).
Proof.
  intros Hin. split; [apply EvaluateMetrics_disabled|].
  intros En stored. subst stored.
  rewrite (EvaluateMetrics_lookup am metrics now r En Hin).
  split; [|split].
  - intros Hf Hnone. rewrite Hnone. cbn [rule_step]. rewrite Hf. reflexivity.
  - intros Hf a Ha. rewrite Ha. cbn [rule_step]. rewrite Hf, stale_updated. reflexivity.
  - intros Hf a Ha Hact. rewrite Ha. cbn [rule_step]. rewrite Hf.
    rewrite bool_decide_eq_true_2 by assumption. rewrite stale_resolved. reflexivity.
Qed.

Lemma fold_rules_keeps_suppressed now id rules : forall m,
  (exists a, m !! id = Some a /\ Status a = AlertStatusSuppressed) ->
  exists a, fold_left (apply_rule now) rules m !! id = Some a
            /\ Status a = AlertStatusSuppressed.
Proof.
  induction rules as [|r rules IH]; intros m H; [exact H|].
  cbn [fold_left]. apply IH. destruct H as (a & Ha & Hs).
  destruct (decide (r_id r = id)) as [<-|Hne].
  - rewrite apply_rule_same, Ha. cbn [rule_step].
    destruct (r_fires r).
    + eexists. split; [reflexivity|]. exact Hs.
    + rewrite bool_decide_eq_false_2 by (rewrite Hs; discriminate). eauto.
  - rewrite apply_rule_other by assumption. eauto.
Qed.

Lemma EvaluateMetrics_keeps_suppressed am metrics now id :
  (exists a, alerts am !! id = Some a /\ Status a = AlertStatusSuppressed) ->
  exists a, alerts (EvaluateMetrics am metrics now) !! id = Some a
            /\ Status a = AlertStatusSuppressed.
Proof.
  intros H. destruct (EnableAlerts (config am)) eqn:En.
  - rewrite EvaluateMetrics_rules by assumption. cbn [alerts].
    destruct (fold_rules_keeps_suppressed now id (builtin_rules (config am) metrics)
                (alerts am) H) as (a & Ha & Hs).
    exists a. split; [|assumption]. rewrite cleanup_lookup, Ha.
    unfold stale. rewrite bool_decide_eq_false_2 by (rewrite Hs; discriminate).
    reflexivity.
  - rewrite EvaluateMetrics_disabled by assumption. exact H.
Qed.

Lemma evaluations_keep_suppressed evals : forall am id,
  (exists a, alerts am !! id = Some a /\ Status a = AlertStatusSuppressed) ->
  exists a, alerts (evaluations am evals) !! id = Some a
            /\ Status a = AlertStatusSuppressed.
Proof.
  induction evals as [|e evals IH]; intros am id H; [exact H|].
  unfold evaluations. cbn [fold_left]. apply IH.
  apply EvaluateMetrics_keeps_suppressed, H.
Qed.

Lemma not_active_suppressed am (a : Alert) :
  Status a = AlertStatusSuppressed -> a ∉ GetActiveAlerts am.
Proof.
  intros Hs Hin. unfold GetActiveAlerts in Hin.
  apply list_elem_of_filter in Hin as [Hact _]. congruence.
Qed.

(** When [SuppressAlert id d] succeeds, the alert is stored with status
    suppressed and with [suppressed_until], the second clock reading plus
    [d], in its metadata; it is not among [GetActiveAlerts] and it is
    among [GetAllAlerts since] for every [since] before its creation.
    Nothing in the manager reads [suppressed_until]: no later run of
    [EvaluateMetrics], whatever the clock says, brings the alert back; it
    stays stored and suppressed, and out of [GetActiveAlerts]. *)
Theorem SuppressAlert_effect am id d now1 now2 am' :
  SuppressAlert am id d now1 now2 = Ok am' ->
  exists a a',
    alerts am !! id = Some a /\ alerts am' !! id = Some a'
    /\ Status a' = AlertStatusSuppressed
    /\ match Metadata a' with
       | Some md => md !! "suppressed_until"
       | None => None
       end = Some (MTime (now2 + d))
    /\ CreatedAt a' = CreatedAt a
    /\ (a' ∉ GetActiveAlerts am')
    /\ (forall since, since < CreatedAt a' -> a' ∈ GetAllAlerts am' since)
    /\ (forall evals, exists a'',
          alerts (evaluations am' evals) !! id = Some a''
          /\ Status a'' = AlertStatusSuppressed
          /\ (a'' ∉ GetActiveAlerts (evaluations am' evals))).
Proof.
  unfold SuppressAlert. destruct (alerts am !! id) as [a|] eqn:Ea; [|discriminate].
  intros [= <-]. eexists a, _.
  split; [reflexivity|]. split; [cbn [set_alerts alerts]; apply lookup_insert_eq|].
  split; [reflexivity|]. split; [cbn; apply lookup_insert_eq|].
  split; [reflexivity|]. split; [apply not_active_suppressed; reflexivity|].
  split.
  - intros since Hs. unfold GetAllAlerts. apply list_elem_of_filter. split; [exact Hs|].
    apply list_elem_of_fmap. eexists (id, _). split; [reflexivity|].
    apply elem_of_map_to_list. cbn [set_alerts alerts]. apply lookup_insert_eq.
  - intros evals.
    match goal with |- context [evaluations ?m _] =>
      destruct (evaluations_keep_suppressed evals m id) as (a'' & Ha & Hs) end.
    { eexists. split; [cbn [set_alerts alerts]; apply lookup_insert_eq|reflexivity]. }
    exists a''. split; [assumption|]. split; [assumption|].
    apply not_active_suppressed, Hs.
Qed.
End AlertClaims.

(** C6 as the specification words it fails on a manager whose alerts are
    disabled: the CPU condition holds, no alert has the identifier, and
    none is inserted. *)
Lemma C6_counterexample :
  Monitoring.r_fires
    (Monitoring.mkRule "system_cpu_high"
       (Monitoring.fgt 90 (Monitoring.CPUThreshold (Monitoring.demo_config false)))
       Monitoring.AlertTypeSystem Monitoring.SeverityHigh "" "" None) = true
  /\ Monitoring.alerts (Monitoring.demo_manager false) !! "system_cpu_high" = None
  /\ Monitoring.alerts
       (Monitoring.EvaluateMetrics (Monitoring.demo_manager false)
          (Monitoring.demo_metrics 90) 5) !! "system_cpu_high" = None.
Proof. repeat split; vm_compute; reflexivity. Qed.

Lemma C6_witness :
  Monitoring.alerts
    (Monitoring.EvaluateMetrics (Monitoring.demo_manager true)
       (Monitoring.demo_metrics 90) 5) !! "system_cpu_high"
  = Some (Monitoring.created Monitoring.demo_rule 5).
Proof.
  assert (Hin : Monitoring.demo_rule
                ∈ Monitoring.builtin_rules
                    (Monitoring.config (Monitoring.demo_manager true))
                    (Monitoring.demo_metrics 90)).
  { vm_compute. apply list_elem_of_here. }
  destruct (C6_evaluate_metrics_rules (Monitoring.demo_manager true)
              (Monitoring.demo_metrics 90) 5 Monitoring.demo_rule Hin) as [_ H].
  destruct (H eq_refl) as [H1 _]. apply H1; reflexivity.
Defined.

(** C7.  The claim fails on the code: the suppression has no end.  An
    active alert is suppressed for one hour at time 10, and
    [suppressed_until] is stored as one hour later.  An evaluation three
    hours later, whether its condition still holds (CPU at 90) or not
    (CPU at 50), leaves the alert suppressed: it has not returned to
    active, its status before. *)
Lemma C7_suppression_has_no_end :
  (Monitoring.Status <$> (Monitoring.alerts Monitoring.demo_cpu_alert !! "system_cpu_high"))
    = Some Monitoring.AlertStatusActive
  /\ Monitoring.SuppressAlert Monitoring.demo_cpu_alert "system_cpu_high"
       Monitoring.hour 10 10 = Ok Monitoring.demo_suppressed
  /\ match Monitoring.alerts Monitoring.demo_suppressed !! "system_cpu_high" with
     | Some a =>
         match Monitoring.Metadata a with
         | Some md => md !! "suppressed_until"
         | None => None
         end
     | None => None
     end = Some (Monitoring.MTime (10 + Monitoring.hour))
  /\ 10 + Monitoring.hour < 3 * Monitoring.hour
  /\ (Monitoring.Status <$>
       (Monitoring.alerts
          (Monitoring.EvaluateMetrics Monitoring.demo_suppressed
             (Monitoring.demo_metrics 90) (3 * Monitoring.hour)) !! "system_cpu_high"))
     = Some Monitoring.AlertStatusSuppressed
  /\ (Monitoring.Status <$>
       (Monitoring.alerts
          (Monitoring.EvaluateMetrics Monitoring.demo_suppressed
             (Monitoring.demo_metrics 50) (3 * Monitoring.hour)) !! "system_cpu_high"))
     = Some Monitoring.AlertStatusSuppressed.
Proof. repeat split; vm_compute; reflexivity. Qed.

Lemma SuppressAlert_effect_example :
  exists a a',
    Monitoring.alerts Monitoring.demo_cpu_alert !! "system_cpu_high" = Some a
    /\ Monitoring.alerts Monitoring.demo_suppressed !! "system_cpu_high" = Some a'
    /\ Monitoring.Status a' = Monitoring.AlertStatusSuppressed.
Proof.
  destruct (SuppressAlert_effect Monitoring.demo_cpu_alert "system_cpu_high"
              Monitoring.hour 10 10 Monitoring.demo_suppressed)
    as (a & a' & H1 & H2 & H3 & _).
  - vm_compute. reflexivity.
  - exists a, a'. auto.
Defined.

(** ** Tokens *)

Section TokenClaims.
Import Auth.
Variable sign : SigningMethod -> string -> Payload -> string.

Lemma NewNumericDate_le t : NewNumericDate t <= t.
Proof.
  unfold NewNumericDate, second.
  pose proof (Z.mod_pos_bound t 1000000000 ltac:(lia)). lia.
Qed.

(** A string that is valid UTF-8 goes through the JSON text of a
    token unchanged. *)
Lemma text_of_marshal_valid s : forall skip,
  valid_from skip s = true -> text_of (marshal_from skip s) = s.
Proof.
  induction s as [|c s IH]; intros skip H; [reflexivity|].
  cbn [valid_from marshal_from] in *. destruct skip as [|k].
  - destruct (rune_width (String c s)) as [|k]; [discriminate|].
    cbn [text_of]. rewrite IH by exact H. reflexivity.
  - cbn [text_of]. rewrite IH by exact H. reflexivity.
Qed.

Lemma coerce_from_valid s : forall skip,
  valid_from skip s = true -> coerce_from skip s = s.
Proof.
  induction s as [|c s IH]; intros skip H; [reflexivity|].
  cbn [valid_from coerce_from] in *. destruct skip as [|k].
  - destruct (rune_width (String c s)) as [|k]; [discriminate|].
    rewrite IH by exact H. reflexivity.
  - rewrite IH by exact H. reflexivity.
Qed.

Lemma json_string_valid s : ValidString s = true -> json_string s = s.
Proof.
  intros H. unfold json_string, unmarshal_string, marshal_string.
  rewrite text_of_marshal_valid by exact H. apply coerce_from_valid, H.
Qed.

Lemma ValidateToken_generated am uid uname t1 t2 t3 t :
  ValidateToken sign am (GenerateToken sign am uid uname t1 t2 t3) t
  = match validate_claims
            (TokenClaims (GenerateToken sign am uid uname t1 t2 t3)) t with
    | [] => Ok (TokenClaims (GenerateToken sign am uid uname t1 t2 t3))
    | errs => Err (ErrParseToken errs)
    end.
Proof.
  unfold ValidateToken, GenerateToken. cbn [Method is_hmac negb Signature TokenPayload].
  rewrite String.eqb_refl. reflexivity.
Qed.

(** What [ValidateToken] reads from a token of [GenerateToken]. *)
Lemma TokenClaims_generated am uid uname t1 t2 t3 :
  let c := TokenClaims (GenerateToken sign am uid uname t1 t2 t3) in
  UserID c = uid /\ Username c = json_string uname
  /\ ExpiresAt (Registered c) = Some (NewNumericDate (t1 + tokenExpiry am))
  /\ NotBefore (Registered c) = Some (NewNumericDate t3).
Proof. repeat split. Qed.

(** C9, as amended.  A token made by [GenerateToken] for [uid] and
    [uname] validates at every time from its issue up to its expiry
    instant, which is the first clock reading plus the manager's lifetime
    cut down to whole seconds.  The claims returned carry [uid], and
    [uname] as it comes out of the JSON text of the token: [uname] itself
    when it is valid UTF-8.  At every time later than the first clock
    reading plus the lifetime, validation fails with the expiry error
    (and [Claims.Valid] rejects the claims too). *)
Theorem C9_generate_validate am uid uname t1 t2 t3 :
  let tok := GenerateToken sign am uid uname t1 t2 t3 in
  (forall t, t3 <= t -> t < NewNumericDate (t1 + tokenExpiry am) ->
     exists c, ValidateToken sign am tok t = Ok c
               /\ UserID c = uid /\ Username c = json_string uname
               /\ (ValidString uname = true -> Username c = uname))
  /\ (forall t, t1 + tokenExpiry am < t ->
        exists errs, ValidateToken sign am tok t = Err (ErrParseToken errs)
                     /\ In ErrTokenExpired errs
                     /\ Claims_Valid (TokenClaims tok) t = false).
Proof.
  intros tok. subst tok.
  destruct (TokenClaims_generated am uid uname t1 t2 t3) as (Hu & Hn & He & Hb).
  split.
  - intros t Hnbf Hexp. rewrite ValidateToken_generated.
    unfold validate_claims. rewrite He, Hb.
    pose proof (NewNumericDate_le t3).
    rewrite (proj2 (Z.ltb_lt _ _) Hexp).
    rewrite (proj2 (Z.ltb_ge _ _)) by lia. cbn [app].
    eexists. split; [reflexivity|]. split; [exact Hu|]. split; [exact Hn|].
    intros Hv. rewrite Hn. apply json_string_valid, Hv.
  - intros t Hlate. rewrite ValidateToken_generated.
    unfold validate_claims, Claims_Valid. rewrite He, Hb.
    pose proof (NewNumericDate_le (t1 + tokenExpiry am)).
    rewrite (proj2 (Z.ltb_ge t _)) by lia.
    rewrite (proj2 (Z.ltb_lt _ t)) by lia. cbn [negb].
    destruct (t <? NewNumericDate t3); cbn [app];
      eexists; (split; [reflexivity|]); (split; [left; reflexivity|reflexivity]).
Qed.
End TokenClaims.

Section TokenExamples.
Import Auth.

(** C9 as the specification words it fails in two ways.  With a
    lifetime of one millisecond the expiry instant, cut down to whole
    seconds, is already past when the token is made: validation right
    after the issue, at the last clock reading of [GenerateToken], answers
    that the token is expired.  And a user
    name that is not valid UTF-8 does not come back: the byte 255 returns
    as U+FFFD. *)
Lemma C9_counterexample :
  ValidateToken demo_sign (NewAuthManagerWithConfig "test-secret" 1000000)
    (GenerateToken demo_sign (NewAuthManagerWithConfig "test-secret" 1000000)
       123 "testuser" 10500000000 10500000001 10500000002)
    10500000002
  = Err (ErrParseToken [ErrTokenExpired])
  /\ exists c,
       ValidateToken demo_sign (NewAuthManager "test-secret")
         (GenerateToken demo_sign (NewAuthManager "test-secret")
            123 (String "255" "") 10500000000 10500000001 10500000002)
         10500000002
       = Ok c
       /\ UserID c = 123
       /\ Username c = replacement
       /\ Username c <> String "255" "".
Proof.
  split; [vm_compute; reflexivity|].
  eexists. split; [vm_compute; reflexivity|].
  split; [reflexivity|]. split; [reflexivity|]. discriminate.
Qed.

Lemma C9_witness :
  (exists c, Auth.ValidateToken demo_sign (Auth.NewAuthManager "test-secret")
               demo_token 10500000002 = Ok c
             /\ Auth.UserID c = 123 /\ Auth.Username c = "testuser")
  /\ (exists errs,
        Auth.ValidateToken demo_sign (Auth.NewAuthManager "test-secret")
          demo_token (10500000000 + 24 * 3600 * Auth.second + 1)
        = Err (Auth.ErrParseToken errs)
        /\ In Auth.ErrTokenExpired errs
        /\ Auth.Claims_Valid (Auth.TokenClaims demo_token)
             (10500000000 + 24 * 3600 * Auth.second + 1) = false).
Proof.
  destruct (C9_generate_validate demo_sign (Auth.NewAuthManager "test-secret")
              123 "testuser" 10500000000 10500000001 10500000002) as [H1 H2].
  split.
  - destruct (H1 10500000002) as (c & E & Hu & _ & Hv);
      [lia | vm_compute; reflexivity|].
    exists c. split; [exact E|]. split; [exact Hu|]. apply Hv. reflexivity.
  - apply H2. vm_compute. reflexivity.
Defined.
End TokenExamples.

(** ** Text: prefixes, substrings, splitting, trimming *)

Section TextFacts.
Import GoStrings.

Lemma occurs_refl s : occurs_in s s.
Proof. exists "", "". rewrite sapp_nil_r. reflexivity. Qed.

Lemma occurs_trans t s u : occurs_in t s -> occurs_in s u -> occurs_in t u.
Proof.
  intros (a & b & ->) (a' & b' & ->).
  exists (a' +:+ a), (b +:+ b'). rewrite !sapp_assoc. reflexivity.
Qed.

Lemma occurs_app_l t a s : occurs_in t s -> occurs_in t (a +:+ s).
Proof. intros (x & y & ->). exists (a +:+ x), y. rewrite sapp_assoc. reflexivity. Qed.

Lemma occurs_app_r t s b : occurs_in t s -> occurs_in t (s +:+ b).
Proof. intros (x & y & ->). exists x, (y +:+ b). rewrite !sapp_assoc. reflexivity. Qed.

Lemma occurs_cons t c s : occurs_in t s -> occurs_in t (String c s).
Proof. apply (occurs_app_l t (String c "") s). Qed.

Lemma HasPrefix_app sub b : HasPrefix (sub +:+ b) sub = true.
Proof.
  induction sub as [|c sub IH]; [destruct b; reflexivity|].
  rewrite sapp_cons. cbn [HasPrefix]. rewrite Ascii.eqb_refl, IH. reflexivity.
Qed.

Lemma Contains_unfold s sub :
  Contains s sub
  = HasPrefix s sub || match s with "" => false | String _ s' => Contains s' sub end.
Proof. destruct s; reflexivity. Qed.

Lemma occurs_Contains sub s : occurs_in sub s -> Contains s sub = true.
Proof.
  intros (a & b & ->). induction a as [|c a IH].
  - rewrite sapp_nil_l, Contains_unfold, HasPrefix_app. reflexivity.
  - rewrite sapp_cons, Contains_unfold, IH. apply orb_true_r.
Qed.

Lemma HasPrefix_inv s pre : HasPrefix s pre = true -> exists b, s = pre +:+ b.
Proof.
  revert s. induction pre as [|p pre IH]; intros s H.
  - exists s. reflexivity.
  - destruct s as [|c s]; [discriminate|]. cbn [HasPrefix] in H.
    apply andb_true_iff in H as [H1 H2]. apply Ascii.eqb_eq in H1. subst c.
    destruct (IH _ H2) as [b ->]. exists b. reflexivity.
Qed.

(** *** Reversal *)

Lemma srev_app_spec s acc : srev_app s acc = srev s +:+ acc.
Proof.
  unfold srev. revert acc. induction s as [|c s IH]; intros acc; [reflexivity|].
  cbn [srev_app]. rewrite IH, (IH (String c "")), sapp_assoc. reflexivity.
Qed.

Lemma srev_cons c s : srev (String c s) = srev s +:+ String c "".
Proof. unfold srev at 1. cbn [srev_app]. apply srev_app_spec. Qed.

Lemma srev_app_distr s t : srev (s +:+ t) = srev t +:+ srev s.
Proof.
  induction s as [|c s IH]; [rewrite sapp_nil_l, sapp_nil_r; reflexivity|].
  rewrite sapp_cons, !srev_cons, IH, sapp_assoc. reflexivity.
Qed.

Lemma srev_involutive s : srev (srev s) = s.
Proof.
  induction s as [|c s IH]; [reflexivity|].
  rewrite srev_cons, srev_app_distr, IH. reflexivity.
Qed.

Lemma occurs_srev_tail c r s : srev s = String c r -> occurs_in (srev r) s.
Proof.
  intros H. apply (f_equal srev) in H. rewrite srev_involutive, srev_cons in H.
  subst s. exists "", (String c ""). reflexivity.
Qed.

(** *** [TrimSpace] *)

Context {UT : UnicodeTrim}.
Hypothesis TrimFunc_occurs : forall s, occurs_in (TrimFunc_IsSpace s) s.
Hypothesis TrimRightFunc_occurs : forall s, occurs_in (TrimRightFunc_IsSpace s) s.

Lemma trim_left_occurs s :
  match trim_left s with inl t | inr t => occurs_in t s end.
Proof.
  induction s as [|c s IH]; cbn [trim_left]; [apply occurs_refl|].
  destruct (negb (is_ascii c)); [apply occurs_refl|].
  destruct (asciiSpace c); [|apply occurs_refl].
  destruct (trim_left s); apply occurs_cons, IH.
Qed.

Lemma trim_right_rev_occurs r : occurs_in (trim_right_rev r) (srev r).
Proof.
  induction r as [|c r IH]; cbn [trim_right_rev]; [apply occurs_refl|].
  destruct (negb (is_ascii c)); [apply TrimRightFunc_occurs|].
  destruct (asciiSpace c); [|apply occurs_refl].
  rewrite srev_cons. apply occurs_app_r, IH.
Qed.

Lemma TrimSpace_occurs s : occurs_in (TrimSpace s) s.
Proof.
  unfold TrimSpace. pose proof (trim_left_occurs s) as H.
  destruct (trim_left s) as [t|t].
  - eapply occurs_trans; [apply TrimFunc_occurs|exact H].
  - eapply occurs_trans; [|exact H].
    pose proof (trim_right_rev_occurs (srev t)) as H'.
    rewrite srev_involutive in H'. exact H'.
Qed.

Lemma TrimSpace_keeps c0 s c1 r :
  keeps c0 = true -> srev (String c0 s) = String c1 r -> keeps c1 = true ->
  TrimSpace (String c0 s) = String c0 s.
Proof.
  unfold keeps. intros H0 Hr H1.
  apply andb_true_iff in H0 as [A0 S0]. apply andb_true_iff in H1 as [A1 S1].
  apply negb_true_iff in S0, S1.
  unfold TrimSpace. cbn [trim_left]. rewrite A0, S0. cbn [negb].
  rewrite Hr. cbn [trim_right_rev]. rewrite A1, S1. cbn [negb].
  rewrite <- Hr. apply srev_involutive.
Qed.

Lemma TrimSpace_space_l s : TrimSpace (String " " s) = TrimSpace s.
Proof. reflexivity. Qed.
End TextFacts.

Section SplitFacts.
Import GoStrings.

Lemma lacks_app c s t : lacks c (s +:+ t) = lacks c s && lacks c t.
Proof.
  induction s as [|x s IH]; [reflexivity|].
  rewrite sapp_cons. cbn [lacks]. rewrite IH, andb_assoc. reflexivity.
Qed.

Lemma clean_app s t : clean (s +:+ t) = clean s && clean t.
Proof.
  induction s as [|x s IH]; [reflexivity|].
  rewrite sapp_cons. cbn [clean]. rewrite IH, andb_assoc. reflexivity.
Qed.

Lemma keeps_not c x : keeps c = false -> keeps x = true -> Ascii.eqb x c = false.
Proof.
  intros Hc Hx. destruct (Ascii.eqb x c) eqn:E; [|reflexivity].
  apply Ascii.eqb_eq in E. congruence.
Qed.

Lemma clean_lacks c s : keeps c = false -> clean s = true -> lacks c s = true.
Proof.
  intros Hc. induction s as [|x s IH]; [reflexivity|]. cbn [clean lacks].
  intros H. apply andb_true_iff in H as [H1 H2].
  rewrite (keeps_not c x Hc H1), IH by assumption. reflexivity.
Qed.

Lemma Split_nonempty s sep : Split s sep <> [].
Proof.
  destruct s as [|c s]; cbn [Split]; [discriminate|].
  destruct (Ascii.eqb c sep); [discriminate|]. destruct (Split s sep); discriminate.
Qed.

Lemma Split_lacks s sep : lacks sep s = true -> Split s sep = [s].
Proof.
  induction s as [|c s IH]; [reflexivity|]. cbn [lacks Split]. intros H.
  apply andb_true_iff in H as [H1 H2]. apply negb_true_iff in H1.
  rewrite H1, IH by assumption. reflexivity.
Qed.

Lemma Split_app s sep t :
  Split (s +:+ String sep t) sep = Split s sep ++ Split t sep.
Proof.
  induction s as [|c s IH].
  - rewrite sapp_nil_l. cbn [Split]. rewrite Ascii.eqb_refl. reflexivity.
  - rewrite sapp_cons. cbn [Split]. destruct (Ascii.eqb c sep).
    + rewrite IH. reflexivity.
    + rewrite IH. pose proof (Split_nonempty s sep).
      destruct (Split s sep) as [|piece pieces]; [contradiction|]. reflexivity.
Qed.

Lemma Split_pieces_lack s sep : Forall (fun x => lacks sep x = true) (Split s sep).
Proof.
  induction s as [|c s IH]; cbn [Split]; [repeat constructor|].
  destruct (Ascii.eqb c sep) eqn:E; [constructor; [reflexivity|assumption]|].
  pose proof (Split_nonempty s sep).
  destruct (Split s sep) as [|piece pieces]; [contradiction|].
  apply Forall_cons in IH as [H1 H2]. constructor; [|assumption].
  cbn [lacks]. rewrite E, H1. reflexivity.
Qed.

Lemma Split_head_prefix s sep piece pieces :
  Split s sep = piece :: pieces -> exists b, s = piece +:+ b.
Proof.
  revert piece pieces. induction s as [|c s IH]; intros piece pieces; cbn [Split].
  - intros [= <- <-]. exists "". reflexivity.
  - destruct (Ascii.eqb c sep).
    + intros [= <- <-]. exists (String c s). reflexivity.
    + destruct (Split s sep) as [|p ps] eqn:E; intros [= <- <-].
      * exists s. reflexivity.
      * destruct (IH p ps eq_refl) as [b ->]. exists b. reflexivity.
Qed.

Lemma Split_pieces_occur s sep : Forall (fun x => occurs_in x s) (Split s sep).
Proof.
  induction s as [|c s IH]; cbn [Split].
  - constructor; [apply occurs_refl|constructor].
  - destruct (Ascii.eqb c sep).
    + constructor; [exists "", (String c s); reflexivity|].
      eapply Forall_impl; [exact IH|]. intros x Hx. apply occurs_cons, Hx.
    + pose proof (Split_nonempty s sep).
      destruct (Split s sep) as [|piece pieces] eqn:E; [contradiction|].
      apply Forall_cons in IH as [H1 H2]. constructor.
      * destruct (Split_head_prefix _ _ _ _ E) as [b ->].
        exists "", b. reflexivity.
      * eapply Forall_impl; [exact H2|]. intros x Hx. apply occurs_cons, Hx.
Qed.

Lemma SplitN2_cut a sep b :
  lacks sep a = true -> SplitN2 (a +:+ String sep b) sep = [a; b].
Proof.
  induction a as [|c a IH]; intros H.
  - rewrite sapp_nil_l. cbn [SplitN2]. rewrite Ascii.eqb_refl. reflexivity.
  - cbn [lacks] in H. apply andb_true_iff in H as [H1 H2]. apply negb_true_iff in H1.
    rewrite sapp_cons. cbn [SplitN2]. rewrite H1, IH by assumption. reflexivity.
Qed.

Lemma SplitN2_occurs s sep k v : SplitN2 s sep = [k; v] -> occurs_in v s.
Proof.
  revert k v. induction s as [|c s IH]; intros k v; cbn [SplitN2]; [discriminate|].
  destruct (Ascii.eqb c sep).
  - intros [= <- <-]. exists (String c ""), "". rewrite sapp_nil_r. reflexivity.
  - destruct (SplitN2 s sep) as [|a [|b [|? ?]]] eqn:E; try discriminate.
    intros [= <- <-]. apply occurs_cons, (IH a b eq_refl).
Qed.

Lemma Contains_char_app s c t : Contains (s +:+ String c t) (String c "") = true.
Proof.
  apply occurs_Contains. exists s, t. reflexivity.
Qed.
End SplitFacts.

(** ** Decimal text of integers *)

Section ItoaFacts.
Import GoStrings.

Lemma digit_cases (P : Z -> Prop) :
  P 0 -> P 1 -> P 2 -> P 3 -> P 4 -> P 5 -> P 6 -> P 7 -> P 8 -> P 9 ->
  forall d, 0 <= d <= 9 -> P d.
Proof.
  intros. assert (d = 0 \/ d = 1 \/ d = 2 \/ d = 3 \/ d = 4 \/ d = 5 \/ d = 6
                  \/ d = 7 \/ d = 8 \/ d = 9) as Hd by lia.
  repeat (destruct Hd as [->|Hd]; [assumption|]). subst. assumption.
Qed.

Lemma digit_of_char d : 0 <= d <= 9 -> GoNet.digit_of (GoNet.digit_char d) = Some d.
Proof. revert d. apply digit_cases; reflexivity. Qed.

Lemma digit_char_keeps d : 0 <= d <= 9 -> keeps (GoNet.digit_char d) = true.
Proof. revert d. apply digit_cases; reflexivity. Qed.

Lemma digit_char_not_sign d :
  0 <= d <= 9 ->
  Ascii.eqb (GoNet.digit_char d) "-" = false
  /\ Ascii.eqb (GoNet.digit_char d) "+" = false.
Proof. revert d. apply digit_cases; split; reflexivity. Qed.

Lemma mod10_digit n : 0 <= n mod 10 <= 9.
Proof. pose proof (Z.mod_pos_bound n 10 ltac:(lia)). lia. Qed.

Lemma utoa_loop_acc fuel : forall n acc,
  utoa_loop fuel n acc = utoa_loop fuel n "" +:+ acc.
Proof.
  induction fuel as [|fuel IH]; intros n acc; cbn [utoa_loop]; [reflexivity|].
  destruct (n <? 10); [reflexivity|].
  rewrite IH, (IH _ (String _ "")), sapp_assoc. reflexivity.
Qed.

Lemma parse_digits_app x : forall y a,
  parse_digits (x +:+ y) a
  = match parse_digits x a with Some b => parse_digits y b | None => None end.
Proof.
  induction x as [|c x IH]; intros y a; [reflexivity|].
  rewrite sapp_cons. cbn [parse_digits].
  destruct (GoNet.digit_of c); [apply IH|reflexivity].
Qed.

Lemma length_app_str s t :
  String.length (s +:+ t) = (String.length s + String.length t)%nat.
Proof. induction s as [|c s IH]; [reflexivity|]. rewrite sapp_cons. cbn. rewrite IH. reflexivity. Qed.

Lemma utoa_loop_parse fuel : forall n a,
  0 <= n < 10 ^ Z.of_nat fuel ->
  parse_digits (utoa_loop fuel n "") a
  = Some (a * 10 ^ Z.of_nat (String.length (utoa_loop fuel n "")) + n).
Proof.
  induction fuel as [|fuel IH]; intros n a Hn.
  - cbn in Hn. assert (n = 0) by lia. subst. cbn. f_equal. lia.
  - cbn [utoa_loop]. destruct (n <? 10) eqn:E.
    + apply Z.ltb_lt in E. cbn [parse_digits String.length].
      rewrite digit_of_char by apply mod10_digit.
      rewrite Z.mod_small by lia. reflexivity.
    + apply Z.ltb_ge in E. rewrite utoa_loop_acc, parse_digits_app.
      rewrite Nat2Z.inj_succ, Z.pow_succ_r in Hn by lia.
      rewrite IH by (split; [apply Z.div_pos; lia | apply Z.div_lt_upper_bound; lia]).
      cbn [parse_digits]. rewrite digit_of_char by apply mod10_digit.
      rewrite length_app_str. cbn [String.length].
      rewrite Nat.add_1_r, Nat2Z.inj_succ, Z.pow_succ_r by lia.
      f_equal. pose proof (Z.div_mod n 10 ltac:(lia)). lia.
Qed.

Lemma utoa_loop_head fuel : forall n acc,
  0 <= n ->
  exists d rest, 0 <= d <= 9
    /\ utoa_loop (S fuel) n acc = String (GoNet.digit_char d) rest.
Proof.
  induction fuel as [|fuel IH]; intros n acc Hn; cbn [utoa_loop].
  - exists (n mod 10). eexists. split; [apply mod10_digit|].
    destruct (n <? 10); reflexivity.
  - destruct (n <? 10) eqn:E.
    + exists (n mod 10). eexists. split; [apply mod10_digit|reflexivity].
    + apply (IH (n / 10)). apply Z.div_pos; lia.
Qed.

Lemma utoa_loop_clean fuel : forall n acc,
  0 <= n -> clean acc = true -> clean (utoa_loop fuel n acc) = true.
Proof.
  induction fuel as [|fuel IH]; intros n acc Hn Hc; cbn [utoa_loop]; [assumption|].
  assert (clean (String (GoNet.digit_char (n mod 10)) acc) = true).
  { cbn [clean]. rewrite digit_char_keeps by apply mod10_digit. assumption. }
  destruct (n <? 10); [assumption|]. apply IH; [apply Z.div_pos; lia|assumption].
Qed.

Lemma utoa_fuel n : 0 <= n -> n < 10 ^ Z.of_nat (S (Z.to_nat (Z.log2 n))).
Proof.
  intros Hn. rewrite Nat2Z.inj_succ, Z2Nat.id by apply Z.log2_nonneg.
  destruct (Z.eq_dec n 0) as [->|]; [cbn; lia|].
  pose proof (Z.log2_spec n ltac:(lia)) as [_ H].
  eapply Z.lt_le_trans; [exact H|].
  apply Z.pow_le_mono_l. pose proof (Z.log2_nonneg n). lia.
Qed.

Lemma Atoi_Itoa n : 0 <= n < 2 ^ 63 -> Atoi (Itoa n) = Some n.
Proof.
  intros [Hn Hu]. unfold Itoa. rewrite (proj2 (Z.ltb_ge n 0)) by lia.
  unfold utoa.
  destruct (utoa_loop_head (Z.to_nat (Z.log2 n)) n "" Hn) as (d & rest & Hd & E).
  pose proof (utoa_loop_parse _ n 0 (conj Hn (utoa_fuel n Hn))) as P.
  rewrite E in *. unfold Atoi.
  destruct (digit_char_not_sign d Hd) as [-> ->].
  rewrite P. cbn [Z.mul Z.add].
  rewrite (proj2 (Z.leb_le _ _)) by lia. rewrite (proj2 (Z.ltb_lt _ _)) by lia.
  reflexivity.
Qed.

Lemma Itoa_clean n : 0 <= n -> clean (Itoa n) = true /\ Itoa n <> "".
Proof.
  intros Hn. unfold Itoa. rewrite (proj2 (Z.ltb_ge n 0)) by lia. unfold utoa. split.
  - apply utoa_loop_clean; [assumption|reflexivity].
  - destruct (utoa_loop_head (Z.to_nat (Z.log2 n)) n "" Hn) as (d & rest & _ & ->).
    discriminate.
Qed.
End ItoaFacts.

(** ** Reading back what [AddPeer] wrote *)

Section ReadBack.
Import GoStrings WireGuard.
Context {UT : UnicodeTrim}.

Lemma clean_srev s : clean (srev s) = clean s.
Proof.
  induction s as [|c s IH]; [reflexivity|].
  rewrite srev_cons, clean_app, IH. cbn [clean]. rewrite andb_true_r. apply andb_comm.
Qed.

Lemma srev_nonempty s : s <> "" -> srev s <> "".
Proof.
  intros H E. apply (f_equal srev) in E. rewrite srev_involutive in E. contradiction.
Qed.

Lemma ends_kept_plain s : plain s -> ends_kept s.
Proof.
  intros [Hc Hn]. destruct s as [|c0 s']; [contradiction|].
  pose proof (srev_nonempty _ Hn) as Hr. pose proof (clean_srev (String c0 s')) as Hcr.
  rewrite Hc in Hcr. destruct (srev (String c0 s')) as [|c1 r] eqn:E; [contradiction|].
  cbn [clean] in Hc, Hcr. apply andb_true_iff in Hc as [H0 _].
  apply andb_true_iff in Hcr as [H1 _]. exists c0, s', c1, r. auto.
Qed.

Lemma ends_kept_app s t : ends_kept s -> ends_kept t -> ends_kept (s +:+ t).
Proof.
  intros (c0 & s' & c1 & r & -> & H0 & _ & _) (d0 & t' & d1 & q & -> & _ & Eq & H1).
  exists c0, (s' +:+ String d0 t'), d1, (q +:+ srev (String c0 s')).
  split; [reflexivity|]. split; [assumption|]. split; [|assumption].
  rewrite <- sapp_cons, srev_app_distr, Eq. reflexivity.
Qed.

Lemma ends_kept_mid s m t : ends_kept s -> ends_kept t -> ends_kept (s +:+ m +:+ t).
Proof.
  intros (c0 & s' & c1 & r & -> & H0 & _ & _) (d0 & t' & d1 & q & -> & _ & Eq & H1).
  exists c0, (s' +:+ m +:+ String d0 t'), d1, (q +:+ srev (String c0 s' +:+ m)).
  split; [reflexivity|]. split; [assumption|]. split; [|assumption].
  rewrite <- sapp_cons, <- sapp_assoc, srev_app_distr, Eq. reflexivity.
Qed.

Lemma TrimSpace_ends_kept s : ends_kept s -> TrimSpace s = s.
Proof.
  intros (c0 & s' & c1 & r & -> & H0 & E & H1). eapply TrimSpace_keeps; eassumption.
Qed.

Lemma TrimSpace_space_r s : ends_kept s -> TrimSpace (s +:+ " ") = s.
Proof.
  intros (c0 & s' & c1 & r & -> & H0 & E & H1).
  unfold TrimSpace. rewrite sapp_cons. cbn [trim_left].
  unfold keeps in H0, H1. apply andb_true_iff in H0 as [A0 S0].
  apply andb_true_iff in H1 as [A1 S1]. apply negb_true_iff in S0, S1.
  rewrite A0, S0. cbn [negb]. rewrite <- sapp_cons, srev_app_distr, E.
  change (srev " ") with " ". rewrite sapp_cons, sapp_nil_l.
  cbn [trim_right_rev]. change (is_ascii " ") with true. change (asciiSpace " ") with true.
  cbn [negb]. rewrite A1, S1. cbn [negb]. rewrite <- E. apply srev_involutive.
Qed.

Lemma ends_kept_Join a l :
  Forall (fun a => plain a /\ lacks "," a = true) (a :: l) ->
  ends_kept (Join (a :: l) ", ").
Proof.
  revert a. induction l as [|b l IH]; intros a H; apply Forall_cons in H as [[Ha _] Hl].
  - apply ends_kept_plain, Ha.
  - change (Join (a :: b :: l) ", ") with (a +:+ ", " +:+ Join (b :: l) ", ").
    apply ends_kept_mid; [apply ends_kept_plain, Ha|apply IH, Hl].
Qed.

Lemma Split_Join a l :
  Forall (fun a => plain a /\ lacks "," a = true) (a :: l) ->
  Split (Join (a :: l) ", ") "," = a :: map (String " ") l.
Proof.
  revert a. induction l as [|b l IH]; intros a H; apply Forall_cons in H as [[_ Ha] Hl].
  - cbn [Join map]. apply Split_lacks, Ha.
  - change (Join (a :: b :: l) ", ")
      with (a +:+ String "," (String " " (Join (b :: l) ", "))).
    rewrite Split_app, (Split_lacks a) by assumption.
    cbn [Split app]. change (Ascii.eqb " " ",") with false. cbv iota.
    rewrite IH by assumption. reflexivity.
Qed.

Lemma map_TrimSpace_ips l :
  Forall (fun a => plain a /\ lacks "," a = true) l ->
  map TrimSpace (map (String " ") l) = l.
Proof.
  induction 1 as [|a l [Ha _] Hl IH]; [reflexivity|]. cbn [map].
  rewrite TrimSpace_space_l, TrimSpace_ends_kept, IH by (apply ends_kept_plain, Ha).
  reflexivity.
Qed.

(** One "key = value" line read by the loop of [GetPeers], for a key
    that begins with a letter. *)
Lemma peers_step_kv ps q k0 krest value :
  let key := String k0 krest in
  plain key -> lacks "=" key = true ->
  Ascii.eqb k0 "#" = false -> Ascii.eqb k0 "[" = false ->
  ends_kept value ->
  peers_step (ps, Some q) (key +:+ " = " +:+ value)
  = (ps, Some (set_property q key value)).
Proof.
  intros key Hk Hl H1 H2 Hv. unfold peers_step.
  assert (Hline : ends_kept (key +:+ " = " +:+ value))
    by (apply ends_kept_mid; [apply ends_kept_plain, Hk|exact Hv]).
  rewrite (TrimSpace_ends_kept _ Hline).
  assert (Hform : key +:+ " = " +:+ value
                  = (key +:+ " ") +:+ String "=" (String " " value))
    by (rewrite sapp_assoc; reflexivity).
  assert (Hhead : exists rest, key +:+ " = " +:+ value = String k0 rest)
    by (eexists; subst key; apply sapp_cons).
  destruct Hhead as [rest Hhead].
  assert (C1 : String.eqb (key +:+ " = " +:+ value) ""
               || HasPrefix (key +:+ " = " +:+ value) "#" = false)
    by (rewrite Hhead; cbn [String.eqb HasPrefix]; rewrite H1; reflexivity).
  assert (C2 : String.eqb (key +:+ " = " +:+ value) "[Peer]" = false)
    by (rewrite Hhead; cbn [String.eqb]; rewrite H2; reflexivity).
  rewrite C1, C2, Hform, Contains_char_app.
  rewrite SplitN2_cut by (rewrite lacks_app, Hl; reflexivity).
  rewrite TrimSpace_space_r by (apply ends_kept_plain, Hk).
  rewrite TrimSpace_space_l, (TrimSpace_ends_kept _ Hv). reflexivity.
Qed.

Lemma peers_step_header st :
  peers_step st "[Peer]" = (flush (fst st) (snd st), Some emptyPeer).
Proof. destruct st. reflexivity. Qed.

Lemma peers_step_blank st : peers_step st "" = st.
Proof. destruct st. reflexivity. Qed.

Lemma peers_step_tail p ps q :
  wf_peer p ->
  fold_left peers_step (tail_lines p) (ps, Some q)
  = (ps, Some (mkPeer (PublicKey q) (AllowedIPs p)
                 (if String.eqb (Endpoint p) "" then Endpoint q else Endpoint p)
                 (if 0 <? PersistentKA p then PersistentKA p else PersistentKA q))).
Proof.
  intros (Hpk & Hne & Hips & Hep & Hka). unfold tail_lines.
  rewrite !fold_left_app. cbn [fold_left].
  destruct (AllowedIPs p) as [|a l] eqn:Ea; [contradiction|].
  change (ip_line p) with ("AllowedIPs" +:+ " = " +:+ Join (AllowedIPs p) ", ").
  rewrite Ea.
  rewrite (peers_step_kv ps q "A" "llowedIPs")
    by (try reflexivity; try (split; [reflexivity|discriminate]);
        apply ends_kept_Join, Hips).
  unfold set_property at 1. cbn [String.eqb Ascii.eqb Bool.eqb andb].
  rewrite Split_Join by assumption. cbn [map].
  apply Forall_cons in Hips as [[Ha _] Hl].
  rewrite map_TrimSpace_ips, TrimSpace_ends_kept by (assumption || apply ends_kept_plain, Ha).
  cbn [PublicKey Endpoint PersistentKA].
  destruct (String.eqb (Endpoint p) "") eqn:Ee; cbn [fold_left].
  - destruct (0 <? PersistentKA p) eqn:Ek; cbn [fold_left]; [|reflexivity].
    apply Z.ltb_lt in Ek.
    change (ka_line p) with ("PersistentKeepalive" +:+ " = " +:+ Itoa (PersistentKA p)).
    rewrite (peers_step_kv _ _ "P" "ersistentKeepalive")
      by (try reflexivity; try (split; [reflexivity|discriminate]);
          apply ends_kept_plain, Itoa_clean; lia).
    unfold set_property. cbn [String.eqb Ascii.eqb Bool.eqb andb].
    rewrite Atoi_Itoa by lia. reflexivity.
  - apply String.eqb_neq in Ee.
    change (ep_line p) with ("Endpoint" +:+ " = " +:+ Endpoint p).
    rewrite (peers_step_kv _ _ "E" "ndpoint")
      by (try reflexivity; try (split; [reflexivity|discriminate]);
          apply ends_kept_plain; split; assumption).
    unfold set_property at 1. cbn [String.eqb Ascii.eqb Bool.eqb andb].
    cbn [PublicKey AllowedIPs Endpoint PersistentKA].
    destruct (0 <? PersistentKA p) eqn:Ek; cbn [fold_left]; [|reflexivity].
    apply Z.ltb_lt in Ek.
    change (ka_line p) with ("PersistentKeepalive" +:+ " = " +:+ Itoa (PersistentKA p)).
    rewrite (peers_step_kv _ _ "P" "ersistentKeepalive")
      by (try reflexivity; try (split; [reflexivity|discriminate]);
          apply ends_kept_plain, Itoa_clean; lia).
    unfold set_property. cbn [String.eqb Ascii.eqb Bool.eqb andb].
    rewrite Atoi_Itoa by lia. reflexivity.
Qed.

Lemma peers_step_peer_lines p st :
  wf_peer p ->
  fold_left peers_step (peer_lines p ++ [""]) st
  = (flush (fst st) (snd st), Some p).
Proof.
  intros W. pose proof W as (Hpk & Hne & Hips & Hep & Hka).
  unfold peer_lines. cbn [app fold_left]. rewrite peers_step_header.
  change (pk_line p) with ("PublicKey" +:+ " = " +:+ PublicKey p).
  rewrite (peers_step_kv _ _ "P" "ublicKey")
    by (try reflexivity; try (split; [reflexivity|discriminate]);
        apply ends_kept_plain, Hpk).
  unfold set_property. cbn [String.eqb Ascii.eqb Bool.eqb andb].
  rewrite fold_left_app, peers_step_tail by assumption.
  cbn [fold_left emptyPeer PublicKey AllowedIPs Endpoint PersistentKA].
  rewrite peers_step_blank. f_equal. f_equal.
  destruct p as [K ips E KA]. cbn [PublicKey AllowedIPs Endpoint PersistentKA] in *.
  f_equal.
  - destruct (String.eqb E "") eqn:Ee; [|reflexivity].
    apply String.eqb_eq in Ee. congruence.
  - destruct (0 <? KA) eqn:Ek; [reflexivity|]. apply Z.ltb_ge in Ek. lia.
Qed.
End ReadBack.

Section AddPeerFacts.
Import GoStrings WireGuard.
Context {UT : UnicodeTrim}.

Lemma keeps_LF : keeps "010" = false.
Proof. reflexivity. Qed.

Lemma Join_lacks_LF l :
  Forall (fun a => plain a /\ lacks "," a = true) l ->
  lacks "010" (Join l ", ") = true.
Proof.
  induction 1 as [|a l [[Ha _] _] Hl IH]; [reflexivity|].
  destruct l as [|b l]; [apply clean_lacks; [reflexivity|exact Ha]|].
  change (Join (a :: b :: l) ", ") with (a +:+ ", " +:+ Join (b :: l) ", ").
  rewrite !lacks_app, IH, (clean_lacks "010" a) by (reflexivity || assumption).
  reflexivity.
Qed.

Lemma peer_lines_lack_LF p :
  wf_peer p -> Forall (fun l => lacks "010" l = true) (peer_lines p).
Proof.
  intros (Hpk & Hne & Hips & Hep & Hka). unfold peer_lines, tail_lines.
  constructor; [reflexivity|]. constructor.
  { unfold pk_line. rewrite lacks_app, (clean_lacks "010" (PublicKey p)); [reflexivity..|apply Hpk]. }
  apply Forall_app. split.
  { constructor; [|constructor]. unfold ip_line. rewrite lacks_app, Join_lacks_LF by assumption.
    reflexivity. }
  apply Forall_app. split.
  - destruct (String.eqb (Endpoint p) ""); constructor; [|constructor].
    unfold ep_line. rewrite lacks_app, (clean_lacks "010" (Endpoint p)); [reflexivity..|assumption].
  - destruct (0 <? PersistentKA p); constructor; [|constructor].
    unfold ka_line. rewrite lacks_app, (clean_lacks "010" (Itoa (PersistentKA p)));
      [reflexivity..|apply Itoa_clean; lia].
Qed.

(** Such a text, when its lines have no newline, splits back into
    those lines and one empty piece. *)
Lemma Split_unlines l :
  Forall (fun x => lacks "010" x = true) l ->
  Split (unlines l) "010" = l ++ [""].
Proof.
  induction 1 as [|a l Ha Hl IH]; [reflexivity|]. cbn [unlines].
  change (a +:+ nl +:+ unlines l) with (a +:+ String "010" (unlines l)).
  rewrite Split_app, Split_lacks, IH by assumption. reflexivity.
Qed.

Lemma peerConfig_unlines p : peerConfig p = nl +:+ unlines (peer_lines p).
Proof.
  unfold peerConfig, peer_lines, tail_lines, pk_line, ip_line, ep_line, ka_line.
  cbn [unlines app].
  destruct (String.eqb (Endpoint p) ""), (0 <? PersistentKA p);
    cbn [unlines app]; rewrite ?sapp_assoc, ?sapp_nil_r; reflexivity.
Qed.

Lemma Split_added content p :
  wf_peer p ->
  Split (content +:+ peerConfig p) "010"
  = Split content "010" ++ peer_lines p ++ [""].
Proof.
  intros W. rewrite peerConfig_unlines.
  change (content +:+ nl +:+ unlines (peer_lines p))
    with (content +:+ String "010" (unlines (peer_lines p))).
  rewrite Split_app, Split_unlines by (apply peer_lines_lack_LF, W). reflexivity.
Qed.

Lemma flush_flush ps cur p :
  PublicKey p <> "" ->
  flush (flush ps cur) (Some p) = flush ps cur ++ [p].
Proof.
  intros H. cbn [flush]. apply String.eqb_neq in H. rewrite H. reflexivity.
Qed.

(** After [AddPeer], the peers read from the file are those it held,
    followed by the new one. *)
Lemma parsePeers_added content p :
  wf_peer p ->
  parsePeers (content +:+ peerConfig p) = parsePeers content ++ [p].
Proof.
  intros W. unfold parsePeers. rewrite Split_added, fold_left_app by assumption.
  rewrite peers_step_peer_lines by assumption.
  destruct (fold_left peers_step (Split content "010") ([], None)) as [ps cur].
  cbn [fst snd]. apply flush_flush. destruct W as [[_ H] _]. exact H.
Qed.
End AddPeerFacts.

(** ** The scanner *)

Section ScanFacts.
Import GoStrings WireGuard.

Lemma lacks_occurs c t s : occurs_in t s -> lacks c s = true -> lacks c t = true.
Proof.
  intros (a & b & ->). rewrite !lacks_app. intros H.
  apply andb_true_iff in H as [_ H]. apply andb_true_iff in H as [H _]. exact H.
Qed.

Lemma dropCR_occurs s : occurs_in (dropCR s) s.
Proof.
  unfold dropCR. destruct (srev s) as [|c r] eqn:E; [apply occurs_refl|].
  destruct (Ascii.eqb c "013"); [|apply occurs_refl].
  eapply occurs_srev_tail, E.
Qed.

Lemma dropCR_ends_kept s : ends_kept s -> dropCR s = s.
Proof.
  intros (c0 & s' & c1 & r & -> & _ & E & H1). unfold dropCR. rewrite E.
  destruct (Ascii.eqb c1 "013") eqn:Ec; [|reflexivity].
  apply Ascii.eqb_eq in Ec. subst c1. discriminate.
Qed.

Lemma scan_pieces_snoc X : scan_pieces (X ++ [""]) = scan_body X.
Proof.
  induction X as [|x X IH]; [reflexivity|].
  cbn [app scan_pieces scan_body]. rewrite IH.
  destruct (X ++ [""]) eqn:E; [destruct X; discriminate|]. reflexivity.
Qed.

Lemma scan_pieces_app A : forall B,
  B <> [] ->
  scan_pieces (A ++ B)
  = match scan_body A with
    | (la, true) => (la, true)
    | (la, false) => let '(lb, eb) := scan_pieces B in (la ++ lb, eb)
    end.
Proof.
  induction A as [|a A IH]; intros B HB.
  - cbn [app scan_body]. destruct (scan_pieces B). reflexivity.
  - cbn [app scan_body].
    assert (scan_pieces (a :: A ++ B)
            = if too_long a then ([], true)
              else let '(ls, e) := scan_pieces (A ++ B) in (dropCR a :: ls, e)) as ->.
    { cbn [scan_pieces]. destruct (A ++ B) eqn:E; [|reflexivity].
      destruct A; [cbn in E; contradiction|discriminate]. }
    destruct (too_long a); [reflexivity|]. rewrite IH by assumption.
    destruct (scan_body A) as [la [|]]; [reflexivity|].
    destruct (scan_pieces B). reflexivity.
Qed.

Lemma scan_body_prefix X :
  exists X1 X2, X = X1 ++ X2 /\ fst (scan_body X) = map dropCR X1.
Proof.
  induction X as [|x X (X1 & X2 & E & H)]; [exists [], []; auto|].
  cbn [scan_body]. destruct (too_long x).
  - exists [], (x :: X). auto.
  - exists (x :: X1), X2. split; [rewrite E; reflexivity|].
    destruct (scan_body X). cbn [fst map] in *. rewrite H. reflexivity.
Qed.

Lemma scan_lines_single l :
  lacks "010" l = true ->
  scan_lines (l +:+ nl)
  = if too_long l then ([], true) else ([dropCR l], false).
Proof.
  intros H. unfold scan_lines.
  change (l +:+ nl) with (l +:+ String "010" "").
  rewrite Split_app, Split_lacks by assumption. cbn [Split app scan_pieces].
  destruct (too_long l); reflexivity.
Qed.

Lemma scan_lines_lack s : Forall (fun l => lacks "010" l = true) (fst (scan_lines s)).
Proof.
  unfold scan_lines. pose proof (Split_pieces_lack s "010") as H.
  induction H as [|p rest Hp Hr IH]; [constructor|].
  cbn [scan_pieces]. destruct rest as [|q rest'].
  - destruct (too_long p); [constructor|]. destruct p; [constructor|].
    constructor; [|constructor]. eapply lacks_occurs; [apply dropCR_occurs|exact Hp].
  - destruct (too_long p); [constructor|].
    destruct (scan_pieces (q :: rest')) as [ls e]. cbn [fst] in *.
    constructor; [|exact IH]. eapply lacks_occurs; [apply dropCR_occurs|exact Hp].
Qed.
End ScanFacts.

(** ** [RemovePeer] *)

Section RemoveFacts.
Import GoStrings WireGuard.
Context {UT : UnicodeTrim}.

(** The outer loop always comes to an end with the fuel it is given. *)
Lemma read_section_length K rem : forall err temp,
  Forall (fun l => lacks "010" l = true) rem ->
  let '(_, _, rem', _) := read_section K rem err temp in
  Forall (fun l => lacks "010" l = true) rem' /\ (length rem' <= length rem)%nat.
Proof.
  induction rem as [|x rem IH]; intros err temp H; cbn [read_section].
  - split; [constructor|lia].
  - apply Forall_cons in H as [Hx Hr].
    destruct (HasPrefix (TrimSpace x) "PublicKey = " && Contains x K).
    { split; [assumption|cbn; lia]. }
    destruct (HasPrefix (TrimSpace x) "[" || String.eqb (TrimSpace x) "").
    + pose proof (scan_lines_lack (x +:+ nl)) as HL.
      rewrite scan_lines_single in * by assumption.
      destruct (too_long x); cbn [fst] in HL; (split; [exact HL|cbn; lia]).
    + specialize (IH err (temp ++ [x]) Hr).
      destruct (read_section K rem err (temp ++ [x])) as [[[t s] r] e].
      destruct IH as [I1 I2]. split; [assumption|cbn; lia].
Qed.

Lemma remove_loop_total fuel K : forall rem err skip newLines,
  Forall (fun l => lacks "010" l = true) rem ->
  (length rem < fuel)%nat ->
  exists r, remove_loop fuel K rem err skip newLines = Some r.
Proof.
  induction fuel as [|fuel IH]; intros rem err skip newLines H Hf; [lia|].
  cbn [remove_loop]. destruct rem as [|line rem]; [eauto|].
  apply Forall_cons in H as [Hl Hr]. cbn [length] in Hf.
  destruct (String.eqb (TrimSpace line) "[Peer]").
  - pose proof (read_section_length K rem err [line] Hr) as L.
    destruct (read_section K rem err [line]) as [[[t s] r] e].
    destruct L as [L1 L2]. apply IH; [assumption|lia].
  - apply IH; [assumption|lia].
Qed.

Theorem RemovePeer_returns f K write_ok : RemovePeer f K write_ok <> Diverges.
Proof.
  unfold RemovePeer. destruct f as [| |content]; try discriminate.
  pose proof (scan_lines_lack content) as H.
  destruct (scan_lines content) as [lines err]. cbn [fst] in H.
  destruct (remove_loop_total (S (length lines)) K lines err false [] H ltac:(lia))
    as [[out [|]] ->]; [discriminate|].
  destruct write_ok; discriminate.
Qed.

(** *** What the loop lets through *)

Variable content : string.
Variable K : string.
Hypothesis K_absent : Contains content K = false.

Hypothesis K_nonempty : K <> "".
Hypothesis TrimFunc_occurs : forall s, occurs_in (TrimFunc_IsSpace s) s.
Hypothesis TrimRightFunc_occurs : forall s, occurs_in (TrimRightFunc_IsSpace s) s.

Lemma Contains_occurs s sub : Contains s sub = true -> occurs_in sub s.
Proof.
  induction s as [|c s IH]; rewrite Contains_unfold; intros H;
    apply orb_true_iff in H as [H|H].
  - apply HasPrefix_inv in H as [b ->]. exists "", b. reflexivity.
  - discriminate.
  - apply HasPrefix_inv in H as [b ->]. exists "", b. reflexivity.
  - apply occurs_cons, IH, H.
Qed.

Lemma K_not_in l : occurs_in l content -> Contains l K = false.
Proof.
  intros Ho. destruct (Contains l K) eqn:E; [|reflexivity].
  apply Contains_occurs in E.
  rewrite (occurs_Contains K content) in K_absent; [discriminate|].
  eapply occurs_trans; eassumption.
Qed.

Lemma good_no_match l :
  good content l ->
  HasPrefix (TrimSpace l) "PublicKey = " && Contains l K = false.
Proof.
  intros [[Ho| ->] _]; [|reflexivity].
  rewrite (K_not_in l Ho). apply andb_false_r.
Qed.

Lemma good_dropCR l : good content l -> good content (dropCR l).
Proof.
  intros [[Ho| ->] Hl]; [|split; [right|]; reflexivity].
  split.
  - left. eapply occurs_trans; [apply dropCR_occurs|exact Ho].
  - eapply lacks_occurs; [apply dropCR_occurs|exact Hl].
Qed.

Lemma good_header : good content "[Peer]".
Proof. split; [right|]; reflexivity. Qed.

Lemma scan_single_good l :
  good content l -> Forall (good content) (fst (scan_lines (l +:+ nl))).
Proof.
  intros G. rewrite scan_lines_single by apply G.
  destruct (too_long l); cbn [fst]; [constructor|].
  constructor; [apply good_dropCR, G|constructor].
Qed.

(** The inner loop over lines of the old text, possibly followed by
    anything that starts with a section header. *)
Lemma read_section_good rem : forall err temp after,
  Forall (good content) rem -> Forall (good content) temp ->
  (after = [] \/ exists rest, after = "[Peer]" :: rest) ->
  let '(temp', _, rem', _) := read_section K (rem ++ after) err temp in
  Forall (good content) temp' /\ Forall (good content) rem'.
Proof.
  induction rem as [|x rem IH]; intros err temp after Hr Ht Ha.
  - rewrite List.app_nil_l. destruct Ha as [->|[rest ->]]; cbn [read_section].
    + split; [assumption|constructor].
    + change (HasPrefix (TrimSpace "[Peer]") "PublicKey = " && Contains "[Peer]" K)
        with (false && Contains "[Peer]" K). cbn [andb].
      change (HasPrefix (TrimSpace "[Peer]") "[" || String.eqb (TrimSpace "[Peer]") "")
        with true. cbv iota.
      pose proof (scan_single_good "[Peer]" good_header) as S.
      destruct (scan_lines ("[Peer]" +:+ nl)) as [ls e]. cbn [fst] in S.
      split; [|exact S]. apply Forall_app. split; [assumption|].
      constructor; [apply good_header|constructor].
  - apply Forall_cons in Hr as [Hx Hr]. rewrite <- app_comm_cons. cbn [read_section].
    rewrite (good_no_match x Hx).
    assert (Ht' : Forall (good content) (temp ++ [x])).
    { apply Forall_app. split; [assumption|]. constructor; [assumption|constructor]. }
    destruct (HasPrefix (TrimSpace x) "[" || String.eqb (TrimSpace x) "").
    + pose proof (scan_single_good x Hx) as S.
      destruct (scan_lines (x +:+ nl)) as [ls e]. cbn [fst] in S. auto.
    + apply IH; assumption.
Qed.

Lemma remove_loop_good fuel : forall rem err skip newLines out e,
  Forall (good content) rem -> Forall (good content) newLines ->
  remove_loop fuel K rem err skip newLines = Some (out, e) ->
  Forall (good content) out.
Proof.
  induction fuel as [|fuel IH]; intros rem err skip newLines out e Hr Hn; [discriminate|].
  cbn [remove_loop]. destruct rem as [|line rem]; [intros [= <- <-]; assumption|].
  apply Forall_cons in Hr as [Hl Hr].
  destruct (String.eqb (TrimSpace line) "[Peer]").
  - pose proof (read_section_good rem err [line] [] Hr
                  ltac:(constructor; [assumption|constructor]) ltac:(left; reflexivity)) as R.
    rewrite List.app_nil_r in R.
    destruct (read_section K rem err [line]) as [[[t s] r] e'].
    destruct R as [R1 R2]. apply IH; [assumption|].
    destruct s; [assumption|]. apply Forall_app. auto.
  - apply IH; [assumption|].
    destruct skip; [assumption|]. apply Forall_app. split; [assumption|].
    constructor; [assumption|constructor].
Qed.

Lemma remove_loop_inert fuel : forall rem err newLines out e,
  Forall inert rem ->
  remove_loop fuel K rem err true newLines = Some (out, e) -> out = newLines.
Proof.
  induction fuel as [|fuel IH]; intros rem err newLines out e Hr; [discriminate|].
  cbn [remove_loop]. destruct rem as [|line rem]; [intros [= <- <-]; reflexivity|].
  apply Forall_cons in Hr as [[H1 H2] Hr]. rewrite H1, H2. cbn [andb].
  apply IH, Hr.
Qed.

(** The whole loop over the old lines followed by the section of a peer
    with key [K]. *)
Lemma remove_loop_section fuel pk tail : forall rem err newLines out e,
  HasPrefix (TrimSpace pk) "PublicKey = " && Contains pk K = true ->
  Forall inert tail ->
  Forall (good content) rem -> Forall (good content) newLines ->
  remove_loop fuel K (rem ++ "[Peer]" :: pk :: tail) err false newLines
    = Some (out, e) ->
  Forall (good content) out.
Proof.
  intros rem err newLines out e Hpk Ht. revert rem err newLines.
  induction fuel as [|fuel IH]; intros rem err newLines Hr Hn; [discriminate|].
  destruct rem as [|line rem].
  - rewrite List.app_nil_l. cbn [remove_loop read_section].
    change (String.eqb (TrimSpace "[Peer]") "[Peer]") with true. cbv iota.
    rewrite Hpk. intros H. apply remove_loop_inert in H; [|assumption].
    subst out. assumption.
  - apply Forall_cons in Hr as [Hl Hr]. rewrite <- app_comm_cons. cbn [remove_loop].
    destruct (String.eqb (TrimSpace line) "[Peer]").
    + pose proof (read_section_good rem err [line] ("[Peer]" :: pk :: tail) Hr
                    ltac:(constructor; [assumption|constructor])
                    ltac:(right; eauto)) as R.
      destruct (read_section K (rem ++ "[Peer]" :: pk :: tail) err [line])
        as [[[t s] r] e'].
      destruct R as [R1 R2]. apply remove_loop_good; [assumption|].
      destruct s; [assumption|]. apply Forall_app. auto.
    + cbn [andb]. apply IH; [assumption|].
      apply Forall_app. split; [assumption|]. constructor; [assumption|constructor].
Qed.
End RemoveFacts.

Section RoundTrip.
Import GoStrings WireGuard.
Context {UT : UnicodeTrim}.
Hypothesis TrimFunc_occurs : forall s, occurs_in (TrimFunc_IsSpace s) s.
Hypothesis TrimRightFunc_occurs : forall s, occurs_in (TrimRightFunc_IsSpace s) s.

Lemma Split_Join_lines out :
  Forall (fun l => lacks "010" l = true) out ->
  Split (Join out nl) "010" = match out with [] => [""] | _ => out end.
Proof.
  induction 1 as [|a l Ha Hl IH]; [reflexivity|].
  destruct l as [|b l]; [apply Split_lacks, Ha|].
  change (Join (a :: b :: l) nl) with (a +:+ String "010" (Join (b :: l) nl)).
  rewrite Split_app, Split_lacks, IH by assumption. reflexivity.
Qed.

Lemma kv_line_inert k0 krest value :
  let key := String k0 krest in
  plain key -> Ascii.eqb k0 "[" = false -> ends_kept value ->
  inert (key +:+ " = " +:+ value).
Proof.
  intros key Hk H0 Hv.
  assert (Hline : ends_kept (key +:+ " = " +:+ value))
    by (apply ends_kept_mid; [apply ends_kept_plain, Hk|exact Hv]).
  unfold inert. rewrite (TrimSpace_ends_kept _ Hline).
  subst key. rewrite sapp_cons. cbn [String.eqb HasPrefix]. rewrite H0. auto.
Qed.

Lemma tail_lines_inert p : wf_peer p -> Forall inert (tail_lines p).
Proof.
  intros (Hpk & Hne & Hips & Hep & Hka). unfold tail_lines.
  apply Forall_app. split; [|apply Forall_app; split].
  - constructor; [|constructor].
    destruct (AllowedIPs p) as [|a l] eqn:E; [contradiction|].
    change (ip_line p) with ("AllowedIPs" +:+ " = " +:+ Join (AllowedIPs p) ", ").
    apply kv_line_inert; [split; [reflexivity|discriminate]|reflexivity|].
    rewrite E. apply ends_kept_Join, Hips.
  - destruct (String.eqb (Endpoint p) "") eqn:E; constructor; [|constructor].
    apply String.eqb_neq in E.
    change (ep_line p) with ("Endpoint" +:+ " = " +:+ Endpoint p).
    apply kv_line_inert; [split; [reflexivity|discriminate]|reflexivity|].
    apply ends_kept_plain. split; assumption.
  - destruct (0 <? PersistentKA p) eqn:E; constructor; [|constructor].
    change (ka_line p) with ("PersistentKeepalive" +:+ " = " +:+ Itoa (PersistentKA p)).
    apply kv_line_inert; [split; [reflexivity|discriminate]|reflexivity|].
    apply ends_kept_plain, Itoa_clean. lia.
Qed.

Lemma pk_line_matches p :
  wf_peer p ->
  HasPrefix (TrimSpace (pk_line p)) "PublicKey = "
  && Contains (pk_line p) (PublicKey p) = true.
Proof.
  intros (Hpk & _).
  assert (Hline : ends_kept (pk_line p)).
  { change (pk_line p) with ("PublicKey" +:+ " = " +:+ PublicKey p).
    apply ends_kept_mid; [apply ends_kept_plain; split; [reflexivity|discriminate]|].
    apply ends_kept_plain, Hpk. }
  rewrite (TrimSpace_ends_kept _ Hline). unfold pk_line.
  rewrite HasPrefix_app. apply occurs_Contains.
  exists "PublicKey = ", "". rewrite sapp_nil_r. reflexivity.
Qed.

Lemma peer_lines_dropCR p : wf_peer p -> map dropCR (peer_lines p) = peer_lines p.
Proof.
  intros W. pose proof W as (Hpk & Hne & Hips & Hep & Hka).
  assert (H : Forall ends_kept (peer_lines p)).
  { unfold peer_lines, tail_lines. constructor.
    { apply ends_kept_plain. split; [reflexivity|discriminate]. }
    constructor.
    { change (pk_line p) with ("PublicKey" +:+ " = " +:+ PublicKey p).
      apply ends_kept_mid; apply ends_kept_plain;
        [split; [reflexivity|discriminate]|exact Hpk]. }
    apply Forall_app. split; [|apply Forall_app; split].
    - constructor; [|constructor].
      destruct (AllowedIPs p) as [|a l] eqn:E; [contradiction|].
      change (ip_line p) with ("AllowedIPs" +:+ " = " +:+ Join (AllowedIPs p) ", ").
      apply ends_kept_mid; [apply ends_kept_plain; split; [reflexivity|discriminate]|].
      rewrite E. apply ends_kept_Join, Hips.
    - destruct (String.eqb (Endpoint p) "") eqn:E; constructor; [|constructor].
      apply String.eqb_neq in E.
      change (ep_line p) with ("Endpoint" +:+ " = " +:+ Endpoint p).
      apply ends_kept_mid; apply ends_kept_plain;
        [split; [reflexivity|discriminate]|split; assumption].
    - destruct (0 <? PersistentKA p) eqn:E; constructor; [|constructor].
      change (ka_line p) with ("PersistentKeepalive" +:+ " = " +:+ Itoa (PersistentKA p)).
      apply ends_kept_mid; apply ends_kept_plain;
        [split; [reflexivity|discriminate]|apply Itoa_clean; lia]. }
  induction H as [|l ls Hl Hls IH]; [reflexivity|].
  cbn [map]. rewrite dropCR_ends_kept, IH by assumption. reflexivity.
Qed.

(** The lines the scanner delivers for the file after [AddPeer]: lines
    of the old text, then the beginning of the new section, as far as the
    scanner gets. *)
Lemma scan_lines_added content p :
  wf_peer p ->
  exists G T T',
    fst (scan_lines (content +:+ peerConfig p)) = G ++ T
    /\ Forall (good content) G
    /\ peer_lines p = T ++ T'.
Proof.
  intros W. unfold scan_lines. rewrite Split_added by assumption.
  rewrite scan_pieces_app by (destruct (peer_lines p); discriminate).
  rewrite scan_pieces_snoc.
  assert (HG : Forall (good content) (fst (scan_body (Split content "010")))).
  { pose proof (Split_pieces_occur content "010") as Ho.
    pose proof (Split_pieces_lack content "010") as Hl.
    induction (Split content "010") as [|x X IH]; [constructor|].
    apply Forall_cons in Ho as [Ho1 Ho2]. apply Forall_cons in Hl as [Hl1 Hl2].
    cbn [scan_body]. destruct (too_long x); [constructor|].
    specialize (IH Ho2 Hl2). destruct (scan_body X) as [ls e]. cbn [fst] in *.
    constructor; [|exact IH].
    apply (good_dropCR content). split; [left|]; assumption. }
  destruct (scan_body (Split content "010")) as [la [|]]; cbn [fst] in *.
  - exists la, [], (peer_lines p). rewrite List.app_nil_r. auto.
  - destruct (scan_body_prefix (peer_lines p)) as (X1 & X2 & E & H).
    destruct (scan_body (peer_lines p)) as [lb eb]. cbn [fst] in *.
    exists la, X1, X2. split; [|split; [assumption|exact E]].
    rewrite H. f_equal.
    pose proof (peer_lines_dropCR p W) as D. rewrite E, map_app in D.
    apply app_inj_1 in D; [apply D|]. rewrite length_map. reflexivity.
Qed.

(** No line that [RemovePeer] keeps carries the removed key. *)
Lemma RemovePeer_lines content p out e :
  wf_peer p ->
  Contains content (PublicKey p) = false ->
  (let '(lines, err) := scan_lines (content +:+ peerConfig p) in
   remove_loop (S (length lines)) (PublicKey p) lines err false [])
  = Some (out, e) ->
  Forall (good content) out.
Proof.
  intros W Habs. destruct (scan_lines_added content p W) as (G & T & T' & E & HG & HT).
  destruct (scan_lines (content +:+ peerConfig p)) as [lines err]. cbn [fst] in E.
  subst lines. unfold peer_lines in HT.
  destruct T as [|h [|pk tail]].
  - rewrite List.app_nil_r. apply (remove_loop_good content _ Habs); [assumption|constructor].
  - cbn [app] in HT. injection HT as <- _.
    apply (remove_loop_good content _ Habs); [|constructor].
    apply Forall_app. split; [assumption|].
    constructor; [apply good_header|constructor].
  - cbn [app] in HT. injection HT as <- <- HT.
    apply (remove_loop_section content _ Habs); [apply pk_line_matches, W| |assumption|constructor].
    pose proof (tail_lines_inert p W) as I. rewrite HT in I.
    apply Forall_app in I. apply I.
Qed.

(** Reading peers from lines that do not carry the key [K]. *)
Lemma set_property_key q k v K :
  PublicKey q <> K -> (String.eqb k "PublicKey" = true -> v <> K) ->
  PublicKey (set_property q k v) <> K.
Proof.
  intros Hq Hv. unfold set_property.
  destruct (String.eqb k "PublicKey"); [cbn; auto|].
  destruct (String.eqb k "AllowedIPs"); [exact Hq|].
  destruct (String.eqb k "Endpoint"); [exact Hq|].
  destruct (String.eqb k "PersistentKeepalive"); [|exact Hq].
  destruct (Atoi v); exact Hq.
Qed.

Lemma flush_key_free K st :
  key_free K st -> Forall (fun q => PublicKey q <> K) (flush (fst st) (snd st)).
Proof.
  intros [H1 H2]. unfold flush. destruct (snd st) as [q|]; [|assumption].
  destruct (String.eqb (PublicKey q) ""); [assumption|].
  apply Forall_app. split; [assumption|]. constructor; [auto|constructor].
Qed.

Lemma peers_step_key_free content K st l :
  Contains content K = false -> K <> "" ->
  good content l -> key_free K st -> key_free K (peers_step st l).
Proof.
  intros Habs Hne Hg Hst. pose proof (flush_key_free K st Hst) as Hfl.
  destruct st as [ps cur]. unfold peers_step.
  destruct (String.eqb (TrimSpace l) "" || HasPrefix (TrimSpace l) "#"); [assumption|].
  destruct (String.eqb (TrimSpace l) "[Peer]") eqn:Eh.
  { split; [exact Hfl|]. cbn [snd]. intros q [= <-]. cbn. congruence. }
  destruct cur as [q|]; [|assumption].
  destruct (Contains (TrimSpace l) "="); [|assumption].
  destruct (SplitN2 (TrimSpace l) "=") as [|k [|v [|? ?]]] eqn:Es; try assumption.
  destruct Hst as [H1 H2]. cbn [fst snd] in *. split; [assumption|].
  intros q' [= <-]. apply set_property_key; [auto|]. intros _ Ev.
  destruct Hg as [[Ho|El] _].
  - assert (occurs_in K content).
    { rewrite <- Ev. eapply occurs_trans; [apply TrimSpace_occurs; assumption|].
      eapply occurs_trans; [eapply SplitN2_occurs, Es|].
      eapply occurs_trans; [apply TrimSpace_occurs; assumption|exact Ho]. }
    rewrite (occurs_Contains K content) in Habs by assumption. discriminate.
  - subst l. discriminate.
Qed.

Lemma parsePeers_key_free content K out :
  Contains content K = false -> K <> "" ->
  Forall (good content) out ->
  Forall (fun q => PublicKey q <> K) (parsePeers (Join out nl)).
Proof.
  intros Habs Hne Hg. unfold parsePeers.
  rewrite Split_Join_lines
    by (eapply Forall_impl; [exact Hg|]; intros l [_ H]; exact H).
  assert (Hlines : Forall (good content) match out with [] => [""] | _ => out end).
  { destruct out; [|assumption]. constructor; [|constructor].
    split; [left; exists "", content|]; reflexivity. }
  assert (Hfold : forall ls st, Forall (good content) ls -> key_free K st ->
                    key_free K (fold_left peers_step ls st)).
  { induction ls as [|l ls IH]; intros st Hl Hs; [assumption|].
    apply Forall_cons in Hl as [Hl1 Hl2]. cbn [fold_left].
    apply IH; [assumption|]. eapply peers_step_key_free; eassumption. }
  specialize (Hfold _ ([], None) Hlines).
  destruct (fold_left peers_step _ ([], None)) as [ps cur] eqn:E.
  apply (flush_key_free K (ps, cur)). apply Hfold.
  split; [constructor|]. intros q. discriminate.
Qed.
End RoundTrip.

(** ** The claim about [AddPeer], [GetPeers] and [RemovePeer] *)

Section PeerClaims.
Import GoStrings WireGuard.
Context {UT : UnicodeTrim}.
Hypothesis TrimFunc_occurs : forall s, occurs_in (TrimFunc_IsSpace s) s.
Hypothesis TrimRightFunc_occurs : forall s, occurs_in (TrimRightFunc_IsSpace s) s.

Lemma content_lines_good content :
  Forall (good content) (Split content "010").
Proof.
  pose proof (Split_pieces_occur content "010") as Ho.
  pose proof (Split_pieces_lack content "010") as Hl.
  induction (Split content "010") as [|x X IH]; [constructor|].
  apply Forall_cons in Ho as [Ho1 Ho2]. apply Forall_cons in Hl as [Hl1 Hl2].
  constructor; [split; [left|]; assumption|auto].
Qed.

Lemma parsePeers_content_key_free content K :
  Contains content K = false -> K <> "" ->
  Forall (fun q => PublicKey q <> K) (parsePeers content).
Proof.
  intros Habs Hne. unfold parsePeers.
  assert (Hfold : forall ls st, Forall (good content) ls -> key_free K st ->
                    key_free K (fold_left peers_step ls st)).
  { induction ls as [|l ls IH]; intros st Hl Hs; [assumption|].
    apply Forall_cons in Hl as [Hl1 Hl2]. cbn [fold_left].
    apply IH; [assumption|]. eapply peers_step_key_free; eassumption. }
  specialize (Hfold _ ([], None) (content_lines_good content)).
  destruct (fold_left peers_step _ ([], None)) as [ps cur] eqn:E.
  apply (flush_key_free K (ps, cur)). apply Hfold.
  split; [constructor|]. intros q. discriminate.
Qed.

Lemma count_occ_key_free (peers : list Peer) p :
  Forall (fun q => PublicKey q <> PublicKey p) peers ->
  count_occ Peer_eq_dec peers p = 0%nat.
Proof.
  intros H. apply count_occ_not_In. intros Hin.
  rewrite Forall_forall in H. apply list_elem_of_In in Hin.
  apply (H p Hin). reflexivity.
Qed.

(** Take a well-formed peer [p] and a configuration file in whose text
    the public key of [p] does not occur.  After a successful
    [AddPeer p], [GetPeers] returns the peers the file held before,
    followed by [p]: [p] is there exactly once.  [RemovePeer] of that key
    on the resulting file returns, and after a successful one [GetPeers]
    returns no peer with that key: [p] is there zero times.  What becomes
    of the other peers is another matter, see below. *)
Theorem AddPeer_GetPeers_RemovePeer_key content p write1 f1 :
  wf_peer p ->
  Contains content (PublicKey p) = false ->
  AddPeer (File content) p write1 = Ok f1 ->
  GetPeers f1 = Ok (parsePeers content ++ [p])
  /\ count_occ Peer_eq_dec (parsePeers content ++ [p]) p = 1%nat
  /\ forall write2,
       RemovePeer f1 (PublicKey p) write2 <> Diverges
       /\ forall f2,
            RemovePeer f1 (PublicKey p) write2 = Ok f2 ->
            exists peers,
              GetPeers f2 = Ok peers
              /\ Forall (fun q => PublicKey q <> PublicKey p) peers
              /\ count_occ Peer_eq_dec peers p = 0%nat.
Proof.
  intros W Habs Hadd. pose proof W as ([_ Hne] & _).
  unfold AddPeer in Hadd. destruct write1; [|discriminate]. injection Hadd as <-.
  split; [|split].
  - cbn [GetPeers]. rewrite parsePeers_added by assumption. reflexivity.
  - rewrite count_occ_app, count_occ_key_free
      by (apply parsePeers_content_key_free; assumption).
    cbn [count_occ]. destruct (Peer_eq_dec p p); [reflexivity|contradiction].
  - intros write2. split; [apply RemovePeer_returns|].
    intros f2. unfold RemovePeer.
    pose proof (RemovePeer_lines content p) as L.
    destruct (scan_lines (content +:+ peerConfig p)) as [lines err].
    destruct (remove_loop (S (length lines)) (PublicKey p) lines err false [])
      as [[out [|]]|]; try discriminate.
    destruct write2; [|discriminate]. intros [= <-].
    specialize (L out false W Habs eq_refl).
    exists (parsePeers (Join out nl)). split; [reflexivity|].
    assert (Hfree : Forall (fun q => PublicKey q <> PublicKey p)
                      (parsePeers (Join out nl)))
      by (apply (parsePeers_key_free TrimFunc_occurs TrimRightFunc_occurs content);
          assumption).
    split; [exact Hfree|apply count_occ_key_free, Hfree].
Qed.
End PeerClaims.

Section PeerExamples.
Import GoStrings WireGuard.

(** [AddPeer] does not look at what the file holds: on a file that
    already holds the peer, [GetPeers] afterwards returns it twice. *)
Lemma AddPeer_twice_reads_twice :
  GetPeers file_a = Ok [peer_a]
  /\ AddPeer file_a peer_a true = Ok file_aa
  /\ GetPeers file_aa = Ok [peer_a; peer_a]
  /\ count_occ Peer_eq_dec [peer_a; peer_a] peer_a = 2%nat.
Proof. repeat split; vm_compute; reflexivity. Qed.

(** [RemovePeer] can lose sections it was not asked to remove: after a
    section it keeps, it goes on reading from that section's closing line
    alone, and what follows in the file is not written back.  Removing the
    first of three peers also drops the third. *)
Lemma RemovePeer_drops_later_sections :
  GetPeers file_abc = Ok [peer_a; peer_b; peer_c]
  /\ GetPeers (file_of (RemovePeer file_abc (PublicKey peer_a) true))
     = Ok [peer_b].
Proof. split; vm_compute; reflexivity. Qed.

(** C1.  The claim fails on the code through that slip of [RemovePeer].
    A file holds two peers; a third is added, and [GetPeers] reads it
    back exactly once.  It is then removed by its key: [RemovePeer]
    succeeds, and [GetPeers] reads from the file it has written the first
    peer only.  The third peer is gone, as asked, and so is the second,
    whose section was to be left intact. *)
Lemma C1_remove_peer_loses_sections :
  GetPeers file_ab = Ok [peer_a; peer_b]
  /\ AddPeer file_ab peer_c true = Ok file_abc
  /\ GetPeers file_abc = Ok [peer_a; peer_b; peer_c]
  /\ exists f2,
       RemovePeer file_abc (PublicKey peer_c) true = Ok f2
       /\ GetPeers f2 = Ok [peer_a].
Proof.
  split; [vm_compute; reflexivity|]. split; [vm_compute; reflexivity|].
  split; [vm_compute; reflexivity|].
  exists (file_of (RemovePeer file_abc (PublicKey peer_c) true)).
  split; [vm_compute; reflexivity|]. vm_compute. reflexivity.
Qed.

Lemma demo_wf_peer_c : wf_peer peer_c.
Proof.
  unfold wf_peer, plain. cbn [PublicKey AllowedIPs Endpoint PersistentKA peer_c].
  split; [split; [reflexivity|discriminate]|].
  split; [discriminate|]. split; [|split; [reflexivity|lia]].
  repeat (constructor; [split; [split; [reflexivity|discriminate]|reflexivity]|]).
  constructor.
Defined.

Lemma AddPeer_GetPeers_RemovePeer_key_example :
  GetPeers file_c = Ok (parsePeers demo_base ++ [peer_c])
  /\ count_occ Peer_eq_dec (parsePeers demo_base ++ [peer_c]) peer_c = 1%nat
  /\ exists peers,
       GetPeers (file_of (RemovePeer file_c (PublicKey peer_c) true)) = Ok peers
       /\ count_occ Peer_eq_dec peers peer_c = 0%nat.
Proof.
  destruct (@AddPeer_GetPeers_RemovePeer_key AsciiTrim occurs_refl occurs_refl demo_base peer_c true
              file_c demo_wf_peer_c) as (H1 & H2 & H3).
  - vm_compute. reflexivity.
  - vm_compute. reflexivity.
  - split; [assumption|]. split; [assumption|].
    destruct (H3 true) as [_ H4].
    destruct (H4 (file_of (RemovePeer file_c (PublicKey peer_c) true)))
      as (peers & E & _ & C).
    + vm_compute. reflexivity.
    + exists peers. split; assumption.
Defined.
End PeerExamples.

(** * Further properties of the code *)

(** ** The IP pool: addresses by position *)

Section PoolPositions.
Import GoNet IPPool PoolQueries.
Variable parseIPv6 : string -> option IP.

Lemma incrementIP_rev_stops l inc : inc <= 0 -> incrementIP_rev l inc = l.
Proof.
  intros Hi. destruct l as [|b l]; [reflexivity|]. cbn [incrementIP_rev].
  rewrite (proj2 (Z.ltb_ge 0 inc)) by lia. reflexivity.
Qed.

Lemma incrementIP_rev_bytes l : forall inc,
  Forall is_byte l ->
  Forall is_byte (incrementIP_rev l inc)
  /\ length (incrementIP_rev l inc) = length l.
Proof.
  induction l as [|b l IH]; intros inc Hf; cbn [incrementIP_rev]; [auto|].
  apply Forall_cons in Hf as [Hb Hl]. destruct (0 <? inc).
  - destruct (IH (Z.shiftr (wrap_int (b + inc)) 8) Hl) as [I1 I2]. split.
    + apply Forall_cons_2; [|exact I1]. unfold is_byte.
      change 255 with (Z.ones 8). rewrite Z.land_ones by lia.
      apply Z.mod_pos_bound. lia.
    + cbn [length]. rewrite I2. reflexivity.
  - split; [apply Forall_cons_2; assumption|reflexivity].
Qed.

(** The first step may use the whole range of [int]; the carry it
    leaves is small. *)
Lemma incrementIP_rev_first b l inc :
  is_byte b -> Forall is_byte l -> 0 <= inc -> b + inc < 2 ^ 63 ->
  leZ (incrementIP_rev (b :: l) inc)
  = (leZ (b :: l) + inc) mod 256 ^ Z.of_nat (length (b :: l)).
Proof.
  intros Hb Hl H0 Hs. unfold is_byte in Hb.
  destruct (Z.eq_dec inc 0) as [->|Hne].
  - rewrite incrementIP_rev_stops, Z.add_0_r by lia. symmetry. apply Z.mod_small.
    apply (leZ_bound (b :: l)). apply Forall_cons_2; assumption.
  - cbn [incrementIP_rev]. rewrite (proj2 (Z.ltb_lt 0 inc)) by lia.
    rewrite wrap_int_small by lia.
    assert (Hland : Z.land (b + inc) 255 = (b + inc) mod 256).
    { change 255 with (Z.ones 8). rewrite Z.land_ones by lia. reflexivity. }
    assert (Hshr : Z.shiftr (b + inc) 8 = (b + inc) / 256).
    { rewrite Z.shiftr_div_pow2 by lia. reflexivity. }
    rewrite Hland, Hshr.
    assert (Hc : 0 <= (b + inc) / 256 <= 2 ^ 63 - 256).
    { split; [apply Z.div_pos; lia|].
      apply Z.lt_succ_r, Z.div_lt_upper_bound; lia. }
    destruct (incrementIP_rev_spec l _ Hl Hc) as (_ & _ & IH3).
    cbn [leZ fold_right length]. fold (leZ l).
    fold (leZ (incrementIP_rev l ((b + inc) / 256))).
    rewrite IH3, Nat2Z.inj_succ, Z.pow_succ_r by lia.
    pose proof (Z.pow_pos_nonneg 256 (Z.of_nat (length l)) ltac:(lia) ltac:(lia)).
    rewrite (Z.rem_mul_r (b + 256 * leZ l + inc) 256 (256 ^ Z.of_nat (length l))) by lia.
    replace (b + 256 * leZ l + inc) with ((b + inc) + leZ l * 256) by lia.
    rewrite Z.mod_add, Z.div_add by lia.
    replace (leZ l + (b + inc) / 256) with ((b + inc) / 256 + leZ l) by lia.
    reflexivity.
Qed.

(** [incrementIP] keeps the length of the address and its bytes bytes,
    and does nothing for an [inc] that is not positive.  As long as the
    sum of the last byte and [inc] stays in the range of [int], it adds
    [inc] to the address read as a number, modulo 256 to the number of
    bytes.  When that sum leaves the range of [int], only the last byte
    changes: the carry is lost. *)
Theorem incrementIP_adds ip inc :
  Forall is_byte ip ->
  length (incrementIP ip inc) = length ip
  /\ Forall is_byte (incrementIP ip inc)
  /\ (inc <= 0 -> incrementIP ip inc = ip)
  /\ forall pre b, ip = pre ++ [b] ->
       (0 <= inc -> b + inc < 2 ^ 63 ->
        toZ (incrementIP ip inc) = (toZ ip + inc) mod 256 ^ Z.of_nat (length ip))
       /\ (2 ^ 63 <= b + inc -> inc < 2 ^ 63 ->
           incrementIP ip inc = pre ++ [(b + inc) mod 256]).
Proof.
  intros Hf.
  assert (Hr : Forall is_byte (rev ip)) by (apply Forall_rev; assumption).
  destruct (incrementIP_rev_bytes (rev ip) inc Hr) as [B1 B2].
  unfold incrementIP. rewrite length_rev in B2.
  split; [rewrite length_rev; exact B2|].
  split; [apply Forall_rev; exact B1|].
  split; [intros Hi; rewrite incrementIP_rev_stops by exact Hi; apply rev_involutive|].
  intros pre b ->. rewrite rev_app_distr in *. cbn [rev app] in *.
  apply Forall_cons in Hr as [Hb Hl]. split.
  - intros H0 Hs. rewrite !toZ_leZ, rev_involutive.
    rewrite rev_app_distr. cbn [rev app].
    rewrite (incrementIP_rev_first b (rev pre) inc Hb Hl H0 Hs).
    cbn [length]. rewrite List.length_app, length_rev. cbn [length].
    replace (length pre + 1)%nat with (S (length pre)) by lia. reflexivity.
  - intros Hs Hi. unfold is_byte in Hb. cbn [incrementIP_rev].
    rewrite (proj2 (Z.ltb_lt 0 inc)) by lia.
    assert (W : wrap_int (b + inc) = b + inc - 2 ^ 64).
    { unfold wrap_int.
      replace (b + inc + 2 ^ 63) with (b + inc - 2 ^ 63 + 1 * 2 ^ 64) by lia.
      rewrite Z.mod_add, Z.mod_small by lia. lia. }
    rewrite W.
    assert (Hland : Z.land (b + inc - 2 ^ 64) 255 = (b + inc) mod 256).
    { change 255 with (Z.ones 8). rewrite Z.land_ones by lia.
      replace (b + inc - 2 ^ 64) with (b + inc + (- 2 ^ 56) * 2 ^ 8) by lia.
      apply Z.mod_add. lia. }
    rewrite Hland, incrementIP_rev_stops.
    + cbn [rev]. rewrite rev_involutive. reflexivity.
    + rewrite Z.shiftr_div_pow2 by lia.
      apply Z.lt_succ_r, Z.div_lt_upper_bound; lia.
Qed.

Lemma host_spec p net bc k i :
  pool_geom p net bc k -> 0 <= i <= 2 ^ k - 1 ->
  exists x, is_ip4 x /\ toZ x = toZ net + i /\ host p i = IP_String x.
Proof.
  intros (Hn & Hb & Hk & Hbc & Hm & _) Hi.
  assert (Hp : 2 ^ k <= 2 ^ 32) by (apply Z.pow_le_mono_r; lia).
  destruct (incrementIP_spec net i Hn ltac:(lia)) as [H1 H2].
  exists (incrementIP net i). split; [assumption|].
  pose proof (toZ_bound _ Hn). pose proof (toZ_bound _ Hb).
  rewrite Z.mod_small in H2 by lia. split; [assumption|].
  unfold host. rewrite Hm. reflexivity.
Qed.

Lemma host_of p net bc k x :
  pool_geom p net bc k -> is_ip4 x -> toZ net <= toZ x <= toZ bc ->
  IP_String x = host p (toZ x - toZ net).
Proof.
  intros G Hx Hr. pose proof G as (Hn & Hb & Hk & Hbc & _).
  destruct (host_spec p net bc k (toZ x - toZ net) G ltac:(lia)) as (y & Hy & Hv & ->).
  f_equal. apply toZ_inj; [assumption..|lia].
Qed.

Lemma host_inj p net bc k i j :
  pool_geom p net bc k -> 0 <= i <= 2 ^ k - 1 -> 0 <= j <= 2 ^ k - 1 ->
  host p i = host p j -> i = j.
Proof.
  intros G Hi Hj E.
  destruct (host_spec p net bc k i G Hi) as (x & Hx & Vx & Ex).
  destruct (host_spec p net bc k j G Hj) as (y & Hy & Vy & Ey).
  rewrite Ex, Ey in E. apply IP_String_inj in E; [|assumption..]. subst y. lia.
Qed.

Lemma geom_hosts p net bc k :
  pool_geom p net bc k ->
  networkAddress p = host p 0 /\ serverIP p = host p 1
  /\ broadcastAddress p = host p (2 ^ k - 1).
Proof.
  intros G. pose proof G as (Hn & Hb & Hk & Hbc & Hm & _ & En & Eb & Es & _).
  pose proof (pow2_ge8 k ltac:(lia)).
  rewrite En, Eb, Es. split; [|split].
  - rewrite (host_of p net bc k net G Hn) by lia. f_equal. lia.
  - unfold host. rewrite Hm. reflexivity.
  - rewrite (host_of p net bc k bc G Hb) by lia. f_equal. lia.
Qed.

(** The scan of [AllocateIP] stops at the first address without an
    entry. *)
Lemma AllocateIP_loop_first alloc bc : is_ip4 bc ->
  forall fuel cur s m, is_ip4 cur -> toZ cur <= toZ bc ->
  AllocateIP_loop fuel alloc cur (Some bc) = Ok (s, m) ->
  exists x, is_ip4 x /\ toZ cur <= toZ x < toZ bc /\ s = IP_String x
    /\ forall y, is_ip4 y -> toZ cur <= toZ y < toZ x ->
                 lookupB alloc (IP_String y) = true.
Proof.
  intros Hbc. induction fuel as [|fuel IH]; intros cur s m Hcur Hle; [discriminate|].
  cbn [AllocateIP_loop IP_Equal].
  destruct (bool_decide (cur = bc)) eqn:Eq; [discriminate|].
  apply bool_decide_eq_false in Eq.
  assert (Hlt : toZ cur < toZ bc).
  { destruct (Z.eq_dec (toZ cur) (toZ bc)) as [E|]; [|lia].
    apply toZ_inj in E; try assumption. contradiction. }
  destruct (lookupB alloc (IP_String cur)) eqn:El; cbn [negb].
  - destruct (incrementIP_spec cur 1 Hcur ltac:(lia)) as [Hn1 Hn2].
    pose proof (toZ_bound _ Hbc). pose proof (toZ_bound _ Hcur).
    rewrite Z.mod_small in Hn2 by lia. intros E.
    destruct (IH _ _ _ Hn1 ltac:(lia) E) as (x & Hx & Hr & Hs & Hmin).
    exists x. split; [assumption|]. split; [lia|]. split; [assumption|].
    intros y Hy Hry. destruct (Z.eq_dec (toZ y) (toZ cur)) as [Ey|].
    + apply toZ_inj in Ey; try assumption. subst y. assumption.
    + apply Hmin; [assumption|lia].
  - intros [= <- <-]. exists cur. split; [assumption|]. split; [lia|].
    split; [reflexivity|]. intros y _ Hy. lia.
Qed.

Lemma size_insert_fresh (m : gmap string bool) s :
  m !! s = None -> Z.of_nat (size (<[ s := true ]> m)) = Z.of_nat (size m) + 1.
Proof. intros H. rewrite map_size_insert_None by assumption. lia. Qed.

Lemma size_delete_present (m : gmap string bool) s b :
  m !! s = Some b -> Z.of_nat (size (delete s m)) = Z.of_nat (size m) - 1.
Proof.
  intros H. rewrite map_size_delete_Some by eauto.
  assert (size m <> 0%nat).
  { intros Z0. apply map_size_empty_inv in Z0. rewrite Z0, lookup_empty in H.
    discriminate. }
  lia.
Qed.

(** [AllocateIP] is first-fit: it hands out the lowest address from
    position 2 on that has no entry in the allocation map, and reports
    exhaustion exactly when every position from 2 to the last usable one
    has an entry. *)
Theorem AllocateIP_first_fit p :
  reachable parseIPv6 p ->
  match AllocateIP parseIPv6 p with
  | Ok (s, p') =>
      exists i, 2 <= i <= GetTotalIPs p /\ s = host p i
        /\ (forall j, 2 <= j < i -> IsAllocated p (host p j) = true)
        /\ IsAllocated p s = false /\ IsAllocated p' s = true
        /\ GetAvailableCount p' = GetAvailableCount p - 1
  | Err e =>
      e = ErrExhausted
      /\ forall j, 2 <= j <= GetTotalIPs p -> IsAllocated p (host p j) = true
  | Diverges => False
  end.
Proof.
  intros R. apply reachable_inv in R. pose proof R as [(net & bc & k & G) A].
  pose proof (AllocateIP_spec parseIPv6 p net bc k G) as S.
  pose proof G as (Hn & Hb & Hk & Hbc & Hm & _ & _ & Hbs & _ & Ht).
  pose proof (pow2_ge8 k ltac:(lia)) as H8.
  pose proof (toZ_bound _ Hn). pose proof (toZ_bound _ Hb).
  destruct (AllocateIP parseIPv6 p) as [[s p']|e|] eqn:E; [| |assumption].
  - destruct (AllocateIP_Ok parseIPv6 p s p' R E) as (_ & _ & Hnone & Hp').
    unfold AllocateIP in E. rewrite Hm, Hbs, ParseIP_String in E by assumption.
    destruct (incrementIP_spec net 2 Hn ltac:(lia)) as [Hc1 Hc2].
    rewrite Z.mod_small in Hc2 by lia.
    destruct (AllocateIP_loop _ _ _ _) as [[s0 m0]|e0|] eqn:EL; try discriminate.
    injection E as -> _.
    destruct (AllocateIP_loop_first _ bc Hb _ _ _ _ Hc1 ltac:(lia) EL)
      as (x & Hx & Hr & -> & Hmin).
    exists (toZ x - toZ net). unfold GetTotalIPs. rewrite Ht.
    split; [lia|]. split; [apply (host_of p net bc k); [assumption..|lia]|].
    split; [|split; [|split]].
    + intros j Hj.
      destruct (host_spec p net bc k j G ltac:(lia)) as (y & Hy & Vy & ->).
      apply Hmin; [assumption|lia].
    + unfold IsAllocated, lookupB. rewrite Hnone. reflexivity.
    + rewrite Hp'. unfold IsAllocated, lookupB. cbn [set_allocated allocated].
      rewrite lookup_insert_eq. reflexivity.
    + rewrite Hp'. unfold GetAvailableCount. cbn [set_allocated allocated totalHosts].
      rewrite size_insert_fresh by assumption. lia.
  - destruct S as [-> S]. split; [reflexivity|]. intros j Hj.
    unfold GetTotalIPs in Hj. rewrite Ht in Hj.
    destruct (host_spec p net bc k j G ltac:(lia)) as (y & Hy & Vy & ->).
    apply S; [assumption|lia].
Qed.

(** A pool fresh from [NewIPPool]: it keeps the text it was built from;
    for some number [k >= 3] of host bits it has [2^k - 2] usable
    addresses; position 0 is the network address, position 1 the server,
    position [2^k - 1] the broadcast address; the server's is the only
    entry, so [2^k - 3] addresses are available and [GetAllocatedIPs] is
    empty. *)
Theorem NewIPPool_fresh cidr p :
  NewIPPool cidr = Ok p ->
  network p = cidr
  /\ exists k, 3 <= k <= 32
     /\ GetTotalIPs p = 2 ^ k - 2
     /\ networkAddress p = host p 0
     /\ GetServerIP p = host p 1
     /\ broadcastAddress p = host p (2 ^ k - 1)
     /\ GetAvailableCount p = 2 ^ k - 3
     /\ GetAllocatedCount p = 1
     /\ (forall ip, IsAllocated p ip = true <-> ip = GetServerIP p)
     /\ GetAllocatedIPs p = [].
Proof.
  intros E. pose proof (NewIPPool_inv _ _ E) as [(net & bc & k & G) A].
  pose proof (geom_hosts _ _ _ _ G) as (E0 & E1 & E2).
  pose proof G as (_ & _ & Hk & _ & _ & _ & _ & _ & _ & Ht).
  assert (Hal : allocated p = {[ serverIP p := true ]} /\ network p = cidr).
  { clear - E. unfold NewIPPool in E.
    destruct (ParseCIDR cidr); [|discriminate].
    destruct (To4 _); [|discriminate].
    destruct (Mask_Size _) as [ones bits].
    destruct (bits - ones <? 3); [discriminate|]. injection E as <-.
    split; reflexivity. }
  destruct Hal as [Hal Hnet]. split; [exact Hnet|]. exists k.
  unfold GetTotalIPs, GetServerIP, GetAvailableCount, GetAllocatedCount, IsAllocated,
    GetAllocatedIPs.
  rewrite Hal, map_size_singleton.
  repeat (split; [assumption || lia|]). split.
  - intros ip. unfold lookupB. split.
    + intros H. destruct (decide (ip = serverIP p)) as [->|Hne]; [reflexivity|].
      rewrite lookup_singleton_ne in H by congruence. discriminate.
    + intros ->. rewrite lookup_singleton_eq. reflexivity.
  - rewrite map_to_list_singleton. cbn [fmap list_fmap fst].
    rewrite filter_cons_False by (intros H; apply H; reflexivity).
    reflexivity.
Qed.
End PoolPositions.

(** ** The IP pool: allocating and releasing a given address *)

Section PoolGiven.
Import GoNet IPPool PoolQueries.
Variable parseIPv6 : string -> option IP.

Lemma IsAllocated_insert p s s' :
  IsAllocated (set_allocated p (<[ s := true ]> (allocated p))) s'
  = if decide (s' = s) then true else IsAllocated p s'.
Proof.
  unfold IsAllocated, lookupB. cbn [set_allocated allocated].
  destruct (decide (s' = s)) as [->|Hne].
  - rewrite lookup_insert_eq. reflexivity.
  - rewrite lookup_insert_ne by congruence. reflexivity.
Qed.

Lemma IsAllocated_delete p s s' :
  IsAllocated (set_allocated p (delete s (allocated p))) s'
  = if decide (s' = s) then false else IsAllocated p s'.
Proof.
  unfold IsAllocated, lookupB. cbn [set_allocated allocated].
  destruct (decide (s' = s)) as [->|Hne].
  - rewrite lookup_delete_eq. reflexivity.
  - rewrite lookup_delete_ne by congruence. reflexivity.
Qed.

(** A successful [AllocateSpecificIP]: the address was free and is none
    of the three reserved ones; afterwards it is allocated, nothing else
    has changed, one address fewer is available; asking for it again is
    refused, and releasing it gives back the pool as it was. *)
Theorem AllocateSpecificIP_effect p ip p' :
  reachable parseIPv6 p ->
  AllocateSpecificIP parseIPv6 p ip = Ok p' ->
  (ip <> networkAddress p /\ ip <> broadcastAddress p /\ ip <> GetServerIP p)
  /\ IsAllocated p ip = false /\ IsAllocated p' ip = true
  /\ (forall ip', ip' <> ip -> IsAllocated p' ip' = IsAllocated p ip')
  /\ GetAvailableCount p' = GetAvailableCount p - 1
  /\ AllocateSpecificIP parseIPv6 p' ip = Err (ErrAlreadyAllocated ip)
  /\ ReleaseIP parseIPv6 p' ip = Ok p.
Proof.
  intros R E. apply reachable_inv in R.
  destruct (AllocateSpecificIP_Ok parseIPv6 p ip p' R E) as (_ & Hnone & Hp').
  unfold AllocateSpecificIP in E.
  destruct (ParseIP parseIPv6 ip) as [parsed|] eqn:Ep; [|discriminate].
  destruct (negb (Contains (ipNet p) parsed)) eqn:Ec; [discriminate|].
  destruct (String.eqb ip (networkAddress p)) eqn:E1; [discriminate|].
  destruct (String.eqb ip (broadcastAddress p)) eqn:E2; [discriminate|].
  destruct (String.eqb ip (serverIP p)) eqn:E3; [discriminate|].
  clear E. subst p'.
  split; [repeat split; apply String.eqb_neq; assumption|].
  split; [unfold IsAllocated, lookupB; rewrite Hnone; reflexivity|].
  split; [rewrite IsAllocated_insert, decide_True by reflexivity; reflexivity|].
  split; [intros ip' Hne; rewrite IsAllocated_insert, decide_False by assumption;
          reflexivity|].
  split.
  { unfold GetAvailableCount. cbn [set_allocated allocated totalHosts].
    rewrite size_insert_fresh by assumption. lia. }
  split.
  - unfold AllocateSpecificIP. rewrite Ep.
    cbn [set_allocated ipNet networkAddress broadcastAddress serverIP allocated].
    rewrite Ec, E1, E2, E3. unfold lookupB. rewrite lookup_insert_eq. reflexivity.
  - unfold ReleaseIP. rewrite Ep.
    cbn [set_allocated ipNet serverIP allocated]. rewrite Ec.
    unfold lookupB. rewrite lookup_insert_eq. cbn [default negb]. rewrite E3.
    rewrite delete_insert_eq, delete_id by assumption.
    destruct p. reflexivity.
Qed.

(** A successful [ReleaseIP]: the address was allocated and is not the
    server's; afterwards it is free, nothing else has changed, one more
    address is available; releasing it again is refused, and allocating
    it again gives back the pool as it was. *)
Theorem ReleaseIP_effect p ip p' :
  reachable parseIPv6 p ->
  ReleaseIP parseIPv6 p ip = Ok p' ->
  ip <> GetServerIP p
  /\ IsAllocated p ip = true /\ IsAllocated p' ip = false
  /\ (forall ip', ip' <> ip -> IsAllocated p' ip' = IsAllocated p ip')
  /\ GetAvailableCount p' = GetAvailableCount p + 1
  /\ ReleaseIP parseIPv6 p' ip = Err (ErrNotAllocated ip)
  /\ AllocateSpecificIP parseIPv6 p' ip = Ok p.
Proof.
  intros R E. apply reachable_inv in R.
  destruct (ReleaseIP_Ok parseIPv6 p ip p' R E) as (_ & Hsome & Hns & Hp').
  destruct R as [_ (_ & _ & An & Ab)].
  unfold ReleaseIP in E.
  destruct (ParseIP parseIPv6 ip) as [parsed|] eqn:Ep; [|discriminate].
  destruct (negb (Contains (ipNet p) parsed)) eqn:Ec; [discriminate|].
  clear E. subst p'.
  split; [assumption|].
  split; [unfold IsAllocated, lookupB; rewrite Hsome; reflexivity|].
  split; [rewrite IsAllocated_delete, decide_True by reflexivity; reflexivity|].
  split; [intros ip' Hne; rewrite IsAllocated_delete, decide_False by assumption;
          reflexivity|].
  split.
  { unfold GetAvailableCount. cbn [set_allocated allocated totalHosts].
    rewrite (size_delete_present _ _ true) by assumption. lia. }
  split.
  - unfold ReleaseIP. rewrite Ep. cbn [set_allocated ipNet serverIP allocated].
    rewrite Ec. unfold lookupB. rewrite lookup_delete_eq. reflexivity.
  - unfold AllocateSpecificIP. rewrite Ep.
    cbn [set_allocated ipNet networkAddress broadcastAddress serverIP allocated].
    rewrite Ec.
    assert (E1 : String.eqb ip (networkAddress p) = false)
      by (apply String.eqb_neq; intros ->; congruence).
    assert (E2 : String.eqb ip (broadcastAddress p) = false)
      by (apply String.eqb_neq; intros ->; congruence).
    assert (E3 : String.eqb ip (serverIP p) = false)
      by (apply String.eqb_neq; assumption).
    rewrite E1, E2, E3. unfold lookupB. rewrite lookup_delete_eq. cbn [default].
    rewrite insert_delete_id by assumption. destruct p. reflexivity.
Qed.

(** [AllocateSpecificIP] by position: the network address, the server
    address and the broadcast address are each refused with their own
    error; a position a client can have is granted when it is free and
    refused as already allocated otherwise. *)
Theorem AllocateSpecificIP_by_position p :
  reachable parseIPv6 p ->
  AllocateSpecificIP parseIPv6 p (host p 0) = Err (ErrNetworkAddress (host p 0))
  /\ AllocateSpecificIP parseIPv6 p (host p 1) = Err (ErrServerReserved (host p 1))
  /\ AllocateSpecificIP parseIPv6 p (host p (GetTotalIPs p + 1))
     = Err (ErrBroadcastAddress (host p (GetTotalIPs p + 1)))
  /\ forall i, 2 <= i <= GetTotalIPs p ->
       AllocateSpecificIP parseIPv6 p (host p i)
       = if IsAllocated p (host p i)
         then Err (ErrAlreadyAllocated (host p i))
         else Ok (set_allocated p (<[ host p i := true ]> (allocated p))).
Proof.
  intros R. apply reachable_inv in R. destruct R as [(net & bc & k & G) A].
  pose proof (geom_hosts _ _ _ _ G) as (E0 & E1 & E2).
  pose proof G as (Hn & Hb & Hk & Hbc & Hm & Hc & _ & _ & _ & Ht).
  pose proof (pow2_ge8 k ltac:(lia)) as H8.
  unfold GetTotalIPs. rewrite Ht.
  replace (2 ^ k - 2 + 1) with (2 ^ k - 1) by lia.
  assert (Hgen : forall i, 0 <= i <= 2 ^ k - 1 ->
            AllocateSpecificIP parseIPv6 p (host p i)
            = if String.eqb (host p i) (networkAddress p)
              then Err (ErrNetworkAddress (host p i))
              else if String.eqb (host p i) (broadcastAddress p)
              then Err (ErrBroadcastAddress (host p i))
              else if String.eqb (host p i) (serverIP p)
              then Err (ErrServerReserved (host p i))
              else if lookupB (allocated p) (host p i)
              then Err (ErrAlreadyAllocated (host p i))
              else Ok (set_allocated p (<[ host p i := true ]> (allocated p)))).
  { intros i Hi. destruct (host_spec p net bc k i G Hi) as (x & Hx & Vx & Ex).
    unfold AllocateSpecificIP. rewrite Ex, ParseIP_String by assumption.
    rewrite Hc by (assumption || lia). reflexivity. }
  assert (Hneq : forall i j, 0 <= i <= 2 ^ k - 1 -> 0 <= j <= 2 ^ k - 1 -> i <> j ->
            String.eqb (host p i) (host p j) = false).
  { intros i j Hi Hj Hne. apply String.eqb_neq. intros E. apply Hne.
    apply (host_inj p net bc k); assumption. }
  split; [|split; [|split]].
  - rewrite Hgen by lia. rewrite E0, String.eqb_refl. reflexivity.
  - rewrite Hgen by lia. rewrite E0, E1, E2.
    rewrite (Hneq 1 0), (Hneq 1 (2 ^ k - 1)) by lia.
    rewrite String.eqb_refl. reflexivity.
  - rewrite Hgen by lia. rewrite E0, E2.
    rewrite (Hneq (2 ^ k - 1) 0) by lia. rewrite String.eqb_refl. reflexivity.
  - intros i Hi. rewrite Hgen by lia. rewrite E0, E1, E2.
    rewrite (Hneq i 0), (Hneq i (2 ^ k - 1)), (Hneq i 1) by lia. reflexivity.
Qed.
End PoolGiven.

(** ** The IP pool: the list of client addresses *)

Section PoolListing.
Import GoNet IPPool PoolQueries.
Variable parseIPv6 : string -> option IP.

Lemma filter_out_length (s : string) (l : list string) :
  NoDup l -> s ∈ l ->
  S (length (filter (fun x => x <> s) l)) = length l.
Proof.
  induction 1 as [|a l Ha Hl IH]; intros Hin; [inversion Hin|].
  destruct (decide (a = s)) as [->|Hne].
  - rewrite filter_cons_False by (intros H; apply H; reflexivity).
    cbn [length]. f_equal.
    assert (E : filter (fun x => x <> s) l = l); [|rewrite E; reflexivity].
    clear IH Hl Hin. induction l as [|b l IH]; [reflexivity|].
    apply not_elem_of_cons in Ha as [Hb Ha].
    rewrite filter_cons_True by congruence. f_equal. apply IH, Ha.
  - rewrite filter_cons_True by assumption. cbn [length]. f_equal.
    apply IH. apply elem_of_cons in Hin as [->|Hin]; [contradiction|assumption].
Qed.

(** [GetAllocatedIPs] in a reachable pool: the list is in ascending
    order of the strings and without repetition; it holds exactly the
    allocated addresses other than the server's; together with the
    available addresses they make up the usable addresses less the
    server's. *)
Theorem GetAllocatedIPs_spec p :
  reachable parseIPv6 p ->
  StronglySorted String.le (GetAllocatedIPs p)
  /\ NoDup (GetAllocatedIPs p)
  /\ (forall ip, ip ∈ GetAllocatedIPs p
                 <-> IsAllocated p ip = true /\ ip <> GetServerIP p)
  /\ Z.of_nat (length (GetAllocatedIPs p)) = GetAllocatedCount p - 1
  /\ Z.of_nat (length (GetAllocatedIPs p)) + GetAvailableCount p
     = GetTotalIPs p - 1.
Proof.
  intros R. apply reachable_inv in R. destruct R as [_ (Atrue & As & _ & _)].
  unfold GetAllocatedIPs, sort_Strings.
  set (keys := fst <$> map_to_list (allocated p)).
  set (l := filter (fun ip => ip <> serverIP p) keys).
  assert (Hperm : merge_sort String.le l ≡ₚ l) by apply merge_sort_Permutation.
  assert (Hkeys : NoDup keys) by apply NoDup_fst_map_to_list.
  assert (Hl : NoDup l) by (apply NoDup_filter, Hkeys).
  assert (Hin : forall ip, ip ∈ keys <-> allocated p !! ip = Some true).
  { intros ip. unfold keys. rewrite list_elem_of_fmap. split.
    - intros ([k v] & -> & H). apply elem_of_map_to_list in H. cbn [fst].
      rewrite H. f_equal. apply (Atrue k), H.
    - intros H. exists (ip, true). split; [reflexivity|].
      apply elem_of_map_to_list, H. }
  assert (Hlen : S (length l) = size (allocated p)).
  { unfold l. rewrite filter_out_length; [|assumption|apply Hin, As].
    unfold keys. rewrite length_fmap. apply length_map_to_list. }
  split; [apply StronglySorted_merge_sort; apply _|].
  split; [rewrite Hperm; exact Hl|].
  split.
  - intros ip. rewrite Hperm. unfold l. rewrite list_elem_of_filter, Hin.
    unfold IsAllocated, GetServerIP, lookupB. split.
    + intros [Hne H]. rewrite H. auto.
    + intros [H Hne]. split; [assumption|].
      destruct (allocated p !! ip) as [b|] eqn:E; [|discriminate].
      f_equal. apply (Atrue ip), E.
  - rewrite Hperm. unfold GetAllocatedCount, GetAvailableCount, GetTotalIPs.
    rewrite <- Hlen. lia.
Qed.
End PoolListing.

Section PoolListingExamples.
Import GoNet IPPool PoolQueries.

Lemma pool24_used_reachable : reachable no_ipv6 pool24_used.
Proof.
  exists "10.0.0.0/24", pool24, (repeat CallAllocateIP 10).
  split; vm_compute; reflexivity.
Defined.

(** The order is that of the strings, not of the addresses. *)
Lemma GetAllocatedIPs_witness :
  GetAllocatedIPs pool24_used
  = ["10.0.0.10"; "10.0.0.11"; "10.0.0.2"; "10.0.0.3"; "10.0.0.4";
     "10.0.0.5"; "10.0.0.6"; "10.0.0.7"; "10.0.0.8"; "10.0.0.9"]
  /\ StronglySorted String.le (GetAllocatedIPs pool24_used)
  /\ Z.of_nat (length (GetAllocatedIPs pool24_used))
     = GetAllocatedCount pool24_used - 1.
Proof.
  split; [vm_compute; reflexivity|].
  pose proof (GetAllocatedIPs_spec no_ipv6 pool24_used pool24_used_reachable)
    as (H1 & _ & _ & H2 & _).
  split; assumption.
Defined.
End PoolListingExamples.

(** ** The IP pool: which networks [NewIPPool] takes *)

Section PoolConstruction.
Import GoNet IPPool PoolQueries.

Lemma split_slash_lacks s : lacks "/" s = true -> split_slash s = None.
Proof.
  induction s as [|c s IH]; [reflexivity|]. cbn [lacks split_slash].
  intros H. apply andb_true_iff in H as [Hc Hs]. apply negb_true_iff in Hc.
  rewrite Hc, (IH Hs). reflexivity.
Qed.

Lemma split_slash_app a m :
  lacks "/" a = true -> split_slash (a +:+ "/" +:+ m) = Some (a, m).
Proof.
  induction a as [|c a IH]; intros H.
  - reflexivity.
  - cbn [lacks] in H. apply andb_true_iff in H as [Hc Ha]. apply negb_true_iff in Hc.
    rewrite sapp_cons. cbn [split_slash]. rewrite Hc, (IH Ha). reflexivity.
Qed.

Lemma ubtoa_lacks_slash v : is_byte v -> lacks "/" (ubtoa v) = true.
Proof.
  revert v. apply (byte_cases (fun v => _ = _)). intros n Hn.
  do 256 (destruct n as [|n]; [reflexivity|]). lia.
Qed.

Lemma IP_String_lacks_slash ip : is_ip4 ip -> lacks "/" (IP_String ip) = true.
Proof.
  intros H. destruct (is_ip4_inv ip H) as (a & b & c & d & -> & Ha & Hb & Hc & Hd).
  rewrite IP_String_ip4, !lacks_app, !ubtoa_lacks_slash by assumption. reflexivity.
Qed.

Lemma ParseAddr_scan_String pv6 ip :
  is_ip4 ip -> ParseAddr_scan pv6 (IP_String ip) (IP_String ip) = Some ip.
Proof.
  intros H. destruct (is_ip4_inv ip H) as (a & b & c & d & E & Ha & Hb & Hc & Hd).
  rewrite E at 2. rewrite IP_String_ip4, scan_field by assumption.
  apply parseIPv4_String, H.
Qed.

Lemma dtoi_Itoa n :
  0 <= n <= 32 ->
  dtoi (GoStrings.Itoa n)
  = (n, Z.of_nat (String.length (GoStrings.Itoa n)), true).
Proof.
  intros H. rewrite <- (Z2Nat.id n) by lia.
  assert (Hk : (Z.to_nat n <= 32)%nat) by lia.
  generalize dependent (Z.to_nat n). clear. intros k Hk.
  do 33 (destruct k as [|k]; [vm_compute; reflexivity|]). lia.
Qed.

Lemma ParseCIDR_text ip n :
  is_ip4 ip -> 0 <= n <= 32 ->
  ParseCIDR (IP_String ip +:+ "/" +:+ GoStrings.Itoa n)
  = Some (mkIPNet (IP_Mask ip (CIDRMask_loop 4 n)) (CIDRMask_loop 4 n)).
Proof.
  intros Hip Hn. unfold ParseCIDR.
  rewrite split_slash_app by (apply IP_String_lacks_slash, Hip).
  rewrite ParseAddr_scan_String, dtoi_Itoa by assumption.
  rewrite Z.eqb_refl. cbn [negb orb].
  rewrite (proj2 (Z.ltb_ge n 0)), (proj2 (Z.ltb_ge 32 n)) by lia.
  unfold CIDRMask. cbn [Z.eqb orb negb].
  rewrite (proj2 (Z.ltb_ge n 0)), (proj2 (Z.ltb_ge 32 n)) by lia.
  reflexivity.
Qed.

(** [NewIPPool] on the text of an IPv4 network, "a.b.c.d/n": with a
    prefix of at most 29 bits it builds a pool of [2^(32-n) - 2] usable
    addresses, all but the server's available; with 30, 31 or 32 bits it
    answers that the network is too small. *)
Theorem NewIPPool_by_prefix ip n :
  is_ip4 ip -> 0 <= n <= 32 ->
  let cidr := IP_String ip +:+ "/" +:+ GoStrings.Itoa n in
  (n <= 29 ->
     exists p, NewIPPool cidr = Ok p
       /\ GetTotalIPs p = 2 ^ (32 - n) - 2
       /\ GetAvailableCount p = 2 ^ (32 - n) - 3
       /\ (GetNetworkInfo p).(Network) = cidr)
  /\ (30 <= n -> NewIPPool cidr = Err ErrTooSmall).
Proof.
  intros Hip Hn cidr.
  destruct (cidr_ok_all n Hn ip Hip) as (Hnet & Hidem & Hbc & Hval & Hsz & Hcont).
  set (m := CIDRMask_loop 4 n) in *. set (net := IP_Mask ip m) in *.
  assert (E : NewIPPool cidr
              = if 32 - n <? 3 then Err ErrTooSmall
                else Ok (mkPool cidr (mkIPNet net m)
                           (IP_String (incrementIP net 1))
                           {[ IP_String (incrementIP net 1) := true ]}
                           (IP_String net)
                           (IP_String (zip_with (fun b m => Z.lor b (Z.lxor m 255)) net m))
                           (Z.shiftl 1 (32 - n) - 2))).
  { unfold NewIPPool. subst cidr. rewrite ParseCIDR_text by assumption.
    fold m. fold net. cbn [net_IP net_Mask]. destruct Hnet as [Hl _].
    unfold To4. rewrite Hl. cbn [Nat.eqb]. rewrite Hsz, !Hidem.
    destruct (32 - n <? 3); reflexivity. }
  split.
  - intros Hle. rewrite (proj2 (Z.ltb_ge (32 - n) 3)) in E by lia.
    eexists. split; [exact E|].
    unfold GetTotalIPs, GetAvailableCount, GetNetworkInfo.
    cbn [totalHosts allocated network Network].
    rewrite map_size_singleton, Z.shiftl_1_l. repeat split; lia.
  - intros Hge. rewrite E, (proj2 (Z.ltb_lt (32 - n) 3)) by lia. reflexivity.
Qed.

(** A text without a slash is no network for [NewIPPool]. *)
Theorem NewIPPool_no_slash s :
  lacks "/" s = true -> NewIPPool s = Err ErrInvalidCIDR.
Proof.
  intros H. unfold NewIPPool, ParseCIDR. rewrite split_slash_lacks by assumption.
  reflexivity.
Qed.
End PoolConstruction.

(** ** The server configuration file: writing and reading back *)

Section ConfigFile.
Import GoStrings WGConfig.
Context {UT : UnicodeTrim}.
Variable generatePublicKey : string -> option string.

Lemma write_commands_unlines key cmds : forall config,
  write_commands key cmds config
  = config +:+ unlines (map (fun cmd => key +:+ " = " +:+ cmd) cmds).
Proof.
  unfold write_commands.
  induction cmds as [|c cmds IH]; intros config; cbn [fold_left map unlines].
  - symmetry. apply sapp_nil_r.
  - rewrite IH. rewrite !sapp_assoc. reflexivity.
Qed.

Lemma unlines_app l1 l2 : unlines (l1 ++ l2) = unlines l1 +:+ unlines l2.
Proof.
  induction l1 as [|a l1 IH]; [reflexivity|].
  cbn [app unlines]. rewrite IH, !sapp_assoc. reflexivity.
Qed.

Lemma GenerateConfigFile_unlines sc :
  GenerateConfigFile sc = unlines (server_lines sc).
Proof.
  unfold GenerateConfigFile, server_lines.
  rewrite !write_commands_unlines, !unlines_app. cbn [unlines].
  rewrite !sapp_assoc, !sapp_nil_l. reflexivity.
Qed.

Lemma one_line_plain s : plain s -> one_line s.
Proof.
  intros H. split; [apply ends_kept_plain, H|].
  apply clean_lacks; [apply keeps_LF|apply H].
Qed.

Lemma kv_lacks_LF key value :
  lacks "010" key = true -> lacks "010" value = true ->
  lacks "010" (key +:+ " = " +:+ value) = true.
Proof. intros Hk Hv. rewrite !lacks_app, Hk, Hv. reflexivity. Qed.

Lemma server_lines_lack_LF sc :
  wf_server sc -> Forall (fun l => lacks "010" l = true) (server_lines sc).
Proof.
  intros ([_ H1] & [_ H2] & H3 & H4 & H5). unfold server_lines.
  repeat (apply Forall_cons_2; [|]).
  - reflexivity.
  - rewrite lacks_app, H1. reflexivity.
  - rewrite lacks_app, H2. reflexivity.
  - rewrite lacks_app, (clean_lacks "010" (Itoa (ListenPort sc)));
      [reflexivity|apply keeps_LF|apply Itoa_clean; lia].
  - apply Forall_app. split; apply Forall_map; (eapply Forall_impl; [eassumption|]);
      intros cmd [_ Hc]; cbn; rewrite lacks_app, Hc; reflexivity.
Qed.

(** One "key = value" line read by the loop of [GetConfig]. *)
Lemma config_step_kv config k0 krest value :
  let key := String k0 krest in
  plain key -> lacks "=" key = true -> Ascii.eqb k0 "#" = false ->
  ends_kept value ->
  config_step config (key +:+ " = " +:+ value) = set_setting config key value.
Proof.
  intros key Hk Hl H1 Hv. unfold config_step.
  assert (Hline : ends_kept (key +:+ " = " +:+ value))
    by (apply ends_kept_mid; [apply ends_kept_plain, Hk|exact Hv]).
  rewrite (TrimSpace_ends_kept _ Hline).
  assert (Hform : key +:+ " = " +:+ value
                  = (key +:+ " ") +:+ String "=" (String " " value))
    by (rewrite sapp_assoc; reflexivity).
  assert (Hhead : exists rest, key +:+ " = " +:+ value = String k0 rest)
    by (eexists; subst key; apply sapp_cons).
  destruct Hhead as [rest Hhead].
  assert (C1 : String.eqb (key +:+ " = " +:+ value) ""
               || HasPrefix (key +:+ " = " +:+ value) "#" = false)
    by (rewrite Hhead; cbn [String.eqb HasPrefix]; rewrite H1; reflexivity).
  rewrite C1, Hform, Contains_char_app.
  rewrite SplitN2_cut by (rewrite lacks_app, Hl; reflexivity).
  rewrite TrimSpace_space_r by (apply ends_kept_plain, Hk).
  rewrite TrimSpace_space_l, (TrimSpace_ends_kept _ Hv). reflexivity.
Qed.

Lemma config_step_commands config k0 krest cmds :
  let key := String k0 krest in
  plain key -> lacks "=" key = true -> Ascii.eqb k0 "#" = false ->
  set_setting config key = (fun _ => config) ->
  Forall one_line cmds ->
  fold_left config_step (map (fun cmd => key +:+ " = " +:+ cmd) cmds) config
  = config.
Proof.
  intros key Hk Hl H1 Hset. subst key.
  induction 1 as [|c cmds [Hc _] _ IH]; [reflexivity|].
  cbn [map fold_left]. rewrite config_step_kv by assumption.
  rewrite Hset. exact IH.
Qed.

Lemma config_step_server_lines sc :
  wf_server sc ->
  fold_left config_step (server_lines sc ++ [""]) emptyConfig
  = mkServerConfig (PrivateKey sc) "" (Address sc) (ListenPort sc) [] [] [] "".
Proof.
  intros ([H1 _] & [H2 _] & H3 & H4 & H5). unfold server_lines.
  rewrite <- !app_assoc. cbn [app fold_left].
  change (config_step emptyConfig "[Interface]") with emptyConfig.
  change ("PrivateKey = " +:+ PrivateKey sc)
    with ("PrivateKey" +:+ " = " +:+ PrivateKey sc).
  rewrite (config_step_kv _ "P" "rivateKey")
    by (try reflexivity; try (split; [reflexivity|discriminate]); assumption).
  change ("Address = " +:+ Address sc) with ("Address" +:+ " = " +:+ Address sc).
  rewrite (config_step_kv _ "A" "ddress")
    by (try reflexivity; try (split; [reflexivity|discriminate]); assumption).
  change ("ListenPort = " +:+ Itoa (ListenPort sc))
    with ("ListenPort" +:+ " = " +:+ Itoa (ListenPort sc)).
  rewrite (config_step_kv _ "L" "istenPort")
    by (try reflexivity; try (split; [reflexivity|discriminate]);
        apply ends_kept_plain, Itoa_clean; lia).
  unfold set_setting. cbn [String.eqb Ascii.eqb Bool.eqb andb].
  rewrite Atoi_Itoa by lia.
  cbn [PrivateKey PublicKey Address ListenPort DNS PostUp PostDown Interface emptyConfig].
  rewrite !fold_left_app.
  change (fun cmd => "PostUp = " +:+ cmd) with (fun cmd => "PostUp" +:+ " = " +:+ cmd).
  change (fun cmd => "PostDown = " +:+ cmd)
    with (fun cmd => "PostDown" +:+ " = " +:+ cmd).
  rewrite (config_step_commands _ "P" "ostUp")
    by (try reflexivity; try (split; [reflexivity|discriminate]); assumption).
  rewrite (config_step_commands _ "P" "ostDown")
    by (try reflexivity; try (split; [reflexivity|discriminate]); assumption).
  reflexivity.
Qed.

Lemma GetConfig_generated sc :
  wf_server sc ->
  GetConfig generatePublicKey (WireGuard.File (GenerateConfigFile sc))
  = Ok (read_back generatePublicKey sc).
Proof.
  intros W. pose proof W as ([(c0 & s' & _ & _ & Epk & _) _] & _).
  cbn [negb GetConfig].
  rewrite GenerateConfigFile_unlines, Split_unlines by (apply server_lines_lack_LF, W).
  rewrite config_step_server_lines by assumption.
  cbn [PrivateKey PublicKey Address ListenPort DNS PostUp PostDown Interface].
  unfold read_back. rewrite Epk. cbn [String.eqb negb].
  destruct (generatePublicKey (String c0 s')); reflexivity.
Qed.

(** What [WriteConfig] writes, [GetConfig] reads back: the private
    key, the address and the port come back as written; the public key
    comes from "wg pubkey", not from the configuration; the DNS
    servers, the commands and the interface name do not come back. *)
Theorem GetConfig_WriteConfig sc mkdir_ok write_ok f :
  wf_server sc ->
  WriteConfig mkdir_ok write_ok sc = Ok f ->
  GetConfig generatePublicKey f = Ok (read_back generatePublicKey sc).
Proof.
  intros W. unfold WriteConfig.
  destruct mkdir_ok; [|discriminate]. destruct write_ok; [|discriminate].
  intros [= <-]. apply GetConfig_generated, W.
Qed.
End ConfigFile.

(** ** The configuration file: peers and server settings side by side *)

Section ConfigAndPeers.
Import GoStrings WireGuard.
Context {UT : UnicodeTrim}.
Variable generatePublicKey : string -> option string.

Lemma config_step_peer_lines p config :
  wf_peer p ->
  fold_left WGConfig.config_step (peer_lines p ++ [""]) config = config.
Proof.
  intros (Hpk & Hne & Hips & Hep & Hka).
  unfold peer_lines, tail_lines. cbn [app fold_left].
  change (WGConfig.config_step config "[Peer]") with config.
  change (pk_line p) with ("PublicKey" +:+ " = " +:+ PublicKey p).
  rewrite (config_step_kv _ "P" "ublicKey")
    by (try reflexivity; try (split; [reflexivity|discriminate]);
        apply ends_kept_plain, Hpk).
  change (WGConfig.set_setting config "PublicKey" (PublicKey p)) with config.
  destruct (AllowedIPs p) as [|a l] eqn:Ea; [contradiction|].
  change (ip_line p) with ("AllowedIPs" +:+ " = " +:+ Join (AllowedIPs p) ", ").
  rewrite Ea.
  rewrite (config_step_kv _ "A" "llowedIPs")
    by (try reflexivity; try (split; [reflexivity|discriminate]);
        apply ends_kept_Join, Hips).
  change (WGConfig.set_setting config "AllowedIPs" (Join (a :: l) ", ")) with config.
  assert (Hep' : fold_left WGConfig.config_step
                   (if String.eqb (Endpoint p) "" then [] else [ep_line p]) config
                 = config).
  { destruct (String.eqb (Endpoint p) "") eqn:Ee; [reflexivity|].
    apply String.eqb_neq in Ee. cbn [fold_left].
    change (ep_line p) with ("Endpoint" +:+ " = " +:+ Endpoint p).
    rewrite (config_step_kv _ "E" "ndpoint")
      by (try reflexivity; try (split; [reflexivity|discriminate]);
          apply ends_kept_plain; split; assumption).
    reflexivity. }
  assert (Hka' : fold_left WGConfig.config_step
                   (if 0 <? PersistentKA p then [ka_line p] else []) config
                 = config).
  { destruct (0 <? PersistentKA p) eqn:Ek; [|reflexivity]. cbn [fold_left].
    change (ka_line p) with ("PersistentKeepalive" +:+ " = " +:+ Itoa (PersistentKA p)).
    rewrite (config_step_kv _ "P" "ersistentKeepalive")
      by (try reflexivity; try (split; [reflexivity|discriminate]);
          apply ends_kept_plain, Itoa_clean; lia).
    reflexivity. }
  rewrite !fold_left_app, Hep', Hka'. reflexivity.
Qed.

(** Adding a peer never changes what [GetConfig] reads from the file,
    whatever the file held. *)
Theorem GetConfig_AddPeer f p write_ok f1 :
  wf_peer p ->
  AddPeer f p write_ok = Ok f1 ->
  WGConfig.GetConfig generatePublicKey f1 = WGConfig.GetConfig generatePublicKey f.
Proof.
  intros W. unfold AddPeer. destruct f as [| |content]; try discriminate.
  destruct write_ok; [|discriminate]. intros [= <-].
  cbn [WGConfig.GetConfig]. rewrite Split_added by assumption.
  rewrite fold_left_app, config_step_peer_lines by assumption. reflexivity.
Qed.

(** What [GetPeers] reads. *)
Lemma peers_step_keys st l :
  Forall (fun q => PublicKey q <> "") (fst st) ->
  Forall (fun q => PublicKey q <> "") (fst (peers_step st l)).
Proof.
  destruct st as [ps cur]. unfold peers_step. cbn [fst]. intros H.
  destruct (String.eqb (TrimSpace l) "" || HasPrefix (TrimSpace l) "#"); [exact H|].
  destruct (String.eqb (TrimSpace l) "[Peer]").
  - cbn [fst]. unfold flush. destruct cur as [q|]; [|exact H].
    destruct (String.eqb (PublicKey q) "") eqn:E; [exact H|].
    apply String.eqb_neq in E. apply Forall_app. split; [exact H|].
    apply Forall_cons_2; [exact E|apply Forall_nil_2].
  - destruct cur as [q|]; [|exact H].
    destruct (Contains (TrimSpace l) "="); [|exact H].
    destruct (SplitN2 (TrimSpace l) "=") as [|k [|v [|? ?]]]; exact H.
Qed.

Lemma peers_step_no_section ps l :
  String.eqb (TrimSpace l) "[Peer]" = false ->
  peers_step (ps, None) l = (ps, None).
Proof.
  intros H. unfold peers_step. rewrite H.
  destruct (String.eqb (TrimSpace l) "" || HasPrefix (TrimSpace l) "#"); reflexivity.
Qed.

Lemma parsePeers_no_section content :
  Forall (fun l => TrimSpace l <> "[Peer]") (Split content "010") ->
  parsePeers content = [].
Proof.
  intros H. unfold parsePeers.
  assert (E : fold_left peers_step (Split content "010") ([], None) = ([], None)).
  { induction H as [|l ls Hl _ IH]; [reflexivity|]. cbn [fold_left].
    rewrite peers_step_no_section by (apply String.eqb_neq, Hl). exact IH. }
  rewrite E. reflexivity.
Qed.

(** [GetPeers] never returns a peer without a public key; from a file
    that is not there, or that has no line reading "[Peer]", it returns
    no peer at all. *)
Theorem GetPeers_sections f :
  (forall peers, GetPeers f = Ok peers ->
     Forall (fun q => PublicKey q <> "") peers)
  /\ (f = Missing -> GetPeers f = Ok [])
  /\ (forall content, f = File content ->
        Forall (fun l => TrimSpace l <> "[Peer]") (Split content "010") ->
        GetPeers f = Ok []).
Proof.
  split; [|split].
  - intros peers. destruct f as [| |content]; cbn [GetPeers].
    + intros [= <-]. constructor.
    + discriminate.
    + intros [= <-]. unfold parsePeers.
      assert (H : forall ls st, Forall (fun q => PublicKey q <> "") (fst st) ->
                    Forall (fun q => PublicKey q <> "")
                           (fst (fold_left peers_step ls st))).
      { induction ls as [|l ls IH]; intros st Hs; [exact Hs|].
        cbn [fold_left]. apply IH, peers_step_keys, Hs. }
      specialize (H (Split content "010") ([], None) (Forall_nil_2 _)).
      destruct (fold_left peers_step _ _) as [ps cur]. cbn [fst] in H.
      unfold flush. destruct cur as [q|]; [|exact H].
      destruct (String.eqb (PublicKey q) "") eqn:E; [exact H|].
      apply String.eqb_neq in E. apply Forall_app. split; [exact H|].
      apply Forall_cons_2; [exact E|apply Forall_nil_2].
  - intros ->. reflexivity.
  - intros content -> H. cbn [GetPeers]. rewrite parsePeers_no_section by exact H.
    reflexivity.
Qed.

(** The text [ServerConfig.AddPeer] makes for a client is the section
    [AddPeer] appends for the peer with that key and the single address
    "ip/32": appended to any file, [GetPeers] reads the peers the file
    had, then that peer. *)
Theorem ServerConfig_AddPeer_GetPeers sc key ip content :
  plain key -> plain ip -> lacks "," ip = true ->
  WGConfig.ServerConfig_AddPeer sc key ip
  = peerConfig (mkPeer key [ip +:+ "/32"] "" 0)
  /\ GetPeers (File (content +:+ WGConfig.ServerConfig_AddPeer sc key ip))
     = Ok (parsePeers content ++ [mkPeer key [ip +:+ "/32"] "" 0]).
Proof.
  intros Hk [Hic Hin] Hil.
  assert (E : WGConfig.ServerConfig_AddPeer sc key ip
              = peerConfig (mkPeer key [ip +:+ "/32"] "" 0)).
  { unfold WGConfig.ServerConfig_AddPeer, peerConfig.
    cbn [PublicKey AllowedIPs Endpoint PersistentKA Join String.eqb Z.ltb Z.compare].
    rewrite !sapp_assoc, !sapp_nil_r. reflexivity. }
  split; [exact E|]. rewrite E. cbn [GetPeers]. rewrite parsePeers_added; [reflexivity|].
  split; [exact Hk|]. cbn [AllowedIPs Endpoint PersistentKA].
  split; [discriminate|]. split; [|split; [reflexivity|lia]].
  apply Forall_cons_2; [|apply Forall_nil_2]. split.
  - split; [rewrite clean_app, Hic; reflexivity|].
    destruct ip; [contradiction|discriminate].
  - rewrite lacks_app, Hil. reflexivity.
Qed.
End ConfigAndPeers.

(** ** A new server configuration *)

Section NewServer.
Import GoStrings WGConfig.
Context {UT : UnicodeTrim}.
Variable generatePublicKey : string -> option string.

Lemma ubtoa_clean v : GoNet.is_byte v -> clean (GoNet.ubtoa v) = true.
Proof.
  revert v. apply (byte_cases (fun v => _ = _)). intros n Hn.
  do 256 (destruct n as [|n]; [reflexivity|]). lia.
Qed.

Lemma IP_String_plain ip : GoNet.is_ip4 ip -> plain (GoNet.IP_String ip).
Proof.
  intros H. destruct (is_ip4_inv ip H) as (a & b & c & d & -> & Ha & Hb & Hc & Hd).
  rewrite IP_String_ip4. split.
  - rewrite !clean_app, !ubtoa_clean by assumption. reflexivity.
  - destruct (ubtoa_cons a Ha) as (c0 & s & ->). discriminate.
Qed.

Lemma one_line_text c0 s c1 r :
  keeps c0 = true -> srev (String c0 s) = String c1 r -> keeps c1 = true ->
  lacks "010" (String c0 s) = true -> one_line (String c0 s).
Proof. intros H0 E H1 Hl. split; [exists c0, s, c1, r; auto|exact Hl]. Qed.

Lemma fresh_lines_no_section sc :
  wf_server sc ->
  Forall (fun l => TrimSpace l <> "[Peer]") (server_lines sc ++ [""]).
Proof.
  intros ([H1 _] & [H2 _] & H3 & H4 & H5).
  assert (Hkv : forall k0 krest value,
            plain (String k0 krest) -> Ascii.eqb k0 "[" = false -> ends_kept value ->
            TrimSpace (String k0 krest +:+ " = " +:+ value) <> "[Peer]").
  { intros k0 krest value Hk Hb Hv.
    rewrite TrimSpace_ends_kept
      by (apply ends_kept_mid; [apply ends_kept_plain, Hk|exact Hv]).
    rewrite sapp_cons. intros [= -> _]. discriminate. }
  unfold server_lines. apply Forall_app. split; [|apply Forall_cons_2; [|apply Forall_nil_2]].
  - repeat (apply Forall_cons_2; [|]).
    + discriminate.
    + apply (Hkv "P"%char "rivateKey"); [split; [reflexivity|discriminate]|reflexivity|exact H1].
    + apply (Hkv "A"%char "ddress"); [split; [reflexivity|discriminate]|reflexivity|exact H2].
    + apply (Hkv "L"%char "istenPort"); [split; [reflexivity|discriminate]|reflexivity|].
      apply ends_kept_plain, Itoa_clean. lia.
    + apply Forall_app. split; apply Forall_map;
        (eapply Forall_impl; [eassumption|]); intros cmd [Hc _]; cbn.
      * apply (Hkv "P"%char "ostUp"); [split; [reflexivity|discriminate]|reflexivity|exact Hc].
      * apply (Hkv "P"%char "ostDown"); [split; [reflexivity|discriminate]|reflexivity|exact Hc].
  - discriminate.
Qed.

(** [NewServerConfig] on the text of an IPv4 network, "a.b.c.d/n": it
    succeeds for every prefix length; whenever [NewIPPool] accepts the
    same text, which it does up to 29 bits, the address of the
    configuration is the pool's server address with the prefix length of
    the network.  When the private key fits on a line and the port is not
    negative, the file [WriteConfig] makes of the configuration gives the
    key, the address and the port back through [GetConfig], and no peer
    through [GetPeers]. *)
Theorem NewServerConfig_round_trip keys port ip n :
  GoNet.is_ip4 ip -> 0 <= n <= 32 ->
  let cidr := GoNet.IP_String ip +:+ "/" +:+ Itoa n in
  exists sc,
    NewServerConfig (Some keys) port cidr = Ok sc
    /\ (forall p, IPPool.NewIPPool cidr = Ok p ->
          Address sc = IPPool.GetServerIP p +:+ "/" +:+ Itoa n)
    /\ (n <= 29 -> exists p, IPPool.NewIPPool cidr = Ok p)
    /\ (one_line (API.kp_PrivateKey keys) -> 0 <= port < 2 ^ 63 ->
        GetConfig generatePublicKey (WireGuard.File (GenerateConfigFile sc))
        = Ok (read_back generatePublicKey sc)
        /\ (read_back generatePublicKey sc).(PrivateKey) = API.kp_PrivateKey keys
        /\ (read_back generatePublicKey sc).(ListenPort) = port
        /\ WireGuard.GetPeers (WireGuard.File (GenerateConfigFile sc)) = Ok []).
Proof.
  intros Hip Hn cidr.
  destruct (cidr_ok_all n Hn ip Hip) as (Hnet & Hidem & Hbc & Hval & Hsz & Hcont).
  set (m := GoNet.CIDRMask_loop 4 n) in *. set (net := GoNet.IP_Mask ip m) in *.
  assert (E : IPPool.NewIPPool cidr
              = if 32 - n <? 3 then Err IPPool.ErrTooSmall
                else Ok (IPPool.mkPool cidr (GoNet.mkIPNet net m)
                           (GoNet.IP_String (IPPool.incrementIP net 1))
                           {[ GoNet.IP_String (IPPool.incrementIP net 1) := true ]}
                           (GoNet.IP_String net)
                           (GoNet.IP_String
                              (zip_with (fun b m => Z.lor b (Z.lxor m 255)) net m))
                           (Z.shiftl 1 (32 - n) - 2))).
  { unfold IPPool.NewIPPool. subst cidr. rewrite ParseCIDR_text by assumption.
    fold m. fold net. cbn [GoNet.net_IP GoNet.net_Mask]. destruct Hnet as [Hl _].
    unfold GoNet.To4. rewrite Hl. cbn [Nat.eqb]. rewrite Hsz, !Hidem.
    destruct (32 - n <? 3); reflexivity. }
  unfold NewServerConfig. subst cidr. rewrite ParseCIDR_text by assumption.
  fold m. fold net. cbn [GoNet.net_IP]. unfold getCIDRBits.
  cbn [GoNet.net_Mask]. rewrite Hsz. cbn [fst].
  eexists. split; [reflexivity|]. split; [|split].
  - intros p. rewrite E. destruct (32 - n <? 3); [discriminate|].
    intros [= <-]. reflexivity.
  - intros Hle. rewrite E, (proj2 (Z.ltb_ge (32 - n) 3)) by lia. eauto.
  - intros Hkey Hport.
    match goal with |- GetConfig _ (WireGuard.File (GenerateConfigFile ?c)) = _ /\ _ =>
      assert (W : wf_server c) end.
    { unfold wf_server. cbn [PrivateKey Address ListenPort PostUp PostDown].
      split; [exact Hkey|]. split; [|split; [exact Hport|]].
      - apply one_line_plain.
        destruct (incrementIP_spec _ 1 Hnet ltac:(lia)) as [Hs _].
        destruct (IP_String_plain _ Hs) as [Hc Hne].
        destruct (Itoa_clean n ltac:(lia)) as [Hic _]. split.
        + rewrite !clean_app, Hc, Hic. reflexivity.
        + destruct (GoNet.IP_String (IPPool.incrementIP net 1));
            [contradiction|discriminate].
      - split; repeat (apply Forall_cons_2;
                       [eapply one_line_text; vm_compute; reflexivity|]);
          apply Forall_nil_2. }
    split; [apply GetConfig_generated, W|].
    split; [reflexivity|]. split; [reflexivity|].
    cbn [WireGuard.GetPeers]. rewrite parsePeers_no_section; [reflexivity|].
    rewrite GenerateConfigFile_unlines, Split_unlines by (apply server_lines_lack_LF, W).
    apply fresh_lines_no_section, W.
Qed.
End NewServer.

(** ** The alert manager: the course of an alert *)

Section AlertCourse.
Import Monitoring.
Context {FO : FloatOps}.

Lemma keeps_course_refl now a : keeps_course now a a.
Proof. unfold keeps_course. repeat split; try lia. left. split; reflexivity. Qed.

Lemma rule_step_course now r a :
  exists a', rule_step now r (Some a) = Some a' /\ keeps_course now a a'
             /\ (stale now a' = true -> stale now a = true).
Proof.
  cbn [rule_step]. destruct (r_fires r).
  - eexists. split; [reflexivity|]. split; [|intros H; exact H].
    unfold keeps_course, updated.
    cbn [ID Type_ Severity_ Title Description CreatedAt Count Status ResolvedAt].
    repeat split; try lia. left. split; reflexivity.
  - destruct (bool_decide (Status a = AlertStatusActive)) eqn:E.
    + apply bool_decide_eq_true in E. eexists. split; [reflexivity|].
      split; [|rewrite stale_resolved; discriminate].
      unfold keeps_course, resolved.
      cbn [ID Type_ Severity_ Title Description CreatedAt Count Status ResolvedAt].
      repeat split; try lia. right. auto.
    + exists a. split; [reflexivity|]. split; [apply keeps_course_refl|auto].
Qed.

Lemma rule_ids_dec (rules : list rule) id :
  (exists r, r ∈ rules /\ r_id r = id) \/ id ∉ map r_id rules.
Proof.
  destruct (decide (id ∈ map r_id rules)) as [H|H]; [left|right; exact H].
  apply list_elem_of_fmap in H as (r & -> & Hr). eauto.
Qed.

(** An evaluation and a stored alert: the alert is either kept, with
    its identity, texts and creation time, a count grown by at most one,
    and a status that is the old one or, for an active alert, resolved;
    or it is removed, which happens only to an alert that was resolved
    more than 24 hours before.  No alert is ever made active again. *)
Theorem EvaluateMetrics_course am metrics now id a :
  alerts am !! id = Some a ->
  match alerts (EvaluateMetrics am metrics now) !! id with
  | Some a' => keeps_course now a a'
  | None =>
      EnableAlerts (config am) = true
      /\ Status a = AlertStatusResolved
      /\ exists r, ResolvedAt a = Some r /\ 24 * hour < now - r
  end.
Proof.
  intros Ha. destruct (EnableAlerts (config am)) eqn:En.
  2:{ rewrite EvaluateMetrics_disabled, Ha by assumption. apply keeps_course_refl. }
  assert (Hstale : stale now a = true ->
            Status a = AlertStatusResolved
            /\ exists r, ResolvedAt a = Some r /\ 24 * hour < now - r).
  { unfold stale. intros H. apply andb_true_iff in H as [H1 H2].
    apply bool_decide_eq_true in H1. split; [assumption|].
    destruct (ResolvedAt a) as [r|]; [|discriminate].
    exists r. split; [reflexivity|]. apply Z.ltb_lt, H2. }
  destruct (rule_ids_dec (builtin_rules (config am) metrics) id) as [(r & Hr & <-)|Hid].
  - rewrite EvaluateMetrics_lookup, Ha by assumption.
    destruct (rule_step_course now r a) as (a' & -> & Hc & Hs).
    destruct (stale now a') eqn:S; [|exact Hc].
    split; [reflexivity|]. apply Hstale, Hs. reflexivity.
  - rewrite EvaluateMetrics_rules by assumption. cbn [alerts].
    rewrite cleanup_lookup, fold_rules_other, Ha by assumption.
    destruct (stale now a) eqn:S; [|apply keeps_course_refl].
    split; [reflexivity|]. apply Hstale. reflexivity.
Qed.

Lemma EvaluateMetrics_config am metrics now :
  config (EvaluateMetrics am metrics now) = config am.
Proof.
  destruct (EnableAlerts (config am)) eqn:En.
  - rewrite EvaluateMetrics_rules by assumption. reflexivity.
  - rewrite EvaluateMetrics_disabled by assumption. reflexivity.
Qed.

(** After an evaluation with alerts enabled, the manager holds no alert
    that was resolved more than 24 hours before, and it remembers the
    time of the evaluation; the configuration is never changed. *)
Theorem EvaluateMetrics_cleans am metrics now :
  config (EvaluateMetrics am metrics now) = config am
  /\ (EnableAlerts (config am) = true ->
      lastEvalTime (EvaluateMetrics am metrics now) = now
      /\ forall id a r,
           alerts (EvaluateMetrics am metrics now) !! id = Some a ->
           Status a = AlertStatusResolved -> ResolvedAt a = Some r ->
           now - r <= 24 * hour).
Proof.
  destruct (EnableAlerts (config am)) eqn:En.
  - rewrite EvaluateMetrics_rules by assumption. cbn [config lastEvalTime alerts].
    split; [reflexivity|]. intros _. split; [reflexivity|].
    intros id a r. rewrite cleanup_lookup.
    destruct (fold_left _ _ _ !! id) as [a0|]; [|discriminate].
    destruct (stale now a0) eqn:S; [discriminate|]. intros [= ->] Hs Hr.
    unfold stale in S. rewrite Hr, bool_decide_eq_true_2 in S by assumption.
    cbn [andb] in S. apply Z.ltb_ge in S. exact S.
  - rewrite EvaluateMetrics_disabled by assumption. split; [reflexivity|discriminate].
Qed.

Lemma not_active am (a : Alert) :
  Status a <> AlertStatusActive -> a ∉ GetActiveAlerts am.
Proof.
  intros Hs Hin. unfold GetActiveAlerts in Hin.
  apply list_elem_of_filter in Hin as [Hact _]. contradiction.
Qed.

(** [ResolveAlert]: an identifier that is not stored, and an alert that
    is resolved already, are refused; any other alert, active or
    suppressed, is stored resolved at the time of the call, leaves
    [GetActiveAlerts], stays in [GetAllAlerts], and a second
    [ResolveAlert] of it is refused. *)
Theorem ResolveAlert_effect am id now :
  match alerts am !! id with
  | None => ResolveAlert am id now = Err (ErrAlertNotFound id)
  | Some a =>
      if bool_decide (Status a = AlertStatusResolved)
      then ResolveAlert am id now = Err (ErrAlertAlreadyResolved id)
      else exists am',
        ResolveAlert am id now = Ok am'
        /\ alerts am' !! id = Some (resolved now a)
        /\ (forall id', id' <> id -> alerts am' !! id' = alerts am !! id')
        /\ config am' = config am
        /\ (resolved now a ∉ GetActiveAlerts am')
        /\ (forall since, since < CreatedAt a ->
              resolved now a ∈ GetAllAlerts am' since)
        /\ forall now', ResolveAlert am' id now' = Err (ErrAlertAlreadyResolved id)
  end.
Proof.
  unfold ResolveAlert. destruct (alerts am !! id) as [a|] eqn:Ea; [|reflexivity].
  destruct (bool_decide (Status a = AlertStatusResolved)) eqn:Es; [reflexivity|].
  eexists. split; [reflexivity|]. cbn [set_alerts alerts config].
  split; [apply lookup_insert_eq|].
  split; [intros id' Hne; apply lookup_insert_ne; congruence|].
  split; [reflexivity|].
  split; [apply not_active; discriminate|].
  split.
  - intros since Hs. unfold GetAllAlerts. apply list_elem_of_filter.
    split; [exact Hs|]. apply list_elem_of_fmap. eexists (id, _).
    split; [reflexivity|]. apply elem_of_map_to_list. cbn [set_alerts alerts].
    apply lookup_insert_eq.
  - intros now'. rewrite lookup_insert_eq. reflexivity.
Qed.
End AlertCourse.

(** ** The alert manager: counting occurrences *)

Section AlertCounting.
Import Monitoring.
Context {FO : FloatOps}.

Lemma builtin_rule_ids cfg metrics :
  map r_id (builtin_rules cfg metrics) = rule_ids.
Proof. reflexivity. Qed.

Lemma rule_at_spec cfg metrics j id :
  rule_ids !! j = Some id ->
  rule_at cfg metrics j ∈ builtin_rules cfg metrics
  /\ r_id (rule_at cfg metrics j) = id.
Proof.
  intros H. assert (Hj : (j < 9)%nat) by (apply lookup_lt_Some in H; exact H).
  unfold rule_at. split.
  - apply list_elem_of_In, nth_In. exact Hj.
  - rewrite <- (nth_lookup_Some _ _ "" _ H), <- (builtin_rule_ids cfg metrics).
    symmetry.
    exact (map_nth r_id (builtin_rules cfg metrics)
             (mkRule "" false AlertTypeSystem SeverityLow "" "" None) j).
Qed.

Lemma last_cons (l : list Z) : forall x d, List.last (x :: l) d = List.last l x.
Proof.
  induction l as [|y l IH]; intros x d; [reflexivity|].
  change (List.last (x :: y :: l) d) with (List.last (y :: l) d).
  rewrite (IH y d), (IH y x). reflexivity.
Qed.

Lemma EvaluateMetrics_fires am metrics now j id a :
  rule_ids !! j = Some id ->
  EnableAlerts (config am) = true ->
  r_fires (rule_at (config am) metrics j) = true ->
  alerts am !! id = Some a -> Status a = AlertStatusActive ->
  exists a', alerts (EvaluateMetrics am metrics now) !! id = Some a'
    /\ Count a' = Count a + 1 /\ Status a' = AlertStatusActive
    /\ CreatedAt a' = CreatedAt a /\ UpdatedAt a' = now.
Proof.
  intros Hj En Hf Ha Hs.
  destruct (rule_at_spec (config am) metrics j id Hj) as [Hin Hid].
  pose proof (EvaluateMetrics_lookup am metrics now _ En Hin) as L.
  rewrite Hid, Ha in L. cbn [rule_step] in L. rewrite Hf in L.
  assert (S : stale now (updated (rule_at (config am) metrics j) now a) = false).
  { unfold stale, updated. cbn [Status].
    rewrite bool_decide_eq_false_2 by (rewrite Hs; discriminate). reflexivity. }
  rewrite S in L. eexists. split; [exact L|].
  unfold updated. cbn [Count Status CreatedAt UpdatedAt]. auto.
Qed.

Lemma evaluations_fire j id evals : forall am a,
  rule_ids !! j = Some id ->
  EnableAlerts (config am) = true ->
  Forall (fun e => r_fires (rule_at (config am) (fst e) j) = true) evals ->
  alerts am !! id = Some a -> Status a = AlertStatusActive ->
  exists a', alerts (evaluations am evals) !! id = Some a'
    /\ Count a' = Count a + Z.of_nat (length evals)
    /\ Status a' = AlertStatusActive
    /\ CreatedAt a' = CreatedAt a
    /\ UpdatedAt a' = List.last (map snd evals) (UpdatedAt a).
Proof.
  induction evals as [|[m t] evals IH]; intros am a Hj En Hf Ha Hs.
  - exists a. cbn. repeat split; try assumption; try lia.
  - apply Forall_cons in Hf as [Hf1 Hf2]. cbn [fst] in Hf1.
    destruct (EvaluateMetrics_fires am m t j id a Hj En Hf1 Ha Hs)
      as (a1 & H1 & C1 & S1 & T1 & U1).
    pose proof (EvaluateMetrics_config am m t) as Hcfg.
    unfold evaluations. cbn [fold_left fst snd].
    destruct (IH (EvaluateMetrics am m t) a1 Hj) as (a' & H' & C' & S' & T' & U').
    + rewrite Hcfg. exact En.
    + rewrite Hcfg. exact Hf2.
    + exact H1.
    + exact S1.
    + exists a'. split; [exact H'|]. split; [cbn [length]; lia|].
      split; [exact S'|]. split; [congruence|].
      rewrite U', U1. cbn [map snd]. symmetry. apply last_cons.
Qed.

(** The count of an alert counts the evaluations in which its check
    held: starting without the alert, after a run of evaluations in all
    of which the check holds, the alert is active, created at the time of
    the first evaluation, updated at the time of the last, and its count
    is the number of evaluations. *)
Theorem EvaluateMetrics_counts am j id m0 t0 evals :
  rule_ids !! j = Some id ->
  EnableAlerts (config am) = true ->
  alerts am !! id = None ->
  Forall (fun e => r_fires (rule_at (config am) (fst e) j) = true)
         ((m0, t0) :: evals) ->
  exists a, alerts (evaluations am ((m0, t0) :: evals)) !! id = Some a
    /\ Count a = Z.of_nat (length ((m0, t0) :: evals))
    /\ Status a = AlertStatusActive
    /\ CreatedAt a = t0
    /\ UpdatedAt a = List.last (map snd evals) t0.
Proof.
  intros Hj En Hnone Hf. apply Forall_cons in Hf as [Hf1 Hf2]. cbn [fst] in Hf1.
  destruct (rule_at_spec (config am) m0 j id Hj) as [Hin Hid].
  pose proof (EvaluateMetrics_lookup am m0 t0 _ En Hin) as L.
  rewrite Hid, Hnone in L. cbn [rule_step] in L. rewrite Hf1 in L.
  change (stale t0 (created (rule_at (config am) m0 j) t0)) with false in L.
  pose proof (EvaluateMetrics_config am m0 t0) as Hcfg.
  unfold evaluations. cbn [fold_left fst snd].
  cbv iota in L.
  destruct (evaluations_fire j id evals (EvaluateMetrics am m0 t0)
              (created (rule_at (config am) m0 j) t0) Hj) as
    (a' & H' & C' & S' & T' & U');
    [rewrite Hcfg; exact En|rewrite Hcfg; exact Hf2|exact L|reflexivity|].
  exists a'. split; [exact H'|].
  cbn [created Count CreatedAt UpdatedAt length] in *.
  split; [lia|]. split; [exact S'|]. split; [exact T'|exact U'].
Qed.
End AlertCounting.

Section AlertExamples.
Import Monitoring.

Lemma EvaluateMetrics_counts_witness :
  exists a,
    alerts (evaluations (demo_manager true)
              [(demo_metrics 90, 5); (demo_metrics 95, 65); (demo_metrics 99, 125)])
      !! "system_cpu_high" = Some a
    /\ Count a = 3 /\ CreatedAt a = 5 /\ UpdatedAt a = 125.
Proof.
  destruct (EvaluateMetrics_counts (demo_manager true) 0 "system_cpu_high"
              (demo_metrics 90) 5 [(demo_metrics 95, 65); (demo_metrics 99, 125)])
    as (a & H & C & _ & T & U).
  - reflexivity.
  - reflexivity.
  - reflexivity.
  - repeat (apply Forall_cons_2; [reflexivity|]). apply Forall_nil_2.
  - exists a. auto.
Defined.
End AlertExamples.

(** ** Refreshing a token *)

Section TokenRefresh.
Import Auth AuthRefresh.
Variable sign : SigningMethod -> string -> Payload -> string.

(** [RefreshToken] issues a token only for a token that validates at
    that moment: one of an HMAC method, signed with the manager's
    secret, not yet expired and not before its time.  The new token is
    the one [GenerateToken] makes for the user of the old token, whatever
    that token's method and other claims were. *)
Theorem RefreshToken_sound am tok now n1 n2 n3 tok' :
  RefreshToken sign am tok now n1 n2 n3 = Ok tok' ->
  is_hmac (Method tok) = true
  /\ Signature tok = sign (Method tok) (jwtSecret am) (TokenPayload tok)
  /\ (forall exp, ExpiresAt (Registered (TokenClaims tok)) = Some exp -> now < exp)
  /\ (forall nbf, NotBefore (Registered (TokenClaims tok)) = Some nbf -> nbf <= now)
  /\ tok' = GenerateToken sign am (UserID (TokenClaims tok))
              (Username (TokenClaims tok)) n1 n2 n3.
Proof.
  unfold RefreshToken, ValidateToken.
  destruct (is_hmac (Method tok)); cbn [negb]; [|discriminate].
  destruct (String.eqb (Signature tok) _) eqn:Es; cbn [negb]; [|discriminate].
  apply String.eqb_eq in Es. unfold validate_claims.
  destruct (ExpiresAt (Registered (TokenClaims tok))) as [exp|];
    destruct (NotBefore (Registered (TokenClaims tok))) as [nbf|];
    try destruct (now <? exp) eqn:E1; try destruct (now <? nbf) eqn:E2;
    cbn [app]; try discriminate; intros [= <-];
    try apply Z.ltb_lt in E1; try apply Z.ltb_ge in E2;
    (split; [reflexivity|]); (split; [exact Es|]);
    (split; [intros ? [= <-] || intros ? [=]; assumption|]);
    (split; [intros ? [= <-] || intros ? [=]; assumption|]); reflexivity.
Qed.

(** Refreshing a token of this manager: from its issue up to its
    expiry the refresh gives the token that [GenerateToken] would make at
    that moment for the same user, under the name as the old token
    carries it (the name itself when it is valid UTF-8), and that token
    expires a full lifetime after the refresh; once the lifetime has
    passed the refresh is refused, with the expiry error as its cause. *)
Theorem RefreshToken_generated am uid uname t1 t2 t3 now n1 n2 n3 :
  let tok := GenerateToken sign am uid uname t1 t2 t3 in
  (t3 <= now -> now < NewNumericDate (t1 + tokenExpiry am) ->
     RefreshToken sign am tok now n1 n2 n3
     = Ok (GenerateToken sign am uid (json_string uname) n1 n2 n3)
     /\ (ValidString uname = true ->
         RefreshToken sign am tok now n1 n2 n3
         = Ok (GenerateToken sign am uid uname n1 n2 n3))
     /\ ExpiresAt (Registered (TokenClaims
                     (GenerateToken sign am uid (json_string uname) n1 n2 n3)))
        = Some (NewNumericDate (n1 + tokenExpiry am)))
  /\ (t1 + tokenExpiry am < now ->
        exists errs,
          RefreshToken sign am tok now n1 n2 n3
          = Err (ErrCannotRefresh (ErrParseToken errs))
          /\ In ErrTokenExpired errs).
Proof.
  intros tok. subst tok. unfold RefreshToken. rewrite ValidateToken_generated.
  destruct (TokenClaims_generated sign am uid uname t1 t2 t3) as (Hu & Hn & He & Hb).
  unfold validate_claims. rewrite He, Hb.
  split.
  - intros Hnbf Hexp. pose proof (NewNumericDate_le t3).
    rewrite (proj2 (Z.ltb_lt _ _) Hexp).
    rewrite (proj2 (Z.ltb_ge _ _)) by lia. cbn [app].
    rewrite Hu, Hn.
    split; [reflexivity|]. split; [|reflexivity].
    intros Hv. rewrite json_string_valid by exact Hv. reflexivity.
  - intros Hlate. pose proof (NewNumericDate_le (t1 + tokenExpiry am)).
    rewrite (proj2 (Z.ltb_ge now _)) by lia.
    destruct (now <? NewNumericDate t3); cbn [app];
      eexists; (split; [reflexivity|left; reflexivity]).
Qed.
End TokenRefresh.

Section TokenRefreshExamples.
Import Auth AuthRefresh.

(** A name that is not valid UTF-8 is respelled on the way: the token
    that comes back from the refresh is the one for the name with U+FFFD
    in it, not the one [GenerateToken] makes for the name as given, whose
    payload has the escape instead. *)
Lemma RefreshToken_respells_name :
  RefreshToken demo_sign (NewAuthManager "test-secret")
    (GenerateToken demo_sign (NewAuthManager "test-secret") 123 (String "255" "")
       10500000000 10500000001 10500000002)
    10500000002 20000000000 20000000001 20000000002
  = Ok (GenerateToken demo_sign (NewAuthManager "test-secret") 123 replacement
          20000000000 20000000001 20000000002)
  /\ GenerateToken demo_sign (NewAuthManager "test-secret") 123 replacement
       20000000000 20000000001 20000000002
     <> GenerateToken demo_sign (NewAuthManager "test-secret") 123 (String "255" "")
          20000000000 20000000001 20000000002.
Proof. split; [vm_compute; reflexivity|vm_compute; discriminate]. Qed.

Lemma RefreshToken_sound_witness :
  is_hmac (Method demo_token) = true
  /\ Signature demo_token
     = demo_sign (Method demo_token) "test-secret" (TokenPayload demo_token).
Proof.
  destruct (RefreshToken_sound demo_sign (NewAuthManager "test-secret") demo_token
              20000000000 20000000000 20000000001 20000000002
              (GenerateToken demo_sign (NewAuthManager "test-secret") 123 "testuser"
                 20000000000 20000000001 20000000002)) as (H1 & H2 & _).
  - vm_compute. reflexivity.
  - split; assumption.
Defined.
End TokenRefreshExamples.

(** ** The delete-client handler *)

Section DeleteHandler.
Import GoNet IPPool.
Context {PS : API.Persistence} {CS : ClientAPI.ClientStore PS}.
Context {UT : GoStrings.UnicodeTrim}.
Variable parseIPv6 : string -> option IP.
Hypothesis TrimFunc_occurs :
  forall s, occurs_in (GoStrings.TrimFunc_IsSpace s) s.
Hypothesis TrimRightFunc_occurs :
  forall s, occurs_in (GoStrings.TrimRightFunc_IsSpace s) s.


Lemma ubtoa_lacks_comma v : is_byte v -> lacks "," (ubtoa v) = true.
Proof.
  revert v. apply (byte_cases (fun v => _ = _)). intros n Hn.
  do 256 (destruct n as [|n]; [reflexivity|]). lia.
Qed.

Lemma IP_String_lacks_comma ip : is_ip4 ip -> lacks "," (IP_String ip) = true.
Proof.
  intros H. destruct (is_ip4_inv ip H) as (a & b & c & d & -> & Ha & Hb & Hc & Hd).
  rewrite IP_String_ip4, !lacks_app, !ubtoa_lacks_comma by assumption. reflexivity.
Qed.

(** The peer [CreateClient] hands to [AddPeer] is one that survives the
    round trip through the file. *)
Lemma client_peer_wf p key s p1 :
  pool_inv p -> AllocateIP parseIPv6 p = Ok (s, p1) -> plain key ->
  wf_peer (WireGuard.mkPeer key [s +:+ "/32"] "" 0).
Proof.
  intros [(net & bc & k & G) A] E Hk.
  pose proof (AllocateIP_spec parseIPv6 p net bc k G) as S. rewrite E in S.
  destruct S as (x & Hx & _ & -> & _).
  destruct (IP_String_plain x Hx) as [Hc Hn].
  split; [exact Hk|]. cbn [WireGuard.AllowedIPs WireGuard.Endpoint WireGuard.PersistentKA].
  split; [discriminate|]. split; [|split; [reflexivity|lia]].
  apply Forall_cons_2; [|apply Forall_nil_2]. split.
  - split; [rewrite clean_app, Hc; reflexivity|].
    destruct (IP_String x); [contradiction|discriminate].
  - rewrite lacks_app, IP_String_lacks_comma by assumption. reflexivity.
Qed.

(** Creating a client and then deleting it: when [CreateClient] has
    answered 201 for a client with a key that was not in the file, and the
    store finds that client again under the id of the request,
    [DeleteClient] leaves the pool exactly as it was before the creation;
    and if its [RemovePeer] succeeds, [GetPeers] reads no peer with the
    client's key from the file. *)
Theorem CreateClient_DeleteClient name keys w content clientIP pool1 body w1
    idStr id client :
  reachable parseIPv6 (API.w_pool w) ->
  API.w_file w = WireGuard.File content ->
  plain (API.kp_PublicKey keys) ->
  GoStrings.Contains content (API.kp_PublicKey keys) = false ->
  AllocateIP parseIPv6 (API.w_pool w) = Ok (clientIP, pool1) ->
  API.CreateClient parseIPv6 (inr name) (Some keys) true w
  = Some (API.JSON API.StatusCreated body, w1) ->
  ClientAPI.ParseUint32 idStr = Some id ->
  ClientAPI.db_GetClient (API.w_db w1) id = ClientAPI.Found client ->
  API.PublicKey client = API.kp_PublicKey keys ->
  API.IPAddress client = clientIP ->
  exists r w2,
    ClientAPI.DeleteClient parseIPv6 idStr true w1 = Some (r, w2)
    /\ API.w_pool w2 = API.w_pool w
    /\ (forall f2,
          WireGuard.RemovePeer (API.w_file w1) (API.kp_PublicKey keys) true = Ok f2 ->
          API.w_file w2 = f2
          /\ exists peers,
               WireGuard.GetPeers f2 = Ok peers
               /\ Forall (fun q => WireGuard.PublicKey q <> API.kp_PublicKey keys) peers).
Proof.
  intros R Hfile Hkey Habs Ealloc Ecreate Hid Hget Hpk Hip.
  apply reachable_inv in R.
  pose proof (AllocateIP_ReleaseIP parseIPv6 _ _ _ R Ealloc) as Hrel.
  pose proof (client_peer_wf _ _ _ _ R Ealloc Hkey) as W.
  unfold API.CreateClient in Ecreate. rewrite Ealloc in Ecreate.
  destruct (API.db_CreateClient _ _) as [[db1 row]|]; [|discriminate].
  rewrite Hfile in Ecreate. cbn [WireGuard.AddPeer] in Ecreate.
  injection Ecreate as _ <-.
  unfold ClientAPI.DeleteClient. rewrite Hid, Hget, Hpk, Hip.
  cbn [API.w_pool API.w_db API.w_file after]. rewrite Hrel.
  pose proof (RemovePeer_returns
                (WireGuard.File (content +:+ WireGuard.peerConfig
                   (WireGuard.mkPeer (API.kp_PublicKey keys) [clientIP +:+ "/32"] "" 0)))
                (API.kp_PublicKey keys) true) as Hret.
  assert (Hfree : forall f2,
            WireGuard.RemovePeer
              (WireGuard.File (content +:+ WireGuard.peerConfig
                 (WireGuard.mkPeer (API.kp_PublicKey keys) [clientIP +:+ "/32"] "" 0)))
              (API.kp_PublicKey keys) true = Ok f2 ->
            exists peers, WireGuard.GetPeers f2 = Ok peers
              /\ Forall (fun q => WireGuard.PublicKey q <> API.kp_PublicKey keys) peers).
  { intros f2. unfold WireGuard.RemovePeer.
    pose proof (RemovePeer_lines content
                  (WireGuard.mkPeer (API.kp_PublicKey keys) [clientIP +:+ "/32"] "" 0))
      as L.
    cbn [WireGuard.PublicKey] in L.
    destruct (GoStrings.scan_lines _) as [lines err].
    destruct (WireGuard.remove_loop _ _ _ _ _ _) as [[out [|]]|]; try discriminate.
    intros [= <-]. specialize (L out false W Habs eq_refl).
    eexists. split; [reflexivity|].
    apply (parsePeers_key_free TrimFunc_occurs TrimRightFunc_occurs content);
      [assumption|apply Hkey|assumption]. }
  destruct (WireGuard.RemovePeer _ _ _) as [f|e|] eqn:Er; [| |contradiction];
    (destruct (ClientAPI.db_DeleteClient db1 id) as [db2|];
     eexists _, _; (split; [reflexivity|]); cbn [API.w_pool API.w_file];
     (split; [reflexivity|]); intros f2 [= <-]; (split; [reflexivity|]);
     apply Hfree; reflexivity).
Qed.
End DeleteHandler.

(** ** The IP pool: one address, two spellings *)

Section PoolSpelling.
Import GoNet IPPool PoolQueries.
Variable parseIPv6 : string -> option IP.

(** The pool keeps its books by the text of an address.  A text [s]
    that [ParseIP] reads as an address [x] of the network, and that is
    not the dotted text of [x], passes every check of
    [AllocateSpecificIP] as long as [s] itself has no entry: whether [x]
    is the network address, the broadcast address, the server's, or an
    address a client already has.  The entry is made under [s], the
    entry of [x] stays as it was, and one address fewer counts as
    available. *)
Theorem AllocateSpecificIP_by_spelling p s x :
  reachable parseIPv6 p ->
  ParseIP parseIPv6 s = Some x -> is_ip4 x -> Contains (ipNet p) x = true ->
  s <> IP_String x ->
  IsAllocated p s = false ->
  exists p',
    AllocateSpecificIP parseIPv6 p s = Ok p'
    /\ IsAllocated p' s = true
    /\ IsAllocated p' (IP_String x) = IsAllocated p (IP_String x)
    /\ GetAvailableCount p' = GetAvailableCount p - 1.
Proof.
  intros R Hp Hx Hc Hne Hfree. apply reachable_inv in R.
  destruct R as [(net & bc & k & G) (Atrue & _)].
  pose proof (geom_server _ _ _ _ G) as [Hs _].
  destruct G as (Hn & Hb & _ & _ & _ & _ & En & Eb & Es & _).
  assert (Hdiff : forall y, is_ip4 y -> s <> IP_String y).
  { intros y Hy E. apply Hne. rewrite E in Hp.
    rewrite ParseIP_String in Hp by assumption. congruence. }
  unfold AllocateSpecificIP. rewrite Hp, Hc. cbn [negb].
  rewrite (proj2 (String.eqb_neq s (networkAddress p)))
    by (rewrite En; apply Hdiff, Hn).
  rewrite (proj2 (String.eqb_neq s (broadcastAddress p)))
    by (rewrite Eb; apply Hdiff, Hb).
  rewrite (proj2 (String.eqb_neq s (serverIP p)))
    by (rewrite Es; apply Hdiff, Hs).
  unfold IsAllocated in Hfree. rewrite Hfree.
  eexists. split; [reflexivity|].
  split; [rewrite IsAllocated_insert, decide_True by reflexivity; reflexivity|].
  split; [rewrite IsAllocated_insert, decide_False by congruence; reflexivity|].
  unfold GetAvailableCount. cbn [set_allocated allocated totalHosts].
  rewrite size_insert_fresh; [lia|].
  unfold lookupB in Hfree. destruct (allocated p !! s) as [b|] eqn:E; [|reflexivity].
  simpl in Hfree. subst b. specialize (Atrue s false E). discriminate.
Qed.
End PoolSpelling.

Section PoolSpellingExamples.
Import GoNet IPPool PoolQueries.

Lemma pool29_used_reachable_mapped : reachable mapped_parse pool29_used.
Proof.
  exists "10.0.0.0/29", pool29,
    [CallAllocateIP; CallAllocateSpecificIP "10.0.0.4"; CallReleaseIP "10.0.0.2";
     CallAllocateIP].
  split; vm_compute; reflexivity.
Defined.

(** The server's own address, handed out under its IPv4-mapped
    spelling. *)
Lemma AllocateSpecificIP_by_spelling_witness :
  GetServerIP pool29_used = "10.0.0.1"
  /\ exists p',
       AllocateSpecificIP mapped_parse pool29_used "::ffff:10.0.0.1" = Ok p'
       /\ IsAllocated p' "::ffff:10.0.0.1" = true
       /\ GetAvailableCount p' = GetAvailableCount pool29_used - 1.
Proof.
  split; [reflexivity|].
  destruct (AllocateSpecificIP_by_spelling mapped_parse pool29_used "::ffff:10.0.0.1"
              [10; 0; 0; 1] pool29_used_reachable_mapped)
    as (p' & H1 & H2 & _ & H3).
  - vm_compute. reflexivity.
  - split; [reflexivity|].
    repeat (apply Forall_cons_2; [unfold is_byte; lia|]). apply Forall_nil_2.
  - vm_compute. reflexivity.
  - discriminate.
  - vm_compute. reflexivity.
  - exists p'. auto.
Defined.
End PoolSpellingExamples.

(** ** The client configuration text, read by the server's readers *)

Section ClientText.
Import GoStrings WGConfig.
Context {UT : UnicodeTrim}.
Variable generatePublicKey : string -> option string.

Lemma ClientConfig_unlines cc :
  ClientConfig_GenerateConfigFile cc = unlines (client_lines cc).
Proof.
  unfold ClientConfig_GenerateConfigFile, client_lines. cbn [unlines].
  rewrite !sapp_assoc, !sapp_nil_l, !sapp_nil_r. reflexivity.
Qed.

Lemma client_lines_lack_LF cc :
  wf_client cc -> Forall (fun l => lacks "010" l = true) (client_lines cc).
Proof.
  intros ([_ H1] & [_ H2] & _ & H3 & [H4 _] & [H5 _] & _ & H6). unfold client_lines.
  repeat (apply Forall_cons_2; [|]); try reflexivity; try apply Forall_nil_2.
  - rewrite lacks_app, H1. reflexivity.
  - rewrite lacks_app, H2. reflexivity.
  - rewrite lacks_app, Join_lacks_LF by assumption. reflexivity.
  - rewrite lacks_app, (clean_lacks "010" _ keeps_LF H4). reflexivity.
  - rewrite lacks_app, (clean_lacks "010" _ keeps_LF H5). reflexivity.
  - rewrite lacks_app, Join_lacks_LF by assumption. reflexivity.
Qed.

Lemma kv_no_section k0 krest value :
  plain (String k0 krest) -> Ascii.eqb k0 "[" = false -> ends_kept value ->
  String.eqb (TrimSpace (String k0 krest +:+ " = " +:+ value)) "[Peer]" = false.
Proof.
  intros Hk Hb Hv.
  rewrite TrimSpace_ends_kept
    by (apply ends_kept_mid; [apply ends_kept_plain, Hk|exact Hv]).
  rewrite sapp_cons. cbn [String.eqb]. rewrite Hb. reflexivity.
Qed.

Lemma ends_kept_Join_ne l :
  l <> [] -> Forall (fun a => plain a /\ lacks "," a = true) l ->
  ends_kept (Join l ", ").
Proof. destruct l as [|a l]; [contradiction|]. intros _. apply ends_kept_Join. Qed.

Lemma config_step_client_lines cc :
  wf_client cc ->
  fold_left config_step (client_lines cc ++ [""]) emptyConfig
  = mkServerConfig (cc_PrivateKey cc) "" (cc_Address cc) 0 [] [] [] "".
Proof.
  intros ([H1 _] & [H2 _] & Hd & H3 & H4 & H5 & Hne & H6).
  pose proof (ends_kept_Join_ne _ Hd H3) as Hdns.
  pose proof (ends_kept_Join_ne _ Hne H6) as Hips.
  unfold client_lines. cbn [app fold_left].
  change (config_step emptyConfig "[Interface]") with emptyConfig.
  change ("PrivateKey = " +:+ cc_PrivateKey cc)
    with ("PrivateKey" +:+ " = " +:+ cc_PrivateKey cc).
  rewrite (config_step_kv _ "P" "rivateKey")
    by (try reflexivity; try (split; [reflexivity|discriminate]); assumption).
  change (set_setting emptyConfig "PrivateKey" (cc_PrivateKey cc))
    with (mkServerConfig (cc_PrivateKey cc) "" "" 0 [] [] [] "").
  change ("Address = " +:+ cc_Address cc) with ("Address" +:+ " = " +:+ cc_Address cc).
  rewrite (config_step_kv _ "A" "ddress")
    by (try reflexivity; try (split; [reflexivity|discriminate]); assumption).
  change (set_setting (mkServerConfig (cc_PrivateKey cc) "" "" 0 [] [] [] "")
            "Address" (cc_Address cc))
    with (mkServerConfig (cc_PrivateKey cc) "" (cc_Address cc) 0 [] [] [] "").
  set (c := mkServerConfig (cc_PrivateKey cc) "" (cc_Address cc) 0 [] [] [] "").
  change ("DNS = " +:+ Join (cc_DNS cc) ", ")
    with ("DNS" +:+ " = " +:+ Join (cc_DNS cc) ", ").
  rewrite (config_step_kv _ "D" "NS")
    by (try reflexivity; try (split; [reflexivity|discriminate]); assumption).
  change (set_setting c "DNS" (Join (cc_DNS cc) ", ")) with c.
  change (config_step (config_step c "") "[Peer]") with c.
  change ("PublicKey = " +:+ cc_ServerPublicKey cc)
    with ("PublicKey" +:+ " = " +:+ cc_ServerPublicKey cc).
  rewrite (config_step_kv _ "P" "ublicKey")
    by (try reflexivity; try (split; [reflexivity|discriminate]);
        apply ends_kept_plain, H4).
  change (set_setting c "PublicKey" (cc_ServerPublicKey cc)) with c.
  change ("Endpoint = " +:+ cc_ServerEndpoint cc)
    with ("Endpoint" +:+ " = " +:+ cc_ServerEndpoint cc).
  rewrite (config_step_kv _ "E" "ndpoint")
    by (try reflexivity; try (split; [reflexivity|discriminate]);
        apply ends_kept_plain, H5).
  change (set_setting c "Endpoint" (cc_ServerEndpoint cc)) with c.
  change ("AllowedIPs = " +:+ Join (cc_AllowedIPs cc) ", ")
    with ("AllowedIPs" +:+ " = " +:+ Join (cc_AllowedIPs cc) ", ").
  rewrite (config_step_kv _ "A" "llowedIPs")
    by (try reflexivity; try (split; [reflexivity|discriminate]); assumption).
  change (set_setting c "AllowedIPs" (Join (cc_AllowedIPs cc) ", ")) with c.
  change "PersistentKeepalive = 25" with ("PersistentKeepalive" +:+ " = " +:+ "25").
  rewrite (config_step_kv _ "P" "ersistentKeepalive")
    by (try reflexivity; try (split; [reflexivity|discriminate]);
        (apply ends_kept_plain; split; [reflexivity|discriminate])).
  reflexivity.
Qed.

(** The text of a client configuration, given to the readers of the
    server's file: [GetPeers] finds one peer in it, the server, with the
    endpoint, the allowed addresses and the keep-alive of 25 seconds that
    the text fixes; [GetConfig] finds the client's private key and
    address, and no port. *)
Theorem ClientConfig_read_back cc :
  wf_client cc ->
  WireGuard.GetPeers (WireGuard.File (ClientConfig_GenerateConfigFile cc))
  = Ok [WireGuard.mkPeer (cc_ServerPublicKey cc) (cc_AllowedIPs cc)
          (cc_ServerEndpoint cc) 25]
  /\ GetConfig generatePublicKey (WireGuard.File (ClientConfig_GenerateConfigFile cc))
     = Ok (read_back generatePublicKey
             (mkServerConfig (cc_PrivateKey cc) "" (cc_Address cc) 0 [] [] [] "")).
Proof.
  intros W. pose proof W as ([H1 _] & [H2 _] & Hd & H3 & H4 & H5 & Hne & H6).
  pose proof (ends_kept_Join_ne _ Hd H3) as Hdns.
  pose proof (ends_kept_Join_ne _ Hne H6) as Hips.
  cbn [WireGuard.GetPeers GetConfig]. unfold WireGuard.parsePeers.
  rewrite ClientConfig_unlines, Split_unlines by (apply client_lines_lack_LF, W).
  split.
  - unfold client_lines. cbn [app fold_left].
    change (WireGuard.peers_step ([], None) "[Interface]") with
      (@nil WireGuard.Peer, @None WireGuard.Peer).
    change ("PrivateKey = " +:+ cc_PrivateKey cc)
      with ("PrivateKey" +:+ " = " +:+ cc_PrivateKey cc).
    rewrite peers_step_no_section
      by (apply (kv_no_section "P" "rivateKey");
          [split; [reflexivity|discriminate]|reflexivity|assumption]).
    change ("Address = " +:+ cc_Address cc) with ("Address" +:+ " = " +:+ cc_Address cc).
    rewrite peers_step_no_section
      by (apply (kv_no_section "A" "ddress");
          [split; [reflexivity|discriminate]|reflexivity|assumption]).
    change ("DNS = " +:+ Join (cc_DNS cc) ", ")
      with ("DNS" +:+ " = " +:+ Join (cc_DNS cc) ", ").
    rewrite peers_step_no_section
      by (apply (kv_no_section "D" "NS");
          [split; [reflexivity|discriminate]|reflexivity|assumption]).
    rewrite peers_step_blank, peers_step_header. cbn [fst snd WireGuard.flush].
    change ("PublicKey = " +:+ cc_ServerPublicKey cc)
      with ("PublicKey" +:+ " = " +:+ cc_ServerPublicKey cc).
    rewrite (peers_step_kv _ _ "P" "ublicKey")
      by (try reflexivity; try (split; [reflexivity|discriminate]);
          apply ends_kept_plain, H4).
    change ("Endpoint = " +:+ cc_ServerEndpoint cc)
      with ("Endpoint" +:+ " = " +:+ cc_ServerEndpoint cc).
    rewrite (peers_step_kv _ _ "E" "ndpoint")
      by (try reflexivity; try (split; [reflexivity|discriminate]);
          apply ends_kept_plain, H5).
    change ("AllowedIPs = " +:+ Join (cc_AllowedIPs cc) ", ")
      with ("AllowedIPs" +:+ " = " +:+ Join (cc_AllowedIPs cc) ", ").
    rewrite (peers_step_kv _ _ "A" "llowedIPs")
      by (try reflexivity; try (split; [reflexivity|discriminate]); assumption).
    change "PersistentKeepalive = 25" with ("PersistentKeepalive" +:+ " = " +:+ "25").
    rewrite (peers_step_kv _ _ "P" "ersistentKeepalive")
      by (try reflexivity; try (split; [reflexivity|discriminate]);
          (apply ends_kept_plain; split; [reflexivity|discriminate])).
    rewrite peers_step_blank.
    unfold WireGuard.set_property. cbn [String.eqb Ascii.eqb Bool.eqb andb].
    cbn [WireGuard.PublicKey WireGuard.AllowedIPs WireGuard.Endpoint
         WireGuard.PersistentKA WireGuard.emptyPeer].
    change (Atoi "25") with (Some 25).
    destruct (cc_AllowedIPs cc) as [|a l] eqn:Ea; [contradiction|].
    rewrite Split_Join by assumption. cbn [map].
    apply Forall_cons in H6 as [[Ha _] Hl].
    rewrite map_TrimSpace_ips, TrimSpace_ends_kept
      by (assumption || apply ends_kept_plain, Ha).
    unfold WireGuard.flush. cbn [WireGuard.PublicKey].
    destruct H4 as [_ Hk]. rewrite (proj2 (String.eqb_neq _ _) Hk). reflexivity.
  - rewrite (config_step_client_lines cc W).
    unfold read_back.
    cbn [PrivateKey PublicKey Address ListenPort DNS PostUp PostDown Interface].
    destruct H1 as (c0 & s' & _ & _ & -> & _). cbn [String.eqb negb].
    destruct (generatePublicKey (String c0 s')); reflexivity.
Qed.
End ClientText.

Section ClientTextExamples.
Import GoStrings WGConfig.

Lemma demo_client_wf : wf_client demo_client.
Proof.
  unfold wf_client.
  split; [eapply one_line_text; vm_compute; reflexivity|].
  split; [eapply one_line_text; vm_compute; reflexivity|].
  split; [discriminate|].
  split; [repeat (apply Forall_cons_2;
                  [split; [split; [reflexivity|discriminate]|reflexivity]|]);
          apply Forall_nil_2|].
  split; [split; [reflexivity|discriminate]|].
  split; [split; [reflexivity|discriminate]|].
  split; [discriminate|].
  repeat (apply Forall_cons_2;
          [split; [split; [reflexivity|discriminate]|reflexivity]|]);
    apply Forall_nil_2.
Defined.

Lemma ClientConfig_read_back_witness :
  WireGuard.GetPeers (WireGuard.File (ClientConfig_GenerateConfigFile demo_client))
  = Ok [WireGuard.mkPeer "c2VydmVyLXB1YmxpYy1rZXk=" ["0.0.0.0/0"]
          "vpn.example.org:51820" 25].
Proof.
  exact (proj1 (@ClientConfig_read_back AsciiTrim demo_pubkey demo_client demo_client_wf)).
Defined.
End ClientTextExamples.

(** ** [RemovePeer]: the text it writes *)

Section RemoveExact.
Import GoStrings WireGuard.
Context {UT : UnicodeTrim}.

Lemma Join_Split s sep : Join (Split s sep) (String sep "") = s.
Proof.
  induction s as [|c s IH]; [reflexivity|]. cbn [Split].
  pose proof (Split_nonempty s sep) as Hne.
  destruct (Ascii.eqb c sep) eqn:E.
  - apply Ascii.eqb_eq in E. subst c.
    destruct (Split s sep) as [|x l]; [contradiction|].
    change (Join ("" :: x :: l) (String sep ""))
      with ("" +:+ String sep "" +:+ Join (x :: l) (String sep "")).
    rewrite IH. reflexivity.
  - destruct (Split s sep) as [|x l]; [contradiction|].
    destruct l as [|y l].
    + cbn [Join] in *. rewrite IH. reflexivity.
    + change (Join (String c x :: y :: l) (String sep ""))
        with (String c (x +:+ String sep "" +:+ Join (y :: l) (String sep ""))).
      change (Join (x :: y :: l) (String sep ""))
        with (x +:+ String sep "" +:+ Join (y :: l) (String sep "")) in IH.
      rewrite IH. reflexivity.
Qed.

Lemma scan_body_plain A :
  Forall (fun l => too_long l = false /\ dropCR l = l) A ->
  scan_body A = (A, false).
Proof.
  induction 1 as [|a A [H1 H2] _ IH]; [reflexivity|].
  cbn [scan_body]. rewrite H1, IH, H2. reflexivity.
Qed.

(** The lines the scanner delivers for the file after [AddPeer], when
    every line fits its buffer. *)
Lemma scan_lines_added_plain content p :
  wf_peer p -> short_peer p -> peerless content ->
  scan_lines (content +:+ peerConfig p)
  = (Split content "010" ++ peer_lines p, false).
Proof.
  intros W Hs Hc. unfold scan_lines. rewrite Split_added by assumption.
  rewrite scan_pieces_app by (destruct (peer_lines p); discriminate).
  rewrite scan_pieces_snoc.
  rewrite scan_body_plain.
  2:{ eapply Forall_impl; [exact Hc|]. intros l (H1 & H2 & _). auto. }
  rewrite scan_body_plain; [reflexivity|].
  pose proof (peer_lines_dropCR p W) as D. unfold short_peer in Hs.
  induction Hs as [|l ls Hl Hls IH]; [constructor|].
  cbn [map] in D. injection D as D1 D2. constructor; [auto|apply IH, D2].
Qed.

(** The outer loop copies lines that open no peer section. *)
Lemma remove_loop_copy K A : forall fuel rem err newLines,
  Forall plain_line A ->
  remove_loop (length A + fuel) K (A ++ rem) err false newLines
  = remove_loop fuel K rem err false (newLines ++ A).
Proof.
  induction A as [|a A IH]; intros fuel rem err newLines H.
  - rewrite List.app_nil_r. reflexivity.
  - apply Forall_cons in H as [(_ & _ & Ha) H].
    cbn [length Nat.add app remove_loop]. rewrite Ha. cbn [andb].
    rewrite IH by assumption. rewrite <- List.app_assoc. reflexivity.
Qed.

(** While it skips a section, it drops the lines that neither open nor
    close one. *)
Lemma remove_loop_skip K T : forall fuel rem err newLines,
  Forall inert T ->
  remove_loop (length T + fuel) K (T ++ rem) err true newLines
  = remove_loop fuel K rem err true newLines.
Proof.
  induction T as [|t T IH]; intros fuel rem err newLines H; [reflexivity|].
  apply Forall_cons in H as [[H1 H2] H].
  cbn [length Nat.add app remove_loop]. rewrite H1, H2. cbn [andb].
  apply IH, H.
Qed.

(** [RemovePeer] undoes [AddPeer]: on a file without peer sections, whose
    lines fit the scanner's buffer and do not end in a carriage return,
    adding a peer and removing it by its key gives back the text of the
    file, byte for byte. *)
Theorem AddPeer_RemovePeer_restores content p :
  wf_peer p -> short_peer p -> peerless content ->
  exists f1,
    AddPeer (File content) p true = Ok f1
    /\ RemovePeer f1 (PublicKey p) true = Ok (File content).
Proof.
  intros W Hs Hc. eexists. split; [reflexivity|].
  unfold RemovePeer. rewrite scan_lines_added_plain by assumption.
  unfold peer_lines.
  replace (S (length (Split content "010" ++ "[Peer]" :: pk_line p :: tail_lines p)))
    with (length (Split content "010") + S (length (tail_lines p) + 2))%nat
    by (rewrite List.length_app; cbn [length]; lia).
  rewrite remove_loop_copy by exact Hc.
  cbn [remove_loop read_section app].
  change (String.eqb (TrimSpace "[Peer]") "[Peer]") with true. cbv iota.
  rewrite (pk_line_matches p W).
  rewrite <- (List.app_nil_r (tail_lines p)) at 2.
  rewrite remove_loop_skip by (apply tail_lines_inert, W).
  cbn [remove_loop app]. rewrite Join_Split. reflexivity.
Qed.
End RemoveExact.

(** ** [RemovePeer] on a file with two peers *)

Section RemoveOfTwo.
Import GoStrings WireGuard.
Context {UT : UnicodeTrim}.

Lemma tail_lines_ends_kept p : wf_peer p -> Forall ends_kept (tail_lines p).
Proof.
  intros (Hpk & Hne & Hips & Hep & Hka). unfold tail_lines.
  apply Forall_app. split; [|apply Forall_app; split].
  - constructor; [|constructor].
    destruct (AllowedIPs p) as [|a l] eqn:E; [contradiction|].
    change (ip_line p) with ("AllowedIPs" +:+ " = " +:+ Join (AllowedIPs p) ", ").
    apply ends_kept_mid; [apply ends_kept_plain; split; [reflexivity|discriminate]|].
    rewrite E. apply ends_kept_Join, Hips.
  - destruct (String.eqb (Endpoint p) "") eqn:E; constructor; [|constructor].
    apply String.eqb_neq in E.
    change (ep_line p) with ("Endpoint" +:+ " = " +:+ Endpoint p).
    apply ends_kept_mid; apply ends_kept_plain;
      [split; [reflexivity|discriminate]|split; assumption].
  - destruct (0 <? PersistentKA p) eqn:E; constructor; [|constructor].
    change (ka_line p) with ("PersistentKeepalive" +:+ " = " +:+ Itoa (PersistentKA p)).
    apply ends_kept_mid; apply ends_kept_plain;
      [split; [reflexivity|discriminate]|apply Itoa_clean; lia].
Qed.

(** The lines after the key of a section are no key lines. *)
Lemma tail_lines_no_key p :
  wf_peer p ->
  Forall (fun l => HasPrefix (TrimSpace l) "PublicKey = " = false) (tail_lines p).
Proof.
  intros W. pose proof (tail_lines_ends_kept p W) as H. revert H.
  unfold tail_lines. rewrite !Forall_app. intros (H1 & H2 & H3).
  split; [|split].
  - apply Forall_cons in H1 as [H1 _]. constructor; [|constructor].
    rewrite TrimSpace_ends_kept by assumption. reflexivity.
  - destruct (String.eqb (Endpoint p) ""); [constructor|].
    apply Forall_cons in H2 as [H2 _]. constructor; [|constructor].
    rewrite TrimSpace_ends_kept by assumption. reflexivity.
  - destruct (0 <? PersistentKA p); [|constructor].
    apply Forall_cons in H3 as [H3 _]. constructor; [|constructor].
    rewrite TrimSpace_ends_kept by assumption. reflexivity.
Qed.

(** The inner loop reads on over lines that are neither the wanted key
    line nor the end of the section. *)
Lemma read_section_on K T : forall rem err temp,
  Forall inert T ->
  Forall (fun l => HasPrefix (TrimSpace l) "PublicKey = " && Contains l K = false) T ->
  read_section K (T ++ rem) err temp = read_section K rem err (temp ++ T).
Proof.
  induction T as [|t T IH]; intros rem err temp Hi Hk.
  - rewrite List.app_nil_r. reflexivity.
  - apply Forall_cons in Hi as [[_ H2] Hi]. apply Forall_cons in Hk as [H3 Hk].
    cbn [app read_section]. rewrite H3, H2, IH by assumption.
    rewrite <- List.app_assoc. reflexivity.
Qed.

(** The section of a peer, read for another key. *)
Lemma read_section_other K q rem err :
  wf_peer q -> Contains (pk_line q) K = false ->
  read_section K (pk_line q :: tail_lines q ++ rem) err ["[Peer]"]
  = read_section K rem err (peer_lines q).
Proof.
  intros W Hk.
  change (pk_line q :: tail_lines q ++ rem)
    with ((pk_line q :: tail_lines q) ++ rem).
  rewrite read_section_on; [reflexivity| |].
  - constructor; [|apply tail_lines_inert, W].
    destruct W as (Hpk & _).
    change (pk_line q) with ("PublicKey" +:+ " = " +:+ PublicKey q).
    refine (kv_line_inert "P" "ublicKey" _ _ _ _);
      [split; [reflexivity|discriminate]|reflexivity|apply ends_kept_plain, Hpk].
  - constructor; [rewrite Hk; apply andb_false_r|].
    eapply Forall_impl; [apply tail_lines_no_key, W|].
    intros l ->. reflexivity.
Qed.

Lemma Join_snoc_empty X :
  X <> [] -> Join (X ++ [""]) nl = Join X nl +:+ nl.
Proof.
  induction X as [|x X IH]; [contradiction|]. intros _.
  destruct X as [|y X].
  - cbn [app Join]. rewrite sapp_nil_r. reflexivity.
  - change (Join ((x :: y :: X) ++ [""]) nl)
      with (x +:+ nl +:+ Join ((y :: X) ++ [""]) nl).
    rewrite IH by discriminate.
    change (Join (x :: y :: X) nl) with (x +:+ nl +:+ Join (y :: X) nl).
    rewrite !sapp_assoc. reflexivity.
Qed.

Lemma peerless_no_section content :
  peerless content ->
  Forall (fun l => TrimSpace l <> "[Peer]") (Split content "010").
Proof.
  intros H. eapply Forall_impl; [exact H|].
  intros l (_ & _ & E). apply String.eqb_neq, E.
Qed.

(** The lines the scanner delivers after two calls of [AddPeer]. *)
Lemma scan_lines_added_twice content a b :
  wf_peer a -> short_peer a -> wf_peer b -> short_peer b -> peerless content ->
  scan_lines ((content +:+ peerConfig a) +:+ peerConfig b)
  = (Split content "010" ++ peer_lines a ++ "" :: peer_lines b, false).
Proof.
  intros Wa Sa Wb Sb Hc. unfold scan_lines.
  rewrite Split_added, Split_added by assumption.
  rewrite <- !List.app_assoc.
  rewrite scan_pieces_app by (destruct (peer_lines a); discriminate).
  rewrite scan_body_plain.
  2:{ eapply Forall_impl; [exact Hc|]. intros l (H1 & H2 & _). auto. }
  assert (P : forall p, wf_peer p -> short_peer p ->
            Forall (fun l => too_long l = false /\ dropCR l = l) (peer_lines p)).
  { intros p W Hs. pose proof (peer_lines_dropCR p W) as D. unfold short_peer in Hs.
    induction Hs as [|l ls Hl Hls IH]; [constructor|].
    cbn [map] in D. injection D as D1 D2. constructor; [auto|apply IH, D2]. }
  rewrite (List.app_assoc (peer_lines a) [""]).
  rewrite scan_pieces_app by (destruct (peer_lines b); discriminate).
  rewrite scan_body_plain.
  2:{ apply Forall_app. split; [apply P; assumption|].
      constructor; [split; reflexivity|constructor]. }
  rewrite scan_pieces_snoc, scan_body_plain by (apply P; assumption).
  rewrite <- !List.app_assoc. reflexivity.
Qed.

(** Of two peers added in turn to a file without peer sections, the
    first is removed and the second kept: [RemovePeer] writes the text
    the file would have with the second peer alone, less its final
    newline, and [GetPeers] then returns the second peer only.  The key
    of the first must not occur in the key line of the second. *)
Theorem RemovePeer_first_of_two content a b f1 f2 :
  wf_peer a -> short_peer a -> wf_peer b -> short_peer b -> peerless content ->
  Contains (pk_line b) (PublicKey a) = false ->
  AddPeer (File content) a true = Ok f1 -> AddPeer f1 b true = Ok f2 ->
  exists text,
    RemovePeer f2 (PublicKey a) true = Ok (File text)
    /\ text +:+ nl = content +:+ peerConfig b
    /\ GetPeers (File text) = Ok [b].
Proof.
  intros Wa Sa Wb Sb Hc Hk [= <-] [= <-].
  exists (Join (Split content "010" ++ peer_lines b) nl).
  split; [|split].
  - unfold RemovePeer. rewrite scan_lines_added_twice by assumption.
    set (Lb := peer_lines b). unfold peer_lines.
    replace (S (length (Split content "010"
                        ++ ("[Peer]" :: pk_line a :: tail_lines a) ++ "" :: Lb)))
      with (length (Split content "010")
            + S (length (tail_lines a)
                 + S (S (S (S (S (length (tail_lines b))))))))%nat.
    2:{ subst Lb. unfold peer_lines.
        repeat (rewrite ?List.length_app; cbn [length]). lia. }
    rewrite remove_loop_copy by exact Hc.
    cbn [remove_loop read_section app].
    change (String.eqb (TrimSpace "[Peer]") "[Peer]") with true. cbv iota.
    rewrite (pk_line_matches a Wa).
    rewrite remove_loop_skip by (apply tail_lines_inert, Wa).
    subst Lb. unfold peer_lines.
    cbn [remove_loop].
    change (String.eqb (TrimSpace "") "[Peer]") with false.
    change (String.eqb (TrimSpace "[Peer]") "[Peer]") with true.
    change (HasPrefix (TrimSpace "") "[" || String.eqb (TrimSpace "") "") with true.
    cbv iota. cbn [andb].
    rewrite <- (List.app_nil_r (tail_lines b)) at 1.
    rewrite read_section_other by assumption.
    cbn [read_section]. reflexivity.
  - rewrite <- (Join_Split (content +:+ peerConfig b) "010").
    rewrite Split_added by assumption.
    rewrite List.app_assoc, Join_snoc_empty; [reflexivity|].
    destruct (Split content "010"); discriminate.
  - cbn [GetPeers]. f_equal. unfold parsePeers.
    rewrite Split_Join_lines.
    2:{ apply Forall_app. split; [apply Split_pieces_lack|apply peer_lines_lack_LF, Wb]. }
    assert (E : Split content "010" ++ peer_lines b <> [])
      by (destruct (Split content "010"); discriminate).
    destruct (Split content "010" ++ peer_lines b) eqn:El; [contradiction|].
    rewrite <- El. clear El E.
    pose proof (parsePeers_no_section content (peerless_no_section _ Hc)) as N.
    pose proof (parsePeers_added content b Wb) as Ad.
    rewrite N in Ad. unfold parsePeers in Ad.
    rewrite Split_added, List.app_assoc, fold_left_app in Ad by assumption.
    cbn [fold_left] in Ad.
    destruct (fold_left peers_step (Split content "010" ++ peer_lines b) ([], None))
      as [ps cur].
    change (peers_step (ps, cur) "") with (ps, cur) in Ad. exact Ad.
Qed.
(** A section that is kept ends the reading: when the first peer section
    of a file is not the one to remove, [RemovePeer] writes the file up
    to the blank line after that section and drops whatever follows it,
    whichever key it was asked to remove; a peer added after the first
    one is lost that way, and [GetPeers] returns the first peer only. *)
Theorem RemovePeer_cuts_after_kept_section content a K rest :
  wf_peer a -> short_peer a -> peerless content ->
  Contains (pk_line a) K = false ->
  RemovePeer (File ((content +:+ peerConfig a) +:+ nl +:+ rest)) K true
  = Ok (File ((content +:+ peerConfig a) +:+ nl))
  /\ GetPeers (File ((content +:+ peerConfig a) +:+ nl)) = Ok [a]
  /\ forall b f2,
       AddPeer (File (content +:+ peerConfig a)) b true = Ok f2 ->
       RemovePeer f2 K true = Ok (File ((content +:+ peerConfig a) +:+ nl)).
Proof.
  intros Wa Sa Hc Hk.
  assert (P : Forall (fun l => too_long l = false /\ dropCR l = l) (peer_lines a)).
  { pose proof (peer_lines_dropCR a Wa) as D. unfold short_peer in Sa.
    induction Sa as [|l ls Hl Hls IH]; [constructor|].
    cbn [map] in D. injection D as D1 D2. constructor; [auto|apply IH, D2]. }
  assert (R : forall rest',
    RemovePeer (File ((content +:+ peerConfig a) +:+ nl +:+ rest')) K true
    = Ok (File ((content +:+ peerConfig a) +:+ nl))).
  { intros rest'. unfold RemovePeer, scan_lines.
    change (nl +:+ rest') with (String "010" rest').
    rewrite Split_app, Split_added by assumption.
    rewrite scan_pieces_app by apply Split_nonempty.
    rewrite scan_body_plain.
    2:{ apply Forall_app. split.
        - eapply Forall_impl; [exact Hc|]. intros l (H1 & H2 & _). auto.
        - apply Forall_app. split; [exact P|].
          constructor; [split; reflexivity|constructor]. }
    destruct (scan_pieces (Split rest' "010")) as [lb eb].
    rewrite <- !List.app_assoc. unfold peer_lines.
    replace (S (length (Split content "010"
               ++ ("[Peer]" :: pk_line a :: tail_lines a) ++ [""] ++ lb)))
      with (length (Split content "010")
            + S (S (S (length (tail_lines a) + S (length lb)))))%nat
      by (repeat (rewrite ?List.length_app; cbn [length]); lia).
    rewrite remove_loop_copy by exact Hc.
    cbn [remove_loop app].
    change (String.eqb (TrimSpace "[Peer]") "[Peer]") with true. cbv iota.
    change (tail_lines a ++ "" :: lb) with (tail_lines a ++ [""] ++ lb).
    rewrite read_section_other by assumption.
    cbn [read_section app].
    change (HasPrefix (TrimSpace "") "PublicKey = ") with false.
    change (HasPrefix (TrimSpace "") "[" || String.eqb (TrimSpace "") "") with true.
    cbn [andb]. cbv iota.
    change (scan_lines ("" +:+ nl)) with ([""], false). cbv iota.
    cbn [remove_loop].
    change (String.eqb (TrimSpace "") "[Peer]") with false. cbv iota. cbn [andb].
    f_equal. f_equal.
    rewrite <- (Join_Split ((content +:+ peerConfig a) +:+ nl) "010").
    change ((content +:+ peerConfig a) +:+ nl)
      with ((content +:+ peerConfig a) +:+ String "010" "").
    rewrite Split_app, Split_added by assumption.
    unfold peer_lines. cbn [Split]. rewrite <- !List.app_assoc. reflexivity. }
  split; [apply R|]. split.
  - cbn [GetPeers]. f_equal.
    pose proof (parsePeers_added content a Wa) as Ad.
    rewrite (parsePeers_no_section content (peerless_no_section _ Hc)) in Ad.
    unfold parsePeers in *.
    change ((content +:+ peerConfig a) +:+ nl)
      with ((content +:+ peerConfig a) +:+ String "010" "").
    rewrite Split_app, fold_left_app. cbn [Split fold_left].
    destruct (fold_left peers_step (Split (content +:+ peerConfig a) "010") ([], None))
      as [ps cur].
    change (peers_step (ps, cur) "") with (ps, cur). exact Ad.
  - intros b f2 [= <-]. rewrite (peerConfig_unlines b). apply R.
Qed.
End RemoveOfTwo.

(** ** The properties above at sample values *)

Section PoolSamples.
Import GoNet IPPool PoolQueries.

Lemma incrementIP_adds_witness :
  toZ (incrementIP [10; 0; 0; 255] 1)
  = (toZ [10; 0; 0; 255] + 1) mod 256 ^ Z.of_nat (length [10; 0; 0; 255])
  /\ incrementIP [0; 0; 0; 0; 0; 0; 0; 0; 0; 0; 0; 0; 0; 0; 0; 1] (2 ^ 63 - 1)
     = [0; 0; 0; 0; 0; 0; 0; 0; 0; 0; 0; 0; 0; 0; 0] ++ [(1 + (2 ^ 63 - 1)) mod 256].
Proof.
  split.
  - destruct (incrementIP_adds [10; 0; 0; 255] 1) as (_ & _ & _ & H).
    { repeat (apply Forall_cons_2; [unfold is_byte; lia|]). apply Forall_nil_2. }
    destruct (H [10; 0; 0] 255 eq_refl) as [Hsum _]. apply Hsum; lia.
  - destruct (incrementIP_adds [0; 0; 0; 0; 0; 0; 0; 0; 0; 0; 0; 0; 0; 0; 0; 1]
                (2 ^ 63 - 1)) as (_ & _ & _ & H).
    { repeat (apply Forall_cons_2; [unfold is_byte; lia|]). apply Forall_nil_2. }
    destruct (H [0; 0; 0; 0; 0; 0; 0; 0; 0; 0; 0; 0; 0; 0; 0] 1 eq_refl) as [_ Hov].
    apply Hov; lia.
Defined.

Lemma NewIPPool_fresh_witness :
  network pool29 = "10.0.0.0/29"
  /\ exists k, 3 <= k <= 32 /\ GetTotalIPs pool29 = 2 ^ k - 2.
Proof.
  destruct (NewIPPool_fresh "10.0.0.0/29" pool29) as (H1 & k & Hk & Ht & _).
  - vm_compute. reflexivity.
  - split; [exact H1|]. exists k. split; assumption.
Defined.

Lemma NewIPPool_by_prefix_witness :
  (exists p, NewIPPool "192.168.1.77/24" = Ok p /\ GetTotalIPs p = 254)
  /\ NewIPPool "192.168.1.77/30" = Err ErrTooSmall.
Proof.
  assert (Hip : is_ip4 [192; 168; 1; 77]).
  { split; [reflexivity|].
    repeat (apply Forall_cons_2; [unfold is_byte; lia|]). apply Forall_nil_2. }
  split.
  - destruct (NewIPPool_by_prefix [192; 168; 1; 77] 24 Hip ltac:(lia)) as [H _].
    destruct (H ltac:(lia)) as (p & E & Ht & _). exists p. split; [exact E|exact Ht].
  - destruct (NewIPPool_by_prefix [192; 168; 1; 77] 30 Hip ltac:(lia)) as [_ H].
    apply H. lia.
Defined.

Lemma NewIPPool_no_slash_witness : NewIPPool "10.0.0.0" = Err ErrInvalidCIDR.
Proof. apply NewIPPool_no_slash. reflexivity. Defined.

Lemma AllocateIP_first_fit_witness :
  exists i, 2 <= i <= GetTotalIPs pool29_used /\ "10.0.0.3" = host pool29_used i
    /\ forall j, 2 <= j < i -> IsAllocated pool29_used (host pool29_used j) = true.
Proof.
  pose proof (AllocateIP_first_fit no_ipv6 pool29_used pool29_used_reachable) as H.
  assert (E : AllocateIP no_ipv6 pool29_used = Ok ("10.0.0.3", pool29_next)).
  { vm_compute. reflexivity. }
  rewrite E in H. destruct H as (i & Hi & Hs & Hmin & _).
  exists i. split; [exact Hi|]. split; [exact Hs|exact Hmin].
Defined.

Lemma AllocateSpecificIP_effect_witness :
  IsAllocated pool29_with5 "10.0.0.5" = true
  /\ ReleaseIP no_ipv6 pool29_with5 "10.0.0.5" = Ok pool29_used.
Proof.
  destruct (AllocateSpecificIP_effect no_ipv6 pool29_used "10.0.0.5" pool29_with5
              pool29_used_reachable) as (_ & _ & H1 & _ & _ & _ & H2).
  - vm_compute. reflexivity.
  - split; assumption.
Defined.

Lemma ReleaseIP_effect_witness :
  IsAllocated pool29_without4 "10.0.0.4" = false
  /\ ReleaseIP no_ipv6 pool29_without4 "10.0.0.4" = Err (ErrNotAllocated "10.0.0.4")
  /\ AllocateSpecificIP no_ipv6 pool29_without4 "10.0.0.4" = Ok pool29_used.
Proof.
  destruct (ReleaseIP_effect no_ipv6 pool29_used "10.0.0.4" pool29_without4
              pool29_used_reachable) as (_ & _ & H1 & _ & _ & H2 & H3).
  - vm_compute. reflexivity.
  - repeat split; assumption.
Defined.

Lemma AllocateSpecificIP_by_position_witness :
  AllocateSpecificIP no_ipv6 pool29_used (host pool29_used 0)
  = Err (ErrNetworkAddress (host pool29_used 0))
  /\ AllocateSpecificIP no_ipv6 pool29_used (host pool29_used 1)
     = Err (ErrServerReserved (host pool29_used 1)).
Proof.
  destruct (AllocateSpecificIP_by_position no_ipv6 pool29_used pool29_used_reachable)
    as (H0 & H1 & _).
  split; assumption.
Defined.
End PoolSamples.

Section ConfigSamples.
Import GoStrings WGConfig.

Lemma demo_server_wf : wf_server demo_server.
Proof.
  unfold wf_server.
  split; [eapply one_line_text; vm_compute; reflexivity|].
  split; [eapply one_line_text; vm_compute; reflexivity|].
  split; [vm_compute; split; [discriminate|reflexivity]|].
  split; repeat (apply Forall_cons_2; [eapply one_line_text; vm_compute; reflexivity|]);
    apply Forall_nil_2.
Defined.

Lemma GetConfig_WriteConfig_witness :
  GetConfig demo_pubkey (WireGuard.File (GenerateConfigFile demo_server))
  = Ok (read_back demo_pubkey demo_server).
Proof.
  apply (@GetConfig_WriteConfig AsciiTrim demo_pubkey demo_server true true).
  - exact demo_server_wf.
  - reflexivity.
Defined.

Lemma GetConfig_AddPeer_witness :
  GetConfig demo_pubkey file_c = GetConfig demo_pubkey (WireGuard.File demo_base).
Proof.
  apply (@GetConfig_AddPeer AsciiTrim demo_pubkey (WireGuard.File demo_base) peer_c true).
  - exact demo_wf_peer_c.
  - reflexivity.
Defined.

Lemma ServerConfig_AddPeer_GetPeers_witness :
  WireGuard.GetPeers
    (WireGuard.File (demo_base +:+ ServerConfig_AddPeer demo_server "peer-d" "10.0.0.9"))
  = Ok (WireGuard.parsePeers demo_base
        ++ [WireGuard.mkPeer "peer-d" ["10.0.0.9" +:+ "/32"] "" 0]).
Proof.
  apply (@ServerConfig_AddPeer_GetPeers AsciiTrim demo_server "peer-d" "10.0.0.9"
           demo_base).
  - split; [reflexivity|discriminate].
  - split; [reflexivity|discriminate].
  - reflexivity.
Defined.

Lemma NewServerConfig_round_trip_witness :
  exists sc,
    NewServerConfig (Some demo_keys_server) 51820 "10.0.0.0/29" = Ok sc
    /\ Address sc = IPPool.GetServerIP pool29 +:+ "/" +:+ Itoa 29.
Proof.
  destruct (@NewServerConfig_round_trip AsciiTrim demo_pubkey demo_keys_server 51820
              [10; 0; 0; 0] 29) as (sc & H1 & H2 & _).
  - split; [reflexivity|].
    repeat (apply Forall_cons_2; [unfold GoNet.is_byte; lia|]). apply Forall_nil_2.
  - lia.
  - exists sc. split; [exact H1|]. apply H2. vm_compute. reflexivity.
Defined.
End ConfigSamples.

Section AlertSamples.
Import Monitoring.

Lemma EvaluateMetrics_course_witness :
  exists a a',
    alerts demo_cpu_alert !! "system_cpu_high" = Some a
    /\ alerts (EvaluateMetrics demo_cpu_alert (demo_metrics 50) 65)
         !! "system_cpu_high" = Some a'
    /\ keeps_course 65 a a'.
Proof.
  destruct (alerts demo_cpu_alert !! "system_cpu_high") as [a|] eqn:Ea.
  2:{ vm_compute in Ea. discriminate. }
  pose proof (EvaluateMetrics_course demo_cpu_alert (demo_metrics 50) 65
                "system_cpu_high" a Ea) as H.
  destruct (alerts (EvaluateMetrics demo_cpu_alert (demo_metrics 50) 65)
              !! "system_cpu_high") as [a'|] eqn:Ea'.
  - exists a, a'. split; [reflexivity|]. split; [reflexivity|exact H].
  - vm_compute in Ea'. discriminate.
Defined.
End AlertSamples.

Section HandlerSamples2.
Import GoNet IPPool.

Lemma CreateClient_DeleteClient_witness :
  exists r w2,
    ClientAPI.DeleteClient no_ipv6 "2" true demo_world_phone = Some (r, w2)
    /\ API.w_pool w2 = API.w_pool demo_world.
Proof.
  destruct (@CreateClient_DeleteClient ListStore ListQueries AsciiTrim no_ipv6
              occurs_refl occurs_refl "phone" demo_keys demo_world
              ("[Interface]" +:+ WireGuard.nl +:+ "ListenPort = 51820" +:+ WireGuard.nl)
              "10.0.0.3" pool29_next
              (API.Created
                 (API.mkCreateClientResponse 2 "phone" "client-public-key"
                    "10.0.0.3" true 1700000000))
              demo_world_phone "2" 2 demo_phone)
    as (r & w2 & H1 & H2 & _).
  - exact pool29_used_reachable.
  - reflexivity.
  - split; [reflexivity|discriminate].
  - reflexivity.
  - vm_compute. reflexivity.
  - vm_compute. reflexivity.
  - reflexivity.
  - vm_compute. reflexivity.
  - reflexivity.
  - reflexivity.
  - exists r, w2. split; assumption.
Defined.
End HandlerSamples2.

Section RemoveExamples.
Import GoStrings WireGuard.

Lemma demo_base_peerless : @peerless AsciiTrim demo_base.
Proof.
  unfold peerless.
  repeat (apply Forall_cons_2; [split; [|split]; vm_compute; reflexivity|]).
  apply Forall_nil_2.
Defined.

Lemma demo_wf_peer_a : wf_peer peer_a.
Proof.
  unfold wf_peer, plain. cbn [PublicKey AllowedIPs Endpoint PersistentKA peer_a].
  split; [split; [reflexivity|discriminate]|].
  split; [discriminate|]. split; [|split; [reflexivity|lia]].
  repeat (constructor; [split; [split; [reflexivity|discriminate]|reflexivity]|]).
  constructor.
Defined.

Lemma demo_wf_peer_b : wf_peer peer_b.
Proof.
  unfold wf_peer, plain. cbn [PublicKey AllowedIPs Endpoint PersistentKA peer_b].
  split; [split; [reflexivity|discriminate]|].
  split; [discriminate|]. split; [|split; [reflexivity|lia]].
  repeat (constructor; [split; [split; [reflexivity|discriminate]|reflexivity]|]).
  constructor.
Defined.

Lemma demo_short_peers : short_peer peer_a /\ short_peer peer_b /\ short_peer peer_c.
Proof.
  unfold short_peer.
  repeat split;
    repeat (apply Forall_cons_2; [vm_compute; reflexivity|]); apply Forall_nil_2.
Defined.

Lemma AddPeer_RemovePeer_restores_witness :
  exists f1,
    AddPeer (File demo_base) peer_c true = Ok f1
    /\ @RemovePeer AsciiTrim f1 "peer-c" true = Ok (File demo_base).
Proof.
  apply (@AddPeer_RemovePeer_restores AsciiTrim demo_base peer_c).
  - exact demo_wf_peer_c.
  - apply demo_short_peers.
  - exact demo_base_peerless.
Defined.

Lemma RemovePeer_first_of_two_witness :
  exists text,
    @RemovePeer AsciiTrim
      (File ((demo_base +:+ peerConfig peer_a) +:+ peerConfig peer_b))
      "peer-to-remove" true = Ok (File text)
    /\ text +:+ nl = demo_base +:+ peerConfig peer_b
    /\ @GetPeers AsciiTrim (File text) = Ok [peer_b].
Proof.
  apply (@RemovePeer_first_of_two AsciiTrim demo_base peer_a peer_b
           (File (demo_base +:+ peerConfig peer_a))).
  - exact demo_wf_peer_a.
  - apply demo_short_peers.
  - exact demo_wf_peer_b.
  - apply demo_short_peers.
  - exact demo_base_peerless.
  - vm_compute. reflexivity.
  - reflexivity.
  - reflexivity.
Defined.

Lemma RemovePeer_cuts_after_kept_section_witness :
  @RemovePeer AsciiTrim
    (File ((demo_base +:+ peerConfig peer_a) +:+ peerConfig peer_b))
    "no-such-peer" true
  = Ok (File ((demo_base +:+ peerConfig peer_a) +:+ nl)).
Proof.
  destruct (@RemovePeer_cuts_after_kept_section AsciiTrim demo_base peer_a
              "no-such-peer" "") as (_ & _ & H).
  - exact demo_wf_peer_a.
  - apply demo_short_peers.
  - exact demo_base_peerless.
  - vm_compute. reflexivity.
  - apply (H peer_b). reflexivity.
Defined.
End RemoveExamples.
